(** * Maxim dual GMSL deserializer: register I/O, init-sequence decoder, i2c mux

    A shallow embedding of [drivers/media/i2c/maxim/local/maxim2c/maxim2c_i2c.c].

    - C integers are [Z] with the wrap-around of their type written out
      ([u8], [u16], [u32]).
    - A C object viewed through a [u8 *] is the list of its bytes in memory
      order; a byte the C program does not determine (an uninitialised stack
      slot, an address outside the object) is [None].
    - A read or a write of the program itself outside an object it
      allocated is undefined: the function that makes it has no result
      ([None]).
    - Every call that leaves the file (the i2c core, the mux core, the
      allocator, the link layer, the timer) is a [request] answered by the
      host; the world is the history of the requests issued so far, newest
      first, so "what the driver did" is a statement about that history.
    - Logging ([dev_info], [dev_err], [dev_dbg]) and the reference counts of
      device-tree nodes are left out. A device-tree node is given by what the
      code reads from it.
    - The headers of the driver are not part of the sources at hand: their
      constants are parameters of the development, and the fields of their
      structures have the types of the function parameters they are passed
      as. *)

From Stdlib Require Import ZArith List Lia Bool Btauto.
Import ListNotations.
Local Open Scope Z_scope.

(** ** Integer types *)

Definition u8 (z : Z) : Z := z mod 2 ^ 8.
Definition u16 (z : Z) : Z := z mod 2 ^ 16.
Definition u32 (z : Z) : Z := z mod 2 ^ 32.

Arguments u8 : simpl never.
Arguments u16 : simpl never.
Arguments u32 : simpl never.

(** [BIT(nr)] is [1UL << nr]. *)
Definition BIT (nr : Z) : Z := Z.shiftl 1 nr.

(** Error numbers of [errno-base.h]. *)
Definition EIO : Z := 5.
Definition ENOMEM : Z := 12.
Definition ENODEV : Z := 19.
Definition EINVAL : Z := 22.

(** ** Objects as bytes *)

(** The bytes of a [__be16] / [__be32] object holding [cpu_to_be16 v] /
    [cpu_to_be32 v], in memory order: most significant byte first, whatever
    the byte order of the CPU. *)
Definition cpu_to_be16 (v : Z) : list Z :=
  [u8 (Z.shiftr v 8); u8 v].

Definition cpu_to_be32 (v : Z) : list Z :=
  [u8 (Z.shiftr v 24); u8 (Z.shiftr v 16); u8 (Z.shiftr v 8); u8 v].

(** The value of a big-endian byte string. *)
Fixpoint be_value_from (acc : Z) (bs : list Z) : Z :=
  match bs with
  | [] => acc
  | b :: bs' => be_value_from (Z.lor (Z.shiftl acc 8) b) bs'
  end.

Definition be_value (bs : list Z) : Z := be_value_from 0 bs.

(** [be32_to_cpu] of the four bytes of a [__be32] object. *)
Definition be32_to_cpu (bs : list Z) : Z := be_value (firstn 4 bs).

(** The bytes of a [u32] object in the memory order of the CPU. *)
Definition u32_in_memory (big_endian : bool) (v : Z) : list Z :=
  if big_endian then cpu_to_be32 v else rev (cpu_to_be32 v).

(** [p[i] = v] on an array of possibly indeterminate bytes. *)
Fixpoint store (buf : list (option Z)) (i : nat) (v : Z) : list (option Z) :=
  match buf, i with
  | [], _ => []
  | _ :: tl, O => Some v :: tl
  | b :: tl, S i' => b :: store tl i' v
  end.

(** The byte at index [i] of an object: indeterminate outside the object. *)
Definition byte_at {A : Type} (obj : list (option A)) (i : Z) : option A :=
  if i <? 0 then None
  else match nth_error obj (Z.to_nat i) with
       | Some b => b
       | None => None
       end.

(** The [len] bytes a callee reads through the pointer [&obj[off]]. *)
Definition mem_slice {A : Type} (obj : list (option A)) (off len : Z)
  : list (option A) :=
  map (fun k => byte_at obj (off + Z.of_nat k)) (seq 0 (Z.to_nat len)).

(** ** The host *)

Record i2c_client := { addr : Z }.

(** The calls the file makes into the kernel and into the rest of the driver. *)
Inductive request :=
| I2cMasterSend (a : Z) (bytes : list (option Z))
    (* i2c_master_send(client, buf, count): the count bytes handed over *)
| I2cTransfer (a : Z) (reg_bytes : list (option Z)) (rd_len : Z)
    (* i2c_transfer of a write message followed by a read of rd_len bytes *)
| UsleepRange (lo hi : Z)
| LinkSelectRemoteControl (link_mask : Z)
    (* maxim2c_link_select_remote_control(maxim2c, link_mask) *)
| DevmKmemdup (len : Z)
| DevmKcalloc (n : Z)
| I2cCheckFunctionality
| I2cMuxAlloc (max_adapters : Z)
| I2cMuxAddAdapter (chan_id : Z)
| I2cMuxDelAdapters.

(** What the host answers: the C return value (a pointer counts as zero when
    NULL) and, for a read, the bytes the adapter put into the buffer. *)
Record response := { ret : Z; data : list Z }.

Definition world := list request.

Definition host_model := world -> request -> response.

(** ** Stateful code *)

Definition M (A : Type) : Type := world -> A * world.

Definition pure {A : Type} (a : A) : M A := fun w => (a, w).

Definition bind {A B : Type} (m : M A) (k : A -> M B) : M B :=
  fun w => let (a, w') := m w in k a w'.

Notation "x <- m ;; k" := (bind m (fun x => k))
  (at level 61, m at next level, right associativity).
Notation "m ;;; k" := (bind m (fun _ => k))
  (at level 61, right associativity).

(** A function that either fails with a non-zero code, leaving its output
    parameter alone, or returns 0 after writing it. *)
Inductive result (A : Type) :=
| Ok (a : A)
| Err (e : Z).
Arguments Ok {A} a.
Arguments Err {A} e.

(** ** Data of the driver *)

(** One register setting ([struct maxim2c_i2c_regval]). The fields have the
    types of the parameters they are passed as: [u16 reg_len], [u16 reg_addr],
    [u32 val_len], [u32 reg_val], [u32 val_mask]; [delay] is a [u8]. *)
Record maxim2c_i2c_regval := {
  reg_len : Z;
  reg_addr : Z;
  val_len : Z;
  reg_val : Z;
  val_mask : Z;
  delay : Z
}.

(** [struct maxim2c_i2c_init_seq]: the decoded array ([None] is NULL) and the
    [u32] sizes read from the device tree. *)
Record maxim2c_i2c_init_seq := {
  reg_init_seq : option (list maxim2c_i2c_regval);
  reg_seq_size : Z;
  seq_item_size : Z;
  seq_reg_len : Z;
  seq_val_len : Z
}.

(** The mux part of [maxim2c_t]. [muxc] is the handle [i2c_mux_alloc]
    returned, 0 for NULL. [i2c_mux_mask] holds the [u32] that
    [maxim2c_i2c_mux_mask] returns. [mux_channel] is compared with the [u32]
    channel number, so it is held modulo [2 ^ 32]: the [-1] the code assigns
    is [u32 (-1)]. *)
Record maxim2c_i2c_mux := {
  muxc : Z;
  i2c_mux_mask : Z;
  mux_channel : Z;
  mux_disable : bool
}.

(** A child of the "i2c-mux" device-tree node: its "reg" property when it
    has one, and whether [of_device_is_available] holds. *)
Record device_node := {
  reg : option Z;
  available : bool
}.

(** [maxim2c_t], as far as this file reads or writes it. [of_i2c_mux] is what
    [of_find_node_by_name(dev->of_node, "i2c-mux")] finds: NULL, or the node,
    given by its children in order. *)
Record maxim2c_t := {
  client : i2c_client;
  i2c_mux : maxim2c_i2c_mux;
  of_i2c_mux : option (list device_node)
}.

(** [of_property_read_u32(node, "reg", &out)]: [*out] afterwards; it is left
    alone when the node has no such property. *)
Definition of_property_read_u32_reg (node : device_node) (out : Z) : Z :=
  match reg node with
  | Some r => r
  | None => out
  end.

Definition set_i2c_mux (m : maxim2c_t) (x : maxim2c_i2c_mux) : maxim2c_t :=
  {| client := client m; i2c_mux := x; of_i2c_mux := of_i2c_mux m |}.

Section Driver.

Variable host : host_model.

(** Constants of the driver's headers: the end-of-array register address,
    the byte counts of a 16-bit address and an 8-bit value, and the number of
    links. *)
Variable MAXIM2C_REG_NULL : Z.
Variable MAXIM2C_I2C_REG_ADDR_16BITS : Z.
Variable MAXIM2C_I2C_REG_VALUE_08BITS : Z.
Variable MAXIM2C_LINK_ID_MAX : Z.

(** The byte order of the CPU: it decides which byte of a [u32] a [u8 *] to
    it points at. *)
Variable cpu_big_endian : bool.

Definition call (r : request) : M response :=
  fun w => (host w r, r :: w).

(** ** Register write *)

(** [while (val_i < 4) buf[buf_i++] = val_p[val_i++];] with [val_p] the four
    bytes of [val_be]: one step per remaining byte of [val_p]. *)
Definition copy_value (buf : list (option Z)) (buf_i : nat)
  (val_p : list Z) (val_i : Z) : list (option Z) * nat :=
  fold_left (fun st b => (store (fst st) (snd st) b, S (snd st)))
    (skipn (Z.to_nat val_i) val_p) (buf, buf_i).

Definition maxim2c_i2c_write (client : i2c_client)
  (reg_addr reg_len val_len reg_val : Z) : M Z :=
  if 4 <? val_len then pure (- EINVAL)
  else
    let buf : list (option Z) := repeat None 6 in
    let '(buf, buf_i) :=
      if reg_len =? 2
      then (store (store buf 0 (u8 (Z.shiftr reg_addr 8))) 1
              (u8 (Z.land reg_addr 255)), 2%nat)
      else (store buf 0 (u8 (Z.land reg_addr 255)), 1%nat) in
    let val_p := cpu_to_be32 reg_val in
    let val_i := 4 - val_len in
    let '(buf, _) := copy_value buf buf_i val_p val_i in
    let count := u32 (val_len + reg_len) in
    r <- call (I2cMasterSend (addr client) (mem_slice buf 0 count)) ;;
    if u32 (ret r) =? count then pure 0 else pure (- EIO).

(** ** Register read *)

(** The adapter fills [len] bytes of [obj] from offset [off]; a byte the
    answer does not give keeps the object's content. *)
Definition fill_bytes (obj : list Z) (off len : Z) (bytes : list Z) : list Z :=
  map (fun k =>
         let j := Z.of_nat k - off in
         if (0 <=? j) && (j <? len)
         then match nth_error bytes (Z.to_nat j) with
              | Some b => u8 b
              | None => nth k obj 0
              end
         else nth k obj 0)
      (seq 0 (length obj)).

Definition maxim2c_i2c_read (client : i2c_client)
  (reg_addr reg_len val_len : Z) : M (result Z) :=
  let data_be := [0; 0; 0; 0] in
  let reg_addr_be := map Some (cpu_to_be16 reg_addr) in
  if (4 <? val_len) || (val_len =? 0) then pure (Err (- EINVAL))
  else
    r <- call (I2cTransfer (addr client)
                 (mem_slice reg_addr_be (2 - reg_len) reg_len) val_len) ;;
    if ret r =? 2
    then pure (Ok (be32_to_cpu (fill_bytes data_be (4 - val_len) val_len (data r))))
    else pure (Err (- EIO)).

(** ** Register update *)

Definition maxim2c_i2c_update (client : i2c_client)
  (reg_addr reg_len val_len val_mask reg_val : Z) : M Z :=
  r <- maxim2c_i2c_read client reg_addr reg_len val_len ;;
  match r with
  | Err e => pure e
  | Ok value =>
      let value := Z.land value (u32 (Z.lnot val_mask)) in
      let value := Z.lor value (Z.land reg_val val_mask) in
      maxim2c_i2c_write client reg_addr reg_len val_len value
  end.

(** ** One-byte registers at 16-bit addresses *)

Definition maxim2c_i2c_write_reg (client : i2c_client)
  (reg_addr reg_val : Z) : M Z :=
  maxim2c_i2c_write client reg_addr
    MAXIM2C_I2C_REG_ADDR_16BITS MAXIM2C_I2C_REG_VALUE_08BITS reg_val.

(** Returns the code and the byte stored through [reg_val], which is the
    first byte in memory of the local [u32 value] (0 when the read failed). *)
Definition maxim2c_i2c_read_reg (client : i2c_client)
  (reg_addr : Z) : M (Z * Z) :=
  r <- maxim2c_i2c_read client reg_addr
         MAXIM2C_I2C_REG_ADDR_16BITS MAXIM2C_I2C_REG_VALUE_08BITS ;;
  let '(ret, value) :=
    match r with
    | Ok v => (0, v)
    | Err e => (e, 0)
    end in
  pure (ret, hd 0 (u32_in_memory cpu_big_endian value)).

Definition maxim2c_i2c_update_reg (client : i2c_client)
  (reg_addr val_mask reg_val : Z) : M Z :=
  r <- maxim2c_i2c_read_reg client reg_addr ;;
  let '(ret, value) := r in
  if negb (ret =? 0) then pure ret
  else
    let value := u8 (Z.land value (Z.lnot val_mask)) in
    let value := u8 (Z.lor value (Z.land reg_val val_mask)) in
    maxim2c_i2c_write_reg client reg_addr value.

(** ** Register arrays *)

(** The body of the loop of [maxim2c_i2c_write_array] for [regs[i]]. *)
Definition write_array_entry (client : i2c_client)
  (r : maxim2c_i2c_regval) : M Z :=
  ret <- (if negb (val_mask r =? 0)
          then maxim2c_i2c_update client (reg_addr r) (reg_len r)
                 (val_len r) (val_mask r) (reg_val r)
          else maxim2c_i2c_write client (reg_addr r) (reg_len r)
                 (val_len r) (reg_val r)) ;;
  (if negb (delay r =? 0)
   then call (UsleepRange (delay r * 1000) (delay r * 1000 + 100)) ;;; pure tt
   else pure tt) ;;;
  pure ret.

(** The loop from [regs[i]] on, [regs] being what is left of the array.
    [None]: the loop read past the end of the array. *)
Fixpoint write_array_from (client : i2c_client) (ret : Z)
  (regs : list maxim2c_i2c_regval) : M (option Z) :=
  if negb (ret =? 0) then pure (Some ret)
  else
    match regs with
    | [] => pure None
    | r :: regs' =>
        if reg_addr r =? MAXIM2C_REG_NULL then pure (Some ret)
        else
          ret' <- write_array_entry client r ;;
          write_array_from client ret' regs'
    end.

Definition maxim2c_i2c_write_array (client : i2c_client)
  (regs : list maxim2c_i2c_regval) : M (option Z) :=
  write_array_from client 0 regs.

(** ** The init-sequence decoder *)

(** [*d8] in the copy of the sequence data. The copy has [data_len] bytes;
    a read through a [d8] that points outside it is undefined: [None]. *)
Definition deref (data_buf : list Z) (d8 : Z) : option Z :=
  if d8 <? 0 then None else nth_error data_buf (Z.to_nat d8).

(** [field |= *d8 << shift; d8 += 1;] for a field whose type wraps by
    [wrap]. The state is the field and [d8]. *)
Definition or_byte (wrap : Z -> Z) (data_buf : list Z) (shift : Z)
  (st : Z * Z) : option (Z * Z) :=
  let (field, d8) := st in
  match deref data_buf d8 with
  | Some b => Some (wrap (Z.lor field (Z.shiftl b shift)), d8 + 1)
  | None => None
  end.

(** The labels of [switch (len) { case 4: ... case 3: ... case 2: ...
    case 1: ... break; }]: each falls through to the next. *)
Definition case_1 (wrap : Z -> Z) (data_buf : list Z) (st : Z * Z)
  : option (Z * Z) :=
  or_byte wrap data_buf 0 st.

Definition case_2 (wrap : Z -> Z) (data_buf : list Z) (st : Z * Z)
  : option (Z * Z) :=
  match or_byte wrap data_buf 8 st with
  | Some st => case_1 wrap data_buf st
  | None => None
  end.

Definition case_3 (wrap : Z -> Z) (data_buf : list Z) (st : Z * Z)
  : option (Z * Z) :=
  match or_byte wrap data_buf 16 st with
  | Some st => case_2 wrap data_buf st
  | None => None
  end.

Definition case_4 (wrap : Z -> Z) (data_buf : list Z) (st : Z * Z)
  : option (Z * Z) :=
  match or_byte wrap data_buf 24 st with
  | Some st => case_3 wrap data_buf st
  | None => None
  end.

(** [field = 0; switch (len) { ... }]: a length other than 1..4 matches no
    label, so nothing is read and [d8] stays. *)
Definition switch_len (wrap : Z -> Z) (data_buf : list Z) (len d8 : Z)
  : option (Z * Z) :=
  match len with
  | 4 => case_4 wrap data_buf (0, d8)
  | 3 => case_3 wrap data_buf (0, d8)
  | 2 => case_2 wrap data_buf (0, d8)
  | 1 => case_1 wrap data_buf (0, d8)
  | _ => Some (0, d8)
  end.

(** One turn of the decoding loop: the entry written to
    [init_seq->reg_init_seq[i]] and [d8] afterwards. *)
Definition parse_item (init_seq : maxim2c_i2c_init_seq) (data_buf : list Z)
  (d8 : Z) : option (maxim2c_i2c_regval * Z) :=
  match switch_len u16 data_buf (seq_reg_len init_seq) d8 with
  | None => None
  | Some (a, d8) =>
      match switch_len u32 data_buf (seq_val_len init_seq) d8 with
      | None => None
      | Some (v, d8) =>
          match switch_len u32 data_buf (seq_val_len init_seq) d8 with
          | None => None
          | Some (m, d8) =>
              match deref data_buf d8 with
              | None => None
              | Some d =>
                  Some ({| reg_len := u16 (seq_reg_len init_seq);
                           reg_addr := a;
                           val_len := seq_val_len init_seq;
                           reg_val := v;
                           val_mask := m;
                           delay := d |}, d8 + 1)
              end
          end
      end
  end.

(** [a[i] = x] on the array [devm_kcalloc] returned, which has
    [reg_seq_size] entries; a write outside it is undefined: [None]. *)
Fixpoint array_set {A : Type} (a : list A) (i : nat) (x : A)
  : option (list A) :=
  match a, i with
  | [], _ => None
  | _ :: tl, O => Some (x :: tl)
  | y :: tl, S i' =>
      match array_set tl i' x with
      | Some tl' => Some (y :: tl')
      | None => None
      end
  end.

(** [for (i = 0; i < reg_seq_size - 1; i++)] with [n] turns left. *)
Fixpoint parse_loop (n : nat) (init_seq : maxim2c_i2c_init_seq)
  (data_buf : list Z) (i : nat) (d8 : Z) (a : list maxim2c_i2c_regval)
  : option (list maxim2c_i2c_regval) :=
  match n with
  | O => Some a
  | S n' =>
      match parse_item init_seq data_buf d8 with
      | None => None
      | Some (e, d8') =>
          match array_set a i e with
          | None => None
          | Some a' => parse_loop n' init_seq data_buf (S i) d8' a'
          end
      end
  end.

(** An entry of zeroed memory. *)
Definition regval_zero : maxim2c_i2c_regval :=
  {| reg_len := 0; reg_addr := 0; val_len := 0; reg_val := 0; val_mask := 0;
     delay := 0 |}.

(** The end register setting: [reg_len] and [reg_addr] of the last entry. *)
Definition end_setting (init_seq : maxim2c_i2c_init_seq)
  (e : maxim2c_i2c_regval) : maxim2c_i2c_regval :=
  {| reg_len := u16 (seq_reg_len init_seq);
     reg_addr := u16 MAXIM2C_REG_NULL;
     val_len := val_len e;
     reg_val := reg_val e;
     val_mask := val_mask e;
     delay := delay e |}.

Definition set_reg_seq_size (s : maxim2c_i2c_init_seq) (n : Z)
  : maxim2c_i2c_init_seq :=
  {| reg_init_seq := reg_init_seq s; reg_seq_size := n;
     seq_item_size := seq_item_size s; seq_reg_len := seq_reg_len s;
     seq_val_len := seq_val_len s |}.

Definition set_reg_init_seq (s : maxim2c_i2c_init_seq)
  (a : option (list maxim2c_i2c_regval)) : maxim2c_i2c_init_seq :=
  {| reg_init_seq := a; reg_seq_size := reg_seq_size s;
     seq_item_size := seq_item_size s; seq_reg_len := seq_reg_len s;
     seq_val_len := seq_val_len s |}.

(** [seq_data] and [init_seq] are [None] when NULL; [seq_data] is the object
    the pointer refers to and [data_len] the [int] the caller passes, so the
    copy [devm_kmemdup] makes holds the first [data_len] bytes of [seq_data]
    (what there is of them). Returns the code and [*init_seq] afterwards, or
    [None] when the decoding loop reads outside the copy of the data or
    writes outside the array it allocated. *)
Definition maxim2c_i2c_parse_init_seq (seq_data : option (list Z))
  (data_len : Z) (init_seq : option maxim2c_i2c_init_seq)
  : M (option (Z * option maxim2c_i2c_init_seq)) :=
  match seq_data, init_seq with
  | Some seq_data, Some s =>
      if (seq_item_size s =? 0) || (data_len =? 0)
         || (seq_reg_len s =? 0) || (seq_val_len s =? 0)
      then pure (Some (- EINVAL, init_seq))
      else if negb (u32 data_len mod seq_item_size s =? 0)
      then pure (Some (- EINVAL, init_seq))
      else if negb (seq_item_size s
                    =? u32 (seq_reg_len s + seq_val_len s * 2 + 1))
      then pure (Some (- EINVAL, init_seq))
      else
        p <- call (DevmKmemdup data_len) ;;
        if ret p =? 0 then pure (Some (- ENOMEM, init_seq))
        else
          let data_buf := firstn (Z.to_nat data_len) seq_data in
          let d8 := 0 in
          let s := set_reg_seq_size s (u32 data_len / seq_item_size s) in
          let s := set_reg_seq_size s (u32 (reg_seq_size s + 1)) in
          q <- call (DevmKcalloc (reg_seq_size s)) ;;
          if ret q =? 0
          then pure (Some (- ENOMEM, Some (set_reg_init_seq s None)))
          else
            let a := repeat regval_zero (Z.to_nat (reg_seq_size s)) in
            let n := u32 (reg_seq_size s - 1) in
            match parse_loop (Z.to_nat n) s data_buf 0 d8 a with
            | None => pure None
            | Some a =>
                match array_set a (Z.to_nat n)
                        (end_setting s (nth (Z.to_nat n) a regval_zero)) with
                | None => pure None
                | Some a => pure (Some (0, Some (set_reg_init_seq s (Some a))))
                end
            end
  | _, _ => pure (Some (- EINVAL, init_seq))
  end.

Definition maxim2c_i2c_run_init_seq (client : i2c_client)
  (init_seq : option maxim2c_i2c_init_seq) : M (option Z) :=
  match init_seq with
  | None => pure (Some 0)
  | Some s =>
      match reg_init_seq s with
      | None => pure (Some 0)
      | Some regs => maxim2c_i2c_write_array client regs
      end
  end.

(** ** The i2c mux *)

Definition set_mux_channel (x : maxim2c_i2c_mux) (c : Z) : maxim2c_i2c_mux :=
  {| muxc := muxc x; i2c_mux_mask := i2c_mux_mask x; mux_channel := c;
     mux_disable := mux_disable x |}.

Definition set_mux_disable (x : maxim2c_i2c_mux) (b : bool) : maxim2c_i2c_mux :=
  {| muxc := muxc x; i2c_mux_mask := i2c_mux_mask x;
     mux_channel := mux_channel x; mux_disable := b |}.

Definition set_i2c_mux_mask (x : maxim2c_i2c_mux) (m : Z) : maxim2c_i2c_mux :=
  {| muxc := muxc x; i2c_mux_mask := m; mux_channel := mux_channel x;
     mux_disable := mux_disable x |}.

Definition set_muxc (x : maxim2c_i2c_mux) (p : Z) : maxim2c_i2c_mux :=
  {| muxc := p; i2c_mux_mask := i2c_mux_mask x;
     mux_channel := mux_channel x; mux_disable := mux_disable x |}.

(** The callbacks get [maxim2c] through [i2c_mux_priv(muxc)]; they return the
    code and [*maxim2c] afterwards. *)
Definition maxim2c_i2c_mux_select (maxim2c : maxim2c_t) (chan : Z)
  : M (Z * maxim2c_t) :=
  if mux_disable (i2c_mux maxim2c) then pure (0, maxim2c)
  else if mux_channel (i2c_mux maxim2c) =? chan then pure (0, maxim2c)
  else
    let maxim2c := set_i2c_mux maxim2c
                     (set_mux_channel (i2c_mux maxim2c) chan) in
    r <- call (LinkSelectRemoteControl (BIT chan)) ;;
    pure (ret r, maxim2c).

Definition maxim2c_i2c_mux_deselect (maxim2c : maxim2c_t) (chan : Z)
  : M (Z * maxim2c_t) :=
  if mux_disable (i2c_mux maxim2c) then pure (0, maxim2c)
  else
    r <- call (LinkSelectRemoteControl 0) ;;
    pure (ret r, maxim2c).

Definition maxim2c_i2c_mux_disable (maxim2c : maxim2c_t)
  : M (Z * maxim2c_t) :=
  r <- call (LinkSelectRemoteControl 255) ;;
  if negb (ret r =? 0) then pure (ret r, maxim2c)
  else pure (0, set_i2c_mux maxim2c
                  (set_mux_disable (i2c_mux maxim2c) true)).

Definition maxim2c_i2c_mux_enable (maxim2c : maxim2c_t) (def_mask : Z)
  : M (Z * maxim2c_t) :=
  r <- call (LinkSelectRemoteControl def_mask) ;;
  if negb (ret r =? 0) then pure (ret r, maxim2c)
  else
    let x := set_mux_disable (i2c_mux maxim2c) false in
    let x := set_mux_channel x (u32 (-1)) in
    pure (0, set_i2c_mux maxim2c x).

(** The body of [for_each_child_of_node(i2c_mux, node)]. *)
Definition mux_mask_child (i2c_mux_mask : Z) (node : device_node) : Z :=
  let id := 0 in
  let id := of_property_read_u32_reg node id in
  if MAXIM2C_LINK_ID_MAX <=? id then i2c_mux_mask
  else if negb (available node) then i2c_mux_mask
  else u32 (Z.lor i2c_mux_mask (BIT id)).

(** The [u32] the function returns. *)
Definition maxim2c_i2c_mux_mask (maxim2c : maxim2c_t) : Z :=
  match of_i2c_mux maxim2c with
  | None => u32 (- EINVAL)
  | Some children => fold_left mux_mask_child children 0
  end.

(** [for (i = 0; i < MAXIM2C_LINK_ID_MAX; i++)] over the channels left:
    the first non-zero code of [i2c_mux_add_adapter], or 0. *)
Fixpoint add_adapters (chans : list Z) : M Z :=
  match chans with
  | [] => pure 0
  | i :: chans' =>
      r <- call (I2cMuxAddAdapter i) ;;
      if negb (ret r =? 0) then pure (ret r) else add_adapters chans'
  end.

Definition maxim2c_i2c_mux_init (maxim2c : maxim2c_t) : M (Z * maxim2c_t) :=
  f <- call I2cCheckFunctionality ;;
  if ret f =? 0 then pure (- ENODEV, maxim2c)
  else
    p <- call (I2cMuxAlloc MAXIM2C_LINK_ID_MAX) ;;
    let maxim2c := set_i2c_mux maxim2c (set_muxc (i2c_mux maxim2c) (ret p)) in
    if ret p =? 0 then pure (- ENOMEM, maxim2c)
    else
      e <- add_adapters
             (map Z.of_nat (seq 0 (Z.to_nat MAXIM2C_LINK_ID_MAX))) ;;
      if negb (e =? 0)
      then call I2cMuxDelAdapters ;;; pure (e, maxim2c)
      else
        let i2c_mux_mask := maxim2c_i2c_mux_mask maxim2c in
        pure (0, set_i2c_mux maxim2c
                   (set_i2c_mux_mask (i2c_mux maxim2c) i2c_mux_mask)).

Definition maxim2c_i2c_mux_deinit (maxim2c : maxim2c_t)
  : M (Z * maxim2c_t) :=
  (if negb (muxc (i2c_mux maxim2c) =? 0)
   then call I2cMuxDelAdapters ;;; pure tt
   else pure tt) ;;;
  let x := set_i2c_mux_mask (i2c_mux maxim2c) 0 in
  let x := set_mux_disable x false in
  let x := set_mux_channel x (u32 (-1)) in
  pure (0, set_i2c_mux maxim2c x).

End Driver.

(** ** Loading an init sequence from the device tree *)

(** The device-tree node of an init sequence, as far as the loader reads it:
    whether [of_device_is_available] holds, the bytes of the "init-sequence"
    property and the [u32] properties "seq-item-size", "reg-addr-len" and
    "reg-val-len"; a property the node does not have is [None]. The length
    [of_get_property] reports is the number of bytes of the property, an
    [int] that is not negative. *)
Record init_seq_node := {
  node_available : bool;
  init_sequence : option (list Z);
  prop_seq_item_size : option Z;
  prop_reg_addr_len : option Z;
  prop_reg_val_len : option Z
}.

Definition set_seq_item_size (s : maxim2c_i2c_init_seq) (v : Z)
  : maxim2c_i2c_init_seq :=
  {| reg_init_seq := reg_init_seq s; reg_seq_size := reg_seq_size s;
     seq_item_size := v; seq_reg_len := seq_reg_len s;
     seq_val_len := seq_val_len s |}.

Definition set_seq_reg_len (s : maxim2c_i2c_init_seq) (v : Z)
  : maxim2c_i2c_init_seq :=
  {| reg_init_seq := reg_init_seq s; reg_seq_size := reg_seq_size s;
     seq_item_size := seq_item_size s; seq_reg_len := v;
     seq_val_len := seq_val_len s |}.

Definition set_seq_val_len (s : maxim2c_i2c_init_seq) (v : Z)
  : maxim2c_i2c_init_seq :=
  {| reg_init_seq := reg_init_seq s; reg_seq_size := reg_seq_size s;
     seq_item_size := seq_item_size s; seq_reg_len := seq_reg_len s;
     seq_val_len := v |}.

(** [node] and [init_seq] are [None] when NULL. Returns the code and
    [*init_seq] afterwards, or [None] when the decoder it calls leaves its
    buffers. *)
Definition maxim2c_i2c_load_init_seq (host : host_model)
  (MAXIM2C_REG_NULL : Z) (node : option init_seq_node)
  (init_seq : option maxim2c_i2c_init_seq)
  : M (option (Z * option maxim2c_i2c_init_seq)) :=
  match node, init_seq with
  | Some node, Some s =>
      let s := set_reg_init_seq s None in
      let s := set_reg_seq_size s 0 in
      if negb (node_available node) then pure (Some (0, Some s))
      else
        match init_sequence node with
        | None => pure (Some (- EINVAL, Some s))
        | Some init_seq_data =>
            let seq_data_len := Z.of_nat (length init_seq_data) in
            if seq_data_len =? 0 then pure (Some (- EINVAL, Some s))
            else
              match prop_seq_item_size node with
              | None => pure (Some (- EINVAL, Some s))
              | Some value =>
                  let s := set_seq_item_size s value in
                  match prop_reg_addr_len node with
                  | None => pure (Some (- EINVAL, Some s))
                  | Some value =>
                      let s := set_seq_reg_len s value in
                      match prop_reg_val_len node with
                      | None => pure (Some (- EINVAL, Some s))
                      | Some value =>
                          let s := set_seq_val_len s value in
                          maxim2c_i2c_parse_init_seq host MAXIM2C_REG_NULL
                            (Some init_seq_data) seq_data_len (Some s)
                      end
                  end
              end
        end
  | _, _ => pure (Some (- EINVAL, init_seq))
  end.

(** ** A simulated deserializer

    A host to run the driver against: a device whose registers keep the last
    value bytes sent to them (0 before any write), on a bus where every
    transfer succeeds unless the first byte sent is [bad]. *)

Definition byte_eqb (x y : option Z) : bool :=
  match x, y with
  | Some a, Some b => a =? b
  | None, None => true
  | _, _ => false
  end.

Fixpoint bytes_eqb (xs ys : list (option Z)) : bool :=
  match xs, ys with
  | [], [] => true
  | x :: xs', y :: ys' => byte_eqb x y && bytes_eqb xs' ys'
  | _, _ => false
  end.

Definition known (b : option Z) : Z :=
  match b with
  | Some v => v
  | None => 0
  end.

(** The value bytes last sent to the register at [reg_bytes] of device [a]. *)
Fixpoint sim_register (w : world) (a : Z) (reg_bytes : list (option Z))
  : list Z :=
  match w with
  | [] => []
  | I2cMasterSend a' bytes :: w' =>
      if (a' =? a) && bytes_eqb (firstn (length reg_bytes) bytes) reg_bytes
      then map known (skipn (length reg_bytes) bytes)
      else sim_register w' a reg_bytes
  | _ :: w' => sim_register w' a reg_bytes
  end.

Definition sim_host (bad : option Z) : host_model :=
  fun w r =>
    match r with
    | I2cMasterSend a bytes =>
        if byte_eqb (hd None bytes) bad && negb (byte_eqb bad None)
        then {| ret := -6; data := [] |}
        else {| ret := Z.of_nat (length bytes); data := [] |}
    | I2cTransfer a reg_bytes rd_len =>
        if byte_eqb (hd None reg_bytes) bad && negb (byte_eqb bad None)
        then {| ret := -6; data := [] |}
        else {| ret := 2; data := sim_register w a reg_bytes |}
    | UsleepRange _ _ => {| ret := 0; data := [] |}
    | LinkSelectRemoteControl _ => {| ret := 0; data := [] |}
    | DevmKmemdup _ => {| ret := 1; data := [] |}
    | DevmKcalloc _ => {| ret := 1; data := [] |}
    | I2cCheckFunctionality => {| ret := 1; data := [] |}
    | I2cMuxAlloc _ => {| ret := 1; data := [] |}
    | I2cMuxAddAdapter _ => {| ret := 0; data := [] |}
    | I2cMuxDelAdapters => {| ret := 0; data := [] |}
    end.

Definition des : i2c_client := {| addr := 72 |}.

(** ** Faults and sample nodes *)

(** The simulated deserializer with faults: [fault] gives the code of the
    calls that go wrong. *)
Definition faulty_host (fault : request -> option Z) : host_model :=
  fun w r =>
    match fault r with
    | Some code => {| ret := code; data := [] |}
    | None => sim_host None w r
    end.

Definition kmemdup_fails (r : request) : option Z :=
  match r with
  | DevmKmemdup _ => Some 0
  | _ => None
  end.

Definition kcalloc_fails (r : request) : option Z :=
  match r with
  | DevmKcalloc _ => Some 0
  | _ => None
  end.

Definition check_fails (r : request) : option Z :=
  match r with
  | I2cCheckFunctionality => Some 0
  | _ => None
  end.

Definition mux_alloc_fails (r : request) : option Z :=
  match r with
  | I2cMuxAlloc _ => Some 0
  | _ => None
  end.

(** Adding the adapter of channel [chan] fails with [-EBUSY]. *)
Definition adapter_fails (chan : Z) (r : request) : option Z :=
  match r with
  | I2cMuxAddAdapter i => if i =? chan then Some (-16) else None
  | _ => None
  end.

(** The link layer fails with [-EIO]. *)
Definition link_fails (r : request) : option Z :=
  match r with
  | LinkSelectRemoteControl _ => Some (-5)
  | _ => None
  end.

(** A device-tree node with the five-byte items of a sequence. *)
Definition init_seq_node_5 (available : bool) (bytes : option (list Z))
  : init_seq_node :=
  {| node_available := available; init_sequence := bytes;
     prop_seq_item_size := Some 5; prop_reg_addr_len := Some 2;
     prop_reg_val_len := Some 1 |}.

(** ** Statements of the properties *)

(** The entries of a register list all succeed when applied one after the
    other from world [w], which leaves world [w']. *)
Inductive all_succeed (host : host_model) (c : i2c_client)
  : list maxim2c_i2c_regval -> world -> world -> Prop :=
| all_succeed_nil (w : world) : all_succeed host c [] w w
| all_succeed_cons (r : maxim2c_i2c_regval) (rest : list maxim2c_i2c_regval)
    (w w1 w2 : world) :
    write_array_entry host c r w = (0, w1) ->
    all_succeed host c rest w1 w2 ->
    all_succeed host c (r :: rest) w w2.

(** The bytes [d8[0]] to [d8[len - 1]] of a buffer that holds them. *)
Definition bytes_at (data_buf : list Z) (d8 len : Z) : list Z :=
  map (fun k => nth (Z.to_nat (d8 + Z.of_nat k)) data_buf 0)
    (seq 0 (Z.to_nat len)).

(** What one turn of the decoding loop reads at [d8], field by field, when
    the item lies inside the buffer. *)
Definition entry_at (s : maxim2c_i2c_init_seq) (data : list Z) (d8 : Z)
  : maxim2c_i2c_regval :=
  {| reg_len := u16 (seq_reg_len s);
     reg_addr := u16 (be_value (bytes_at data d8 (seq_reg_len s)));
     val_len := seq_val_len s;
     reg_val := be_value (bytes_at data (d8 + seq_reg_len s) (seq_val_len s));
     val_mask :=
       be_value (bytes_at data (d8 + seq_reg_len s + seq_val_len s)
                   (seq_val_len s));
     delay :=
       nth (Z.to_nat (d8 + seq_reg_len s + seq_val_len s + seq_val_len s))
         data 0
  |}.

(** The bytes a [switch] on [len] reads: [len] for 1 to 4, none for a length
    that matches no label. *)
Definition bytes_read (len : Z) : Z :=
  if (1 <=? len) && (len <=? 4) then len else 0.

(** The bytes one turn of the decoding loop reads. *)
Definition item_bytes_read (s : maxim2c_i2c_init_seq) : Z :=
  bytes_read (seq_reg_len s) + bytes_read (seq_val_len s) * 2 + 1.

(** Item [i] of a byte sequence made of items of [size] bytes. *)
Definition item (size : Z) (data : list Z) (i : nat) : list Z :=
  firstn (Z.to_nat size) (skipn (i * Z.to_nat size) data).

(** An item read as the format lays it out: [rl] bytes of big-endian
    register address (kept in the 16 bits of [reg_addr]), [vl] bytes of
    big-endian value, [vl] bytes of big-endian mask, one byte of delay. *)
Definition decoded_entry (rl vl : Z) (it : list Z) : maxim2c_i2c_regval :=
  {| reg_len := rl;
     reg_addr := u16 (be_value (firstn (Z.to_nat rl) it));
     val_len := vl;
     reg_val := be_value (firstn (Z.to_nat vl) (skipn (Z.to_nat rl) it));
     val_mask :=
       be_value (firstn (Z.to_nat vl) (skipn (Z.to_nat (rl + vl)) it));
     delay := nth (Z.to_nat (rl + vl * 2)) it 0 |}.

(** The entry that ends the array. *)
Definition end_entry (rl reg_null : Z) : maxim2c_i2c_regval :=
  {| reg_len := rl; reg_addr := reg_null; val_len := 0; reg_val := 0;
     val_mask := 0; delay := 0 |}.

(** The header of a sequence before it is parsed. *)
Definition init_seq_header (size rl vl : Z) : maxim2c_i2c_init_seq :=
  {| reg_init_seq := None; reg_seq_size := 0; seq_item_size := size;
     seq_reg_len := rl; seq_val_len := vl |}.

(** A setting of a one-byte register at a 16-bit address. *)
Definition regval8 (a v m d : Z) : maxim2c_i2c_regval :=
  {| reg_len := 2; reg_addr := a; val_len := 1; reg_val := v; val_mask := m;
     delay := d |}.

(** An entry that is not the end of the array. *)
Definition live_entry (reg_null : Z) (r : maxim2c_i2c_regval) : Prop :=
  reg_addr r <> reg_null.

(** The id the mux-mask loop works with for a child: its "reg" property, 0
    when it has none. *)
Definition child_id (node : device_node) : Z :=
  of_property_read_u32_reg node 0.

(** The OR of [BIT(id)] over the available children with an id below
    [link_id_max]. *)
Definition mask_of_children (link_id_max : Z) (children : list device_node)
  : Z :=
  fold_right (fun node acc => Z.lor (BIT (child_id node)) acc) 0
    (filter (fun node => available node && (child_id node <? link_id_max))
       children).

(** A probed device with both links in the device tree, no channel selected,
    and the same device once channel 1 is selected. *)
Definition maxim2c_idle : maxim2c_t :=
  {| client := des;
     i2c_mux := {| muxc := 1; i2c_mux_mask := 3; mux_channel := u32 (-1);
                   mux_disable := false |};
     of_i2c_mux := Some [ {| reg := Some 0; available := true |};
                          {| reg := Some 1; available := true |} ] |}.

Definition maxim2c_on_1 : maxim2c_t :=
  set_i2c_mux maxim2c_idle (set_mux_channel (i2c_mux maxim2c_idle) 1).

(** The last [n] bytes of a byte string. *)
Definition last_bytes (n : Z) (bs : list Z) : list Z :=
  skipn (length bs - Z.to_nat n) bs.

(** A [u8]. *)
Definition is_byte (b : Z) : Prop := 0 <= b < 256.

(** * Facts about integers and bytes *)

Lemma u8_land (z : Z) : u8 z = Z.land z (Z.ones 8).
Proof. unfold u8. now rewrite Z.land_ones by lia. Qed.

Lemma u16_land (z : Z) : u16 z = Z.land z (Z.ones 16).
Proof. unfold u16. now rewrite Z.land_ones by lia. Qed.

Lemma u32_land (z : Z) : u32 z = Z.land z (Z.ones 32).
Proof. unfold u32. now rewrite Z.land_ones by lia. Qed.

Lemma u8_range (z : Z) : 0 <= u8 z < 256.
Proof. unfold u8. change (2 ^ 8) with 256. apply Z.mod_pos_bound. lia. Qed.

Lemma u32_range (z : Z) : 0 <= u32 z < 2 ^ 32.
Proof. unfold u32. apply Z.mod_pos_bound. lia. Qed.

Lemma u8_small (z : Z) : 0 <= z < 256 -> u8 z = z.
Proof. intros H. unfold u8. apply Z.mod_small. exact H. Qed.

Lemma u16_small (z : Z) : 0 <= z < 2 ^ 16 -> u16 z = z.
Proof. intros H. unfold u16. apply Z.mod_small. exact H. Qed.

Lemma u32_small (z : Z) : 0 <= z < 2 ^ 32 -> u32 z = z.
Proof. intros H. unfold u32. apply Z.mod_small. exact H. Qed.

(** A value below [2 ^ n] has no bit at or above [n]. *)
Lemma testbit_high (n z i : Z) :
  0 <= n -> 0 <= z < 2 ^ n -> n <= i -> Z.testbit z i = false.
Proof.
  intros Hn Hz Hi.
  rewrite <- (Z.mod_small z (2 ^ n)) by exact Hz.
  apply Z.mod_pow2_bits_high. lia.
Qed.

(** Bit-level equations that hold at every index, so that rewriting with
    them leaves no side condition. *)
Lemma testbit_shiftl_all (a n i : Z) :
  0 <= n -> Z.testbit (Z.shiftl a n) i = (0 <=? i) && Z.testbit a (i - n).
Proof.
  intros Hn. destruct (Z.leb_spec 0 i).
  - now rewrite Z.shiftl_spec by lia.
  - now rewrite Z.testbit_neg_r by lia.
Qed.

Lemma testbit_shiftr_all (a n i : Z) :
  Z.testbit (Z.shiftr a n) i = (0 <=? i) && Z.testbit a (i + n).
Proof.
  destruct (Z.leb_spec 0 i).
  - now rewrite Z.shiftr_spec by lia.
  - now rewrite Z.testbit_neg_r by lia.
Qed.

Lemma testbit_mod_pow2_all (z k i : Z) :
  0 <= k -> Z.testbit (z mod 2 ^ k) i = (i <? k) && Z.testbit z i.
Proof.
  intros Hk. destruct (Z.ltb_spec i k).
  - destruct (Z.ltb_spec i 0).
    + now rewrite !Z.testbit_neg_r by lia.
    + now rewrite Z.mod_pow2_bits_low by lia.
  - now rewrite Z.mod_pow2_bits_high by lia.
Qed.

Ltac bits_rewrite :=
  repeat first
    [ rewrite Z.lor_spec
    | rewrite Z.land_spec
    | rewrite testbit_shiftl_all by lia
    | rewrite testbit_shiftr_all
    | rewrite testbit_mod_pow2_all by lia
    | rewrite Z.bits_0 ].

Ltac bits_cases :=
  repeat match goal with
    | |- context [?a <? ?b] => destruct (Z.ltb_spec a b); try lia
    | |- context [?a <=? ?b] => destruct (Z.leb_spec a b); try lia
    end.

Ltac bits_index :=
  repeat match goal with
    | |- context [Z.testbit _ ?e] => progress ring_simplify e
    end.

Ltac bits_neg :=
  repeat match goal with
    | |- context [Z.testbit ?x ?e] => rewrite (Z.testbit_neg_r x e) by lia
    end.

(** Equality of two integers built from bytes, shifts and masks, bit by bit. *)
Ltac bits :=
  apply Z.bits_inj'; intros ? ?; bits_rewrite; bits_cases; bits_neg; simpl;
  bits_index; try reflexivity; try btauto.

(** The big-endian encodings decode to the number, reduced to the width. *)
Lemma cpu_to_be16_value (x : Z) : be_value (cpu_to_be16 x) = u16 x.
Proof. unfold be_value, cpu_to_be16, be_value_from, u16, u8. bits. Qed.

Lemma cpu_to_be32_value (x : Z) : be_value (cpu_to_be32 x) = u32 x.
Proof. unfold be_value, cpu_to_be32, be_value_from, u32, u8. bits. Qed.

Lemma u8_land_255 (x : Z) : u8 (Z.land x 255) = u8 x.
Proof.
  rewrite (u8_land x). change 255 with (Z.ones 8). rewrite <- u8_land.
  apply u8_small, u8_range.
Qed.

Lemma land_in_range (n z m : Z) :
  0 <= n -> 0 <= z < 2 ^ n -> Z.land z (Z.land m (Z.ones n)) = Z.land z m.
Proof.
  intros Hn Hz.
  rewrite (Z.land_comm m), Z.land_assoc.
  rewrite Z.land_ones by exact Hn.
  now rewrite Z.mod_small by exact Hz.
Qed.

Lemma lor_range (n a b : Z) :
  0 <= n -> 0 <= a < 2 ^ n -> 0 <= b < 2 ^ n -> 0 <= Z.lor a b < 2 ^ n.
Proof.
  intros Hn Ha Hb. split.
  - apply Z.lor_nonneg. lia.
  - destruct (Z.eq_dec (Z.lor a b) 0) as [E | E].
    + rewrite E. apply Z.pow_pos_nonneg; lia.
    + apply Z.log2_lt_pow2.
      * assert (0 <= Z.lor a b) by (apply Z.lor_nonneg; lia). lia.
      * rewrite Z.log2_lor by lia.
        destruct (Z.eq_dec a 0) as [Ea | Ea];
          destruct (Z.eq_dec b 0) as [Eb | Eb]; subst;
          try (rewrite Z.lor_0_l in E); try (rewrite Z.lor_0_r in E);
          try congruence.
        -- rewrite Z.max_r by (simpl; apply Z.log2_nonneg).
           apply Z.log2_lt_pow2; lia.
        -- rewrite Z.max_l by (simpl; apply Z.log2_nonneg).
           apply Z.log2_lt_pow2; lia.
        -- apply Z.max_lub_lt; apply Z.log2_lt_pow2; lia.
Qed.

Lemma shiftl_byte_range (acc b n : Z) :
  0 <= n -> 0 <= acc < 2 ^ n -> 0 <= b < 256 ->
  0 <= Z.lor (Z.shiftl acc 8) b < 2 ^ (n + 8).
Proof.
  intros Hn Ha Hb.
  apply lor_range; try lia.
  - rewrite Z.shiftl_mul_pow2 by lia. rewrite Z.pow_add_r by lia. nia.
  - rewrite Z.pow_add_r by lia. change (2 ^ 8) with 256.
    assert (0 < 2 ^ n) by (apply Z.pow_pos_nonneg; lia). nia.
Qed.

Lemma be_value_from_range (bs : list Z) :
  forall acc n,
    0 <= n -> 0 <= acc < 2 ^ n -> Forall is_byte bs ->
    0 <= be_value_from acc bs < 2 ^ (n + 8 * Z.of_nat (length bs)).
Proof.
  induction bs as [| b bs IH]; intros acc n Hn Hacc Hbs; simpl be_value_from.
  - simpl length. replace (n + 8 * Z.of_nat 0) with n by lia. exact Hacc.
  - inversion Hbs as [| ? ? Hb Hbs']; subst.
    replace (n + 8 * Z.of_nat (length (b :: bs)))
      with ((n + 8) + 8 * Z.of_nat (length bs))
      by (simpl length; lia).
    apply IH; try lia; try assumption.
    apply shiftl_byte_range; assumption.
Qed.

Lemma fill_bytes_length (obj : list Z) (off len : Z) (bytes : list Z) :
  length (fill_bytes obj off len bytes) = length obj.
Proof. unfold fill_bytes. now rewrite length_map, length_seq. Qed.

Lemma fill_bytes_is_byte (obj : list Z) (off len : Z) (bytes : list Z) :
  Forall is_byte obj -> Forall is_byte (fill_bytes obj off len bytes).
Proof.
  intros Hobj. unfold fill_bytes.
  apply Forall_forall. intros x Hx.
  apply in_map_iff in Hx. destruct Hx as [k [Hk Hin]].
  apply in_seq in Hin.
  assert (Hnth : is_byte (nth k obj 0)).
  { rewrite Forall_forall in Hobj. apply Hobj. apply nth_In. lia. }
  subst x.
  destruct ((0 <=? Z.of_nat k - off) && (Z.of_nat k - off <? len)).
  - destruct (nth_error bytes (Z.to_nat (Z.of_nat k - off))).
    + apply u8_range.
    + exact Hnth.
  - exact Hnth.
Qed.

Lemma be32_to_cpu_range (bs : list Z) :
  Forall is_byte bs -> length bs = 4%nat -> 0 <= be32_to_cpu bs < 2 ^ 32.
Proof.
  intros Hb Hl. unfold be32_to_cpu, be_value.
  rewrite firstn_all2 by lia.
  pose proof (be_value_from_range bs 0 0 (Z.le_refl 0)) as H.
  rewrite Hl in H. apply H.
  - simpl. lia.
  - exact Hb.
Qed.

Lemma land_byte_l (v x : Z) : is_byte v -> 0 <= Z.land v x < 2 ^ 8.
Proof.
  intros Hv. rewrite <- (u8_small v) by exact Hv.
  rewrite u8_land, <- Z.land_assoc, (Z.land_comm (Z.ones 8) x), Z.land_assoc.
  rewrite <- u8_land. apply u8_range.
Qed.

Section DriverFacts.

Variable host : host_model.

(** What a successful read stores is a [u32]. *)
Lemma maxim2c_i2c_read_range c a rl vl w v w1 :
  maxim2c_i2c_read host c a rl vl w = (Ok v, w1) -> 0 <= v < 2 ^ 32.
Proof.
  unfold maxim2c_i2c_read, bind, call, pure.
  destruct ((4 <? vl) || (vl =? 0)); [discriminate |].
  destruct (ret _ =? 2); [| discriminate].
  intros H. inversion H; subst.
  apply be32_to_cpu_range.
  - apply fill_bytes_is_byte.
    repeat constructor; unfold is_byte; lia.
  - now rewrite fill_bytes_length.
Qed.

(** A read only succeeds for a value length of 1 to 4 bytes. *)
Lemma maxim2c_i2c_read_val_len c a rl vl w v w1 :
  maxim2c_i2c_read host c a rl vl w = (Ok v, w1) -> vl <= 4 /\ vl <> 0.
Proof.
  unfold maxim2c_i2c_read, bind, call, pure.
  destruct (4 <? vl) eqn:E1; [discriminate |].
  destruct (vl =? 0) eqn:E2; [discriminate |].
  intros _. split; lia.
Qed.

(** The merge of [maxim2c_i2c_update], in the [u32] of the code, is the
    merge over the integers when the old value is a [u32]. *)
Lemma merge_u32 (v m rv : Z) :
  0 <= v < 2 ^ 32 ->
  Z.lor (Z.land v (u32 (Z.lnot m))) (Z.land rv m)
  = Z.lor (Z.land v (Z.lnot m)) (Z.land rv m).
Proof.
  intros Hv. rewrite u32_land. now rewrite land_in_range by lia.
Qed.

(** The merge of [maxim2c_i2c_update_reg]: truncating after each
    assignment is truncating once. *)
Lemma merge_u8 (v m rv : Z) :
  u8 (Z.lor (u8 (Z.land v (Z.lnot m))) (Z.land rv m))
  = u8 (Z.lor (Z.land v (Z.lnot m)) (Z.land rv m)).
Proof.
  rewrite !u8_land.
  rewrite !Z.land_lor_distr_l.
  now rewrite <- (Z.land_assoc _ (Z.ones 8) (Z.ones 8)), Z.land_diag.
Qed.

(** Outside the mask the merged value has the bits of the old value, inside
    it those of the new one. *)
Lemma merge_bits (v m rv i : Z) :
  0 <= i ->
  Z.testbit (Z.lor (Z.land v (Z.lnot m)) (Z.land rv m)) i
  = if Z.testbit m i then Z.testbit rv i else Z.testbit v i.
Proof.
  intros Hi.
  rewrite Z.lor_spec, !Z.land_spec, Z.lnot_spec by exact Hi.
  destruct (Z.testbit m i), (Z.testbit v i), (Z.testbit rv i); reflexivity.
Qed.

(** The one message a write with a 1- or 2-byte address puts on the bus,
    and its return value. *)
Lemma maxim2c_i2c_write_message c reg_addr reg_len val_len reg_val w :
  reg_len = 1 \/ reg_len = 2 -> 0 <= val_len <= 4 ->
  maxim2c_i2c_write host c reg_addr reg_len val_len reg_val w
  = (let m := I2cMasterSend (addr c)
                (map Some (last_bytes reg_len (cpu_to_be16 reg_addr)
                           ++ last_bytes val_len (cpu_to_be32 reg_val))) in
     (if u32 (ret (host w m)) =? val_len + reg_len then 0 else - EIO,
      m :: w)).
Proof.
  intros Hr Hv.
  assert (Hc : val_len = 0 \/ val_len = 1 \/ val_len = 2
               \/ val_len = 3 \/ val_len = 4) by lia.
  unfold maxim2c_i2c_write, bind, call, pure, mem_slice, copy_value,
    last_bytes.
  destruct Hr as [-> | ->];
    destruct Hc as [-> | [-> | [-> | [-> | ->]]]];
    match goal with
    | |- context [u32 (?a + ?b)] =>
        let n := eval compute in (a + b) in
        change (u32 (a + b)) with n; change (a + b) with n
    end;
    simpl; unfold byte_at; simpl; rewrite ?u8_land_255;
    match goal with
    | |- context [if ?b then _ else _] => destruct b
    end; reflexivity.
Qed.

(** The one transfer a read of 1 to 4 bytes with an address of at most 2
    bytes puts on the bus, and what it returns. *)
Lemma maxim2c_i2c_read_message c reg_addr reg_len val_len w :
  0 <= reg_len <= 2 -> 1 <= val_len <= 4 ->
  maxim2c_i2c_read host c reg_addr reg_len val_len w
  = (let m := I2cTransfer (addr c)
                (map Some (last_bytes reg_len (cpu_to_be16 reg_addr)))
                val_len in
     (if ret (host w m) =? 2
      then Ok (be32_to_cpu (fill_bytes [0; 0; 0; 0] (4 - val_len) val_len
                              (data (host w m))))
      else Err (- EIO),
      m :: w)).
Proof.
  intros Hr Hv.
  assert (Hc : val_len = 1 \/ val_len = 2 \/ val_len = 3 \/ val_len = 4)
    by lia.
  assert (Hd : reg_len = 0 \/ reg_len = 1 \/ reg_len = 2) by lia.
  unfold maxim2c_i2c_read, bind, call, pure, mem_slice, last_bytes.
  destruct Hd as [-> | [-> | ->]];
    destruct Hc as [-> | [-> | [-> | ->]]];
    simpl; unfold byte_at; simpl;
    match goal with
    | |- context [if ?b then _ else _] => destruct b
    end; reflexivity.
Qed.

End DriverFacts.

(** * Facts about the register I/O *)

Lemma Forall_firstn {A : Type} (P : A -> Prop) (k : nat) (l : list A) :
  Forall P l -> Forall P (firstn k l).
Proof.
  intros H. rewrite <- (firstn_skipn k l) in H.
  apply Forall_app in H. apply H.
Qed.

Lemma Forall_skipn {A : Type} (P : A -> Prop) (k : nat) (l : list A) :
  Forall P l -> Forall P (skipn k l).
Proof.
  intros H. rewrite <- (firstn_skipn k l) in H.
  apply Forall_app in H. apply H.
Qed.

(** The last [n] bytes of the 32-bit encoding carry the low [n] bytes of the
    number. *)
Lemma last_bytes_be32_value (n v : Z) :
  0 <= n <= 4 ->
  be_value (last_bytes n (cpu_to_be32 v)) = v mod 2 ^ (8 * n).
Proof.
  intros Hn.
  assert (Hc : n = 0 \/ n = 1 \/ n = 2 \/ n = 3 \/ n = 4) by lia.
  destruct Hc as [-> | [-> | [-> | [-> | ->]]]];
    unfold last_bytes, cpu_to_be32, be_value; simpl skipn;
    unfold be_value_from, u8.
  - now rewrite Z.mod_1_r.
  - change (8 * 1) with 8. bits.
  - change (8 * 2) with 16. bits.
  - change (8 * 3) with 24. bits.
  - change (8 * 4) with 32. bits.
Qed.

Lemma fill_bytes_data_be (n : Z) (bs : list Z) :
  0 <= n <= 4 -> length bs = Z.to_nat n -> Forall is_byte bs ->
  be32_to_cpu (fill_bytes [0; 0; 0; 0] (4 - n) n bs) = be_value bs.
Proof.
  intros Hn Hl Hb.
  assert (Hc : n = 0 \/ n = 1 \/ n = 2 \/ n = 3 \/ n = 4) by lia.
  destruct Hc as [-> | [-> | [-> | [-> | ->]]]];
    repeat (destruct bs as [| ? bs]; try discriminate Hl);
    repeat match goal with
      | H : Forall is_byte (_ :: _) |- _ =>
          let Hx := fresh "Hx" in
          let Hr := fresh "Hr" in
          inversion H as [| ? ? Hx Hr]; subst; clear H
      end;
    unfold fill_bytes, be32_to_cpu, be_value; simpl;
    rewrite ?u8_small by assumption; reflexivity.
Qed.

Lemma last_bytes_be32_is_byte (n v : Z) :
  Forall is_byte (last_bytes n (cpu_to_be32 v)).
Proof.
  unfold last_bytes. apply Forall_skipn.
  unfold cpu_to_be32. repeat constructor; apply u8_range.
Qed.

Lemma last_bytes_be32_length (n v : Z) :
  0 <= n <= 4 -> length (last_bytes n (cpu_to_be32 v)) = Z.to_nat n.
Proof.
  intros Hn. unfold last_bytes. rewrite length_skipn. simpl length. lia.
Qed.

(** What the adapter leaves in [data_be]: zero bytes in front, then
    [val_len] bytes. *)
Lemma fill_bytes_shape (n : Z) (bytes : list Z) :
  1 <= n <= 4 ->
  exists bs,
    fill_bytes [0; 0; 0; 0] (4 - n) n bytes
    = repeat 0 (Z.to_nat (4 - n)) ++ bs
    /\ length bs = Z.to_nat n
    /\ Forall is_byte bs.
Proof.
  intros Hn.
  assert (Hz : is_byte 0) by (unfold is_byte; lia).
  assert (Hc : n = 1 \/ n = 2 \/ n = 3 \/ n = 4) by lia.
  destruct Hc as [-> | [-> | [-> | ->]]];
    destruct bytes as [| b0 [| b1 [| b2 [| b3 bytes]]]];
    unfold fill_bytes; simpl;
    repeat match goal with
      | |- context [Z.to_nat ?e] =>
          let k := eval vm_compute in (Z.to_nat e) in
          change (Z.to_nat e) with k
      end;
    simpl repeat; simpl app;
    eexists; (split; [reflexivity | split; [reflexivity |]]);
    repeat first [apply Forall_nil | apply Forall_cons];
    first [apply u8_range | exact Hz].
Qed.

Lemma be_value_leading_zeros (k : nat) (bs : list Z) :
  be_value (repeat 0 k ++ bs) = be_value bs.
Proof.
  unfold be_value. induction k as [| k IH]; [reflexivity |].
  simpl. exact IH.
Qed.

Section ReadFacts.

Variable host : host_model.

(** A successful read gives a number that fits its [val_len] bytes. *)
Lemma fill_bytes_fits (n : Z) (bytes : list Z) :
  1 <= n <= 4 ->
  0 <= be32_to_cpu (fill_bytes [0; 0; 0; 0] (4 - n) n bytes) < 2 ^ (8 * n).
Proof.
  intros Hn.
  destruct (fill_bytes_shape n bytes Hn) as (bs & E & Hl & Hb).
  unfold be32_to_cpu.
  rewrite firstn_all2 by (rewrite fill_bytes_length; simpl; lia).
  rewrite E, be_value_leading_zeros. unfold be_value.
  pose proof (be_value_from_range bs 0 0 (Z.le_refl 0)) as H.
  rewrite Hl in H. rewrite Z2Nat.id in H by lia.
  apply H; [simpl; lia | exact Hb].
Qed.

End ReadFacts.

Ltac is_nat_numeral n :=
  lazymatch n with
  | O => idtac
  | S ?m => is_nat_numeral m
  end.

(** Replaces [Z.to_nat e] by its value where [e] is a number. *)
Ltac eval_to_nat :=
  repeat match goal with
    | |- context [Z.to_nat ?e] =>
        let k := eval vm_compute in (Z.to_nat e) in
        is_nat_numeral k;
        progress change (Z.to_nat e) with k
    end.

Section IoFacts.

Variable host : host_model.

Lemma maxim2c_i2c_read_ok_inv c a rl vl w v w1 :
  0 <= vl ->
  maxim2c_i2c_read host c a rl vl w = (Ok v, w1) ->
  1 <= vl <= 4
  /\ w1 = I2cTransfer (addr c)
            (mem_slice (map Some (cpu_to_be16 a)) (2 - rl) rl) vl :: w
  /\ v = be32_to_cpu (fill_bytes [0; 0; 0; 0] (4 - vl) vl
                        (data (host w (I2cTransfer (addr c)
                                         (mem_slice (map Some (cpu_to_be16 a))
                                            (2 - rl) rl) vl)))).
Proof.
  intros H0. unfold maxim2c_i2c_read, bind, call, pure.
  destruct (Z.ltb_spec 4 vl); [discriminate |].
  destruct (Z.eqb_spec vl 0); [discriminate |].
  cbn [orb]. cbv beta iota zeta.
  match goal with
  | |- context [if ?b then _ else _] => destruct b
  end; [| discriminate].
  intros E. inversion E; subst. repeat split; lia.
Qed.

Lemma maxim2c_i2c_read_err_inv c a rl vl w e w1 :
  maxim2c_i2c_read host c a rl vl w = (Err e, w1) ->
  e = - EINVAL \/ e = - EIO.
Proof.
  unfold maxim2c_i2c_read, bind, call, pure.
  destruct ((4 <? vl) || (vl =? 0)).
  - intros H. inversion H. now left.
  - cbv beta iota zeta.
    match goal with
    | |- context [if ?b then _ else _] => destruct b
    end; intros H; inversion H. now right.
Qed.

Lemma u8_shiftr_mod (x k sh : Z) :
  0 <= sh -> sh + 8 <= k ->
  u8 (Z.shiftr (x mod 2 ^ k) sh) = u8 (Z.shiftr x sh).
Proof. intros Hs Hk. unfold u8. bits. Qed.

Lemma u8_mod (x k : Z) : 8 <= k -> u8 (x mod 2 ^ k) = u8 x.
Proof. intros Hk. unfold u8. bits. Qed.

Lemma last_bytes_be32_low (n x : Z) :
  0 <= n <= 4 ->
  last_bytes n (cpu_to_be32 (x mod 2 ^ (8 * n)))
  = last_bytes n (cpu_to_be32 x).
Proof.
  intros Hn.
  assert (Hc : n = 0 \/ n = 1 \/ n = 2 \/ n = 3 \/ n = 4) by lia.
  destruct Hc as [-> | [-> | [-> | [-> | ->]]]];
    unfold last_bytes, cpu_to_be32; eval_to_nat;
    cbn [length skipn Nat.sub]; try reflexivity;
    rewrite ?u8_shiftr_mod, ?u8_mod by lia; reflexivity.
Qed.

Lemma maxim2c_i2c_write_low_bytes c a rl vl x w :
  0 <= vl <= 4 ->
  maxim2c_i2c_write host c a rl vl (x mod 2 ^ (8 * vl)) w
  = maxim2c_i2c_write host c a rl vl x w.
Proof.
  intros Hv. unfold maxim2c_i2c_write, copy_value.
  pose proof (last_bytes_be32_low vl x Hv) as E.
  unfold last_bytes in E. simpl length in E.
  replace (Z.to_nat (4 - vl)) with (4 - Z.to_nat vl)%nat by lia.
  now rewrite E.
Qed.

Lemma maxim2c_i2c_write_codes c a rl vl x w :
  fst (maxim2c_i2c_write host c a rl vl x w) = 0
  \/ fst (maxim2c_i2c_write host c a rl vl x w) = - EINVAL
  \/ fst (maxim2c_i2c_write host c a rl vl x w) = - EIO.
Proof.
  unfold maxim2c_i2c_write, bind, call, pure.
  destruct (4 <? vl); [cbn [fst]; tauto |].
  destruct (if rl =? 2 then _ else _) as [buf buf_i].
  destruct (copy_value _ _ _ _) as [buf' k].
  match goal with
  | |- context [if ?b then _ else _] => destruct b
  end; cbn [fst]; tauto.
Qed.

Lemma maxim2c_i2c_read_fits c a rl vl w v w1 :
  0 <= vl ->
  maxim2c_i2c_read host c a rl vl w = (Ok v, w1) ->
  0 <= v < 2 ^ (8 * vl).
Proof.
  intros H0 H.
  destruct (maxim2c_i2c_read_ok_inv c a rl vl w v w1 H0 H)
    as (Hv & _ & Hval).
  rewrite Hval. apply fill_bytes_fits. exact Hv.
Qed.

End IoFacts.

(** A value of [n] bits keeps to [n] bits under a mask. *)
Lemma land_range_l (n v x : Z) :
  0 <= n -> 0 <= v < 2 ^ n -> 0 <= Z.land v x < 2 ^ n.
Proof.
  intros Hn Hv.
  rewrite <- (Z.mod_small v (2 ^ n)) by exact Hv.
  rewrite <- Z.land_ones by exact Hn.
  rewrite <- Z.land_assoc, (Z.land_comm (Z.ones n) x), Z.land_assoc.
  rewrite Z.land_ones by exact Hn.
  apply Z.mod_pos_bound. apply Z.pow_pos_nonneg; lia.
Qed.

(** * Read / modify / write *)

(** C1. [maxim2c_i2c_update] is a read/modify/write. When its read returns
    the old value [v], it goes on as [maxim2c_i2c_write] of
    [(v AND NOT val_mask) OR (reg_val AND val_mask)] does, whatever the
    address, its length, the mask and the new value are, and every bit of
    that merge outside [val_mask] is the bit of [v]. On the bus, for the
    address lengths 1 and 2 that the write path encodes: the one request
    after the read is a send of the address bytes followed by the [val_len]
    value bytes of the merge, and the update returns 0 when the adapter
    takes them all; the value written back is the merge in its [val_len]
    bytes (the merge itself when [val_mask] fits them), and each of its bits
    outside [val_mask] is the bit of [v]. The 8-bit
    [maxim2c_i2c_update_reg] does the same from the byte that
    [maxim2c_i2c_read_reg] stored, through [maxim2c_i2c_write_reg]: with a
    one-byte value it sends the address bytes and the one byte of the
    merge. *)
Theorem update_read_modify_write (host : host_model) (A16 V08 : Z)
  (big_endian : bool) :
  (forall c reg_addr reg_len val_len val_mask reg_val w v w1,
      maxim2c_i2c_read host c reg_addr reg_len val_len w = (Ok v, w1) ->
      let merged :=
        Z.lor (Z.land v (Z.lnot val_mask)) (Z.land reg_val val_mask) in
      let written := last_bytes val_len (cpu_to_be32 merged) in
      let sent :=
        I2cMasterSend (addr c)
          (map Some (last_bytes reg_len (cpu_to_be16 reg_addr) ++ written))
      in
      maxim2c_i2c_update host c reg_addr reg_len val_len val_mask reg_val w
      = maxim2c_i2c_write host c reg_addr reg_len val_len merged w1
      /\ (forall i, 0 <= i -> Z.testbit val_mask i = false ->
            Z.testbit merged i = Z.testbit v i)
      /\ (reg_len = 1 \/ reg_len = 2 -> 0 <= val_len ->
          maxim2c_i2c_update host c reg_addr reg_len val_len val_mask
            reg_val w
          = (if u32 (ret (host w1 sent)) =? val_len + reg_len
             then 0 else - EIO,
             sent :: w1)
          /\ be_value written = merged mod 2 ^ (8 * val_len)
          /\ (0 <= val_mask < 2 ^ (8 * val_len) -> be_value written = merged)
          /\ forall i, 0 <= i < 8 * val_len ->
               Z.testbit val_mask i = false ->
               Z.testbit (be_value written) i = Z.testbit v i))
  /\
  (forall c reg_addr val_mask reg_val w v w1,
      maxim2c_i2c_read_reg host A16 V08 big_endian c reg_addr w
      = ((0, v), w1) ->
      let merged :=
        u8 (Z.lor (Z.land v (Z.lnot val_mask)) (Z.land reg_val val_mask)) in
      let sent :=
        I2cMasterSend (addr c)
          (map Some (last_bytes A16 (cpu_to_be16 reg_addr) ++ [merged])) in
      maxim2c_i2c_update_reg host A16 V08 big_endian c reg_addr
        val_mask reg_val w
      = maxim2c_i2c_write_reg host A16 V08 c reg_addr merged w1
      /\ (forall i, 0 <= i < 8 -> Z.testbit val_mask i = false ->
            Z.testbit merged i = Z.testbit v i)
      /\ (is_byte val_mask ->
          merged
          = Z.lor (Z.land v (Z.lnot val_mask)) (Z.land reg_val val_mask))
      /\ (A16 = 1 \/ A16 = 2 -> V08 = 1 ->
          maxim2c_i2c_update_reg host A16 V08 big_endian c reg_addr
            val_mask reg_val w
          = (if u32 (ret (host w1 sent)) =? 1 + A16 then 0 else - EIO,
             sent :: w1))).
Proof.
  split.
  - intros c reg_addr reg_len val_len val_mask reg_val w v w1 Hread.
    cbv zeta.
    pose proof (maxim2c_i2c_read_range host c reg_addr reg_len val_len w v
                  w1 Hread) as Hrange.
    assert (Hupd :
      maxim2c_i2c_update host c reg_addr reg_len val_len val_mask reg_val w
      = maxim2c_i2c_write host c reg_addr reg_len val_len
          (Z.lor (Z.land v (Z.lnot val_mask)) (Z.land reg_val val_mask))
          w1).
    { unfold maxim2c_i2c_update, bind. rewrite Hread.
      now rewrite merge_u32 by exact Hrange. }
    split; [exact Hupd | split].
    + intros i Hi Hm. rewrite merge_bits by exact Hi. now rewrite Hm.
    + intros Hr H0.
      destruct (maxim2c_i2c_read_ok_inv host c reg_addr reg_len val_len w v
                  w1 H0 Hread) as (Hv & _ & _).
      pose proof (maxim2c_i2c_read_fits host c reg_addr reg_len val_len w v
                    w1 H0 Hread) as Hfits.
      rewrite last_bytes_be32_value by lia.
      split; [| split; [| split]].
      * rewrite Hupd.
        now rewrite maxim2c_i2c_write_message by (assumption || lia).
      * reflexivity.
      * intros Hmask. apply Z.mod_small.
        apply lor_range; [lia | | ].
        -- apply land_range_l; [lia | exact Hfits].
        -- rewrite Z.land_comm. apply land_range_l; [lia | exact Hmask].
      * intros i Hi Hm.
        rewrite Z.mod_pow2_bits_low by lia.
        rewrite merge_bits by lia. now rewrite Hm.
  - intros c reg_addr val_mask reg_val w v w1 Hread.
    cbv zeta.
    assert (Hv : is_byte v).
    { revert Hread. unfold maxim2c_i2c_read_reg, bind, pure.
      destruct (maxim2c_i2c_read host c reg_addr A16 V08 w) as [r w'].
      assert (Hb : forall x, is_byte (hd 0 (u32_in_memory big_endian x))).
      { intros x. unfold u32_in_memory, cpu_to_be32.
        destruct big_endian; simpl; apply u8_range. }
      destruct r; intros H; inversion H; subst; apply Hb. }
    assert (Hupd :
      maxim2c_i2c_update_reg host A16 V08 big_endian c reg_addr val_mask
        reg_val w
      = maxim2c_i2c_write_reg host A16 V08 c reg_addr
          (u8 (Z.lor (Z.land v (Z.lnot val_mask)) (Z.land reg_val val_mask)))
          w1).
    { unfold maxim2c_i2c_update_reg, bind. rewrite Hread.
      cbn [negb Z.eqb]. now rewrite merge_u8. }
    split; [exact Hupd | split; [| split]].
    + intros i Hi Hm. unfold u8.
      rewrite Z.mod_pow2_bits_low by lia.
      rewrite merge_bits by lia. now rewrite Hm.
    + intros Hmask. apply u8_small.
      apply (lor_range 8); try lia.
      * apply land_byte_l. exact Hv.
      * rewrite Z.land_comm. apply land_byte_l. exact Hmask.
    + intros HA HV. rewrite Hupd. subst V08.
      unfold maxim2c_i2c_write_reg.
      rewrite maxim2c_i2c_write_message by (assumption || lia).
      cbv zeta.
      replace (last_bytes 1
                 (cpu_to_be32
                    (u8 (Z.lor (Z.land v (Z.lnot val_mask))
                           (Z.land reg_val val_mask)))))
        with [u8 (Z.lor (Z.land v (Z.lnot val_mask))
                    (Z.land reg_val val_mask))].
      * reflexivity.
      * unfold last_bytes, cpu_to_be32. simpl skipn.
        f_equal. unfold u8. now rewrite Z.mod_mod by lia.
Qed.

(** Register 0x0313 holds 0x3C; updating it with mask 0x0F and value 0xA5
    sends the address and 0x35, through either entry point. *)
Lemma update_read_modify_write_witness :
  maxim2c_i2c_update (sim_host None) des 787 2 1 15 165
    [I2cMasterSend 72 [Some 3; Some 19; Some 60]]
  = (0, [I2cMasterSend 72 [Some 3; Some 19; Some 53];
         I2cTransfer 72 [Some 3; Some 19] 1;
         I2cMasterSend 72 [Some 3; Some 19; Some 60]])
  /\ maxim2c_i2c_update_reg (sim_host None) 2 1 false des 787 15 165
       [I2cMasterSend 72 [Some 3; Some 19; Some 60]]
     = (0, [I2cMasterSend 72 [Some 3; Some 19; Some 53];
            I2cTransfer 72 [Some 3; Some 19] 1;
            I2cMasterSend 72 [Some 3; Some 19; Some 60]]).
Proof.
  pose (w := [I2cMasterSend 72 [Some 3; Some 19; Some 60]]).
  pose (w1 := I2cTransfer 72 [Some 3; Some 19] 1 :: w).
  split.
  - exact (proj1 (proj2 (proj2
             (proj1 (update_read_modify_write (sim_host None) 2 1 false)
                des 787 2 1 15 165 w 60 w1 eq_refl))
             (or_intror eq_refl) ltac:(lia))).
  - exact (proj2 (proj2 (proj2
             (proj2 (update_read_modify_write (sim_host None) 2 1 false)
                des 787 15 165 w 60 w1 eq_refl)))
             (or_intror eq_refl) eq_refl).
Defined.

(** * Byte order on the wire *)

(** C2. Register addressing on the wire is big-endian. A write with a 1- or
    2-byte address and up to 4 value bytes hands [i2c_master_send] the last
    [reg_len] bytes of the big-endian 16-bit encoding of [reg_addr] (high
    byte then low byte for 2, the low byte alone for 1) followed by the last
    [val_len] bytes of the big-endian 32-bit encoding of [reg_val]; the
    address message of a read is the last [reg_len] bytes of the big-endian
    16-bit encoding of [reg_addr]. *)
Theorem big_endian_register_addressing (host : host_model) (c : i2c_client)
  (reg_addr reg_val : Z) (w : world) :
  (forall reg_len val_len,
      reg_len = 1 \/ reg_len = 2 -> 0 <= val_len <= 4 ->
      snd (maxim2c_i2c_write host c reg_addr reg_len val_len reg_val w)
      = I2cMasterSend (addr c)
          (map Some (last_bytes reg_len (cpu_to_be16 reg_addr)
                     ++ last_bytes val_len (cpu_to_be32 reg_val))) :: w)
  /\ (forall reg_len val_len,
         0 <= reg_len <= 2 -> 1 <= val_len <= 4 ->
         snd (maxim2c_i2c_read host c reg_addr reg_len val_len w)
         = I2cTransfer (addr c)
             (map Some (last_bytes reg_len (cpu_to_be16 reg_addr)))
             val_len :: w)
  /\ last_bytes 2 (cpu_to_be16 reg_addr)
     = [u8 (Z.shiftr reg_addr 8); u8 reg_addr]
  /\ last_bytes 1 (cpu_to_be16 reg_addr) = [u8 reg_addr]
  /\ be_value (cpu_to_be16 reg_addr) = u16 reg_addr
  /\ be_value (cpu_to_be32 reg_val) = u32 reg_val.
Proof.
  repeat split.
  - intros reg_len val_len Hr Hv.
    now rewrite maxim2c_i2c_write_message by assumption.
  - intros reg_len val_len Hr Hv.
    now rewrite maxim2c_i2c_read_message by assumption.
  - apply cpu_to_be16_value.
  - apply cpu_to_be32_value.
Qed.

(** Address 0x1234 and value 0xAABBCCDD on the wire. *)
Lemma big_endian_register_addressing_witness :
  snd (maxim2c_i2c_write (sim_host None) des 4660 2 3 2864434397 [])
  = [I2cMasterSend 72 [Some 18; Some 52; Some 187; Some 204; Some 221]]
  /\ snd (maxim2c_i2c_read (sim_host None) des 4660 1 2 [])
     = [I2cTransfer 72 [Some 52] 2].
Proof.
  pose proof (big_endian_register_addressing (sim_host None) des
                4660 2864434397 []) as [Hw [Hr _]].
  split.
  - apply (Hw 2 3); [right; reflexivity | lia].
  - apply (Hr 1 2); lia.
Defined.

(** * Validation of the value width *)

(** C8. The two entry points validate [val_len] differently.
    [maxim2c_i2c_read] returns [-EINVAL], without touching the bus, for
    every [val_len] that is 0 or above 4. [maxim2c_i2c_write] returns
    [-EINVAL] exactly when [val_len] is above 4; with [val_len = 0] it goes
    to the bus and sends the address bytes alone. *)
Theorem val_len_validation_is_asymmetric (host : host_model)
  (c : i2c_client) (reg_addr reg_len reg_val : Z) (w : world) :
  (forall val_len,
      val_len = 0 \/ 4 < val_len ->
      maxim2c_i2c_read host c reg_addr reg_len val_len w
      = (Err (- EINVAL), w))
  /\ (forall val_len,
         fst (maxim2c_i2c_write host c reg_addr reg_len val_len reg_val w)
         = - EINVAL <-> 4 < val_len)
  /\ (forall val_len,
         4 < val_len ->
         maxim2c_i2c_write host c reg_addr reg_len val_len reg_val w
         = (- EINVAL, w))
  /\ (reg_len = 1 \/ reg_len = 2 ->
      maxim2c_i2c_write host c reg_addr reg_len 0 reg_val w
      = (if u32 (ret (host w
                        (I2cMasterSend (addr c)
                           (map Some
                              (last_bytes reg_len (cpu_to_be16 reg_addr))))))
            =? reg_len
         then 0 else - EIO,
         I2cMasterSend (addr c)
           (map Some (last_bytes reg_len (cpu_to_be16 reg_addr))) :: w)).
Proof.
  split; [| split; [| split]].
  - intros val_len H. unfold maxim2c_i2c_read.
    assert (E : (4 <? val_len) || (val_len =? 0) = true).
    { apply orb_true_iff. destruct H; [right | left]; lia. }
    now rewrite E.
  - intros val_len. unfold maxim2c_i2c_write, bind, call, pure.
    destruct (Z.ltb_spec 4 val_len) as [H | H].
    + simpl. split; [intros _; exact H | reflexivity].
    + split; [| lia].
      destruct (if reg_len =? 2 then _ else _) as [buf buf_i].
      destruct (copy_value _ _ _ _) as [buf' n].
      destruct (_ =? _); simpl; unfold EINVAL, EIO; lia.
  - intros val_len H. unfold maxim2c_i2c_write.
    destruct (Z.ltb_spec 4 val_len); [reflexivity | lia].
  - intros Hr.
    rewrite maxim2c_i2c_write_message by (assumption || lia).
    unfold last_bytes at 2. simpl skipn. rewrite app_nil_r. reflexivity.
Qed.

(** The two entry points on value lengths 0 and 5. *)
Lemma val_len_validation_is_asymmetric_witness :
  maxim2c_i2c_read (sim_host None) des 787 2 0 [] = (Err (-22), [])
  /\ maxim2c_i2c_read (sim_host None) des 787 2 5 [] = (Err (-22), [])
  /\ maxim2c_i2c_write (sim_host None) des 787 2 5 60 [] = (-22, [])
  /\ maxim2c_i2c_write (sim_host None) des 787 2 0 60 []
     = (0, [I2cMasterSend 72 [Some 3; Some 19]]).
Proof.
  pose proof (val_len_validation_is_asymmetric (sim_host None) des 787 2 60 [])
    as [Hr [_ [Hw H0]]].
  split; [| split; [| split]].
  - apply (Hr 0). left. reflexivity.
  - apply (Hr 5). right. reflexivity.
  - apply (Hw 5). reflexivity.
  - apply H0. right. reflexivity.
Defined.

(** * The i2c mux *)

(** C9. On a mux in the disabled state both callbacks return 0 without
    calling the link layer and without changing [mux_channel] (or anything
    else of the device): a select on a disabled mux is reported as a
    success. *)
Theorem disabled_mux_reports_success (host : host_model) (m : maxim2c_t)
  (chan : Z) (w : world) :
  mux_disable (i2c_mux m) = true ->
  maxim2c_i2c_mux_select host m chan w = ((0, m), w)
  /\ maxim2c_i2c_mux_deselect host m chan w = ((0, m), w).
Proof.
  intros H. unfold maxim2c_i2c_mux_select, maxim2c_i2c_mux_deselect.
  rewrite H. split; reflexivity.
Qed.

(** A select on the disabled mux of the probed device. *)
Lemma disabled_mux_reports_success_witness :
  maxim2c_i2c_mux_select (sim_host None)
    (set_i2c_mux maxim2c_idle (set_mux_disable (i2c_mux maxim2c_idle) true))
    1 []
  = ((0, set_i2c_mux maxim2c_idle
           (set_mux_disable (i2c_mux maxim2c_idle) true)), []).
Proof.
  apply (disabled_mux_reports_success (sim_host None)
           (set_i2c_mux maxim2c_idle
              (set_mux_disable (i2c_mux maxim2c_idle) true)) 1 []).
  reflexivity.
Defined.

(** C7. The lifecycle operations leave a defined reset state. When
    [maxim2c_i2c_mux_enable] returns 0, [mux_disable] is false and
    [mux_channel] is -1 (as a [u32]). [maxim2c_i2c_mux_deinit] always returns
    0 and leaves [i2c_mux_mask = 0], [mux_disable] false and
    [mux_channel] -1. *)
Theorem mux_lifecycle_reset_state (host : host_model) (m : maxim2c_t)
  (def_mask : Z) (w : world) :
  (fst (fst (maxim2c_i2c_mux_enable host m def_mask w)) = 0 ->
   mux_disable
     (i2c_mux (snd (fst (maxim2c_i2c_mux_enable host m def_mask w)))) = false
   /\ mux_channel
        (i2c_mux (snd (fst (maxim2c_i2c_mux_enable host m def_mask w))))
      = u32 (-1))
  /\ fst (fst (maxim2c_i2c_mux_deinit host m w)) = 0
  /\ i2c_mux_mask (i2c_mux (snd (fst (maxim2c_i2c_mux_deinit host m w)))) = 0
  /\ mux_disable (i2c_mux (snd (fst (maxim2c_i2c_mux_deinit host m w))))
     = false
  /\ mux_channel (i2c_mux (snd (fst (maxim2c_i2c_mux_deinit host m w))))
     = u32 (-1).
Proof.
  split.
  - unfold maxim2c_i2c_mux_enable, bind, call, pure.
    destruct (ret _ =? 0) eqn:E; simpl.
    + intros _. split; reflexivity.
    + intros H. rewrite H in E. discriminate.
  - unfold maxim2c_i2c_mux_deinit, bind, call, pure.
    destruct (negb _); simpl; repeat split.
Qed.

(** Enabling the mux that had channel 1 selected. *)
Lemma mux_lifecycle_reset_state_witness :
  mux_disable
    (i2c_mux (snd (fst (maxim2c_i2c_mux_enable (sim_host None)
                          maxim2c_on_1 3 [])))) = false
  /\ mux_channel
       (i2c_mux (snd (fst (maxim2c_i2c_mux_enable (sim_host None)
                             maxim2c_on_1 3 [])))) = 4294967295.
Proof.
  apply (proj1 (mux_lifecycle_reset_state (sim_host None) maxim2c_on_1 3 [])).
  reflexivity.
Defined.

(** C6, as stated, fails: the select callback remembers the channel it
    selected last. Selecting channel 1 on an enabled mux calls the link
    layer with [BIT(1)]; selecting channel 1 again returns 0 and calls
    nothing. *)
Lemma mux_select_skips_the_selected_channel :
  mux_disable (i2c_mux maxim2c_idle) = false
  /\ maxim2c_i2c_mux_select (sim_host None) maxim2c_idle 1 []
     = ((0, maxim2c_on_1), [LinkSelectRemoteControl 2])
  /\ mux_disable (i2c_mux maxim2c_on_1) = false
  /\ maxim2c_i2c_mux_select (sim_host None) maxim2c_on_1 1
       [LinkSelectRemoteControl 2]
     = ((0, maxim2c_on_1), [LinkSelectRemoteControl 2]).
Proof. repeat split. Qed.

(** C6, amended. On an enabled mux, a select of a channel other than the one
    recorded in [mux_channel] records the channel, calls the link layer with
    [BIT(chan)] and returns its code; a select of the recorded channel
    returns 0, calls nothing and changes nothing. *)
Theorem mux_select_on_channel_change (host : host_model) (m : maxim2c_t)
  (chan : Z) (w : world) :
  mux_disable (i2c_mux m) = false ->
  (mux_channel (i2c_mux m) <> chan ->
   maxim2c_i2c_mux_select host m chan w
   = ((ret (host w (LinkSelectRemoteControl (BIT chan))),
       set_i2c_mux m (set_mux_channel (i2c_mux m) chan)),
      LinkSelectRemoteControl (BIT chan) :: w))
  /\ (mux_channel (i2c_mux m) = chan ->
      maxim2c_i2c_mux_select host m chan w = ((0, m), w)).
Proof.
  intros Hen. unfold maxim2c_i2c_mux_select. rewrite Hen. split.
  - intros Hne. destruct (Z.eqb_spec (mux_channel (i2c_mux m)) chan).
    + contradiction.
    + reflexivity.
  - intros He. rewrite He, Z.eqb_refl. reflexivity.
Qed.

(** Selecting channel 0 while channel 1 is recorded. *)
Lemma mux_select_on_channel_change_witness :
  maxim2c_i2c_mux_select (sim_host None) maxim2c_on_1 0
    [LinkSelectRemoteControl 2]
  = ((0, set_i2c_mux maxim2c_on_1 (set_mux_channel (i2c_mux maxim2c_on_1) 0)),
     [LinkSelectRemoteControl 1; LinkSelectRemoteControl 2]).
Proof.
  apply (proj1 (mux_select_on_channel_change (sim_host None) maxim2c_on_1 0
                  [LinkSelectRemoteControl 2] eq_refl)).
  discriminate.
Defined.

(** An available child with an id below the limit sets its bit; any other
    child leaves the mask alone. *)
Lemma mux_mask_child_spec (link_id_max mask : Z) (node : device_node) :
  mux_mask_child link_id_max mask node
  = if available node && (child_id node <? link_id_max)
    then u32 (Z.lor mask (BIT (child_id node)))
    else mask.
Proof.
  unfold mux_mask_child, child_id.
  destruct (Z.leb_spec link_id_max (of_property_read_u32_reg node 0));
    destruct (Z.ltb_spec (of_property_read_u32_reg node 0) link_id_max);
    try lia; destruct (available node); reflexivity.
Qed.

Lemma BIT_range (id : Z) : id < 32 -> 0 <= BIT id < 2 ^ 32.
Proof.
  intros H. unfold BIT. destruct (Z.leb_spec 0 id).
  - rewrite Z.shiftl_1_l. split.
    + apply Z.pow_nonneg. lia.
    + apply Z.pow_lt_mono_r; lia.
  - rewrite Z.shiftl_1_l, Z.pow_neg_r by lia. lia.
Qed.

Lemma mask_of_children_range (link_id_max : Z) (children : list device_node) :
  link_id_max <= 32 -> 0 <= mask_of_children link_id_max children < 2 ^ 32.
Proof.
  intros Hmax. unfold mask_of_children.
  induction children as [| n l IH]; simpl.
  - lia.
  - destruct (available n && (child_id n <? link_id_max)) eqn:E; simpl.
    + apply andb_true_iff in E. destruct E as [_ E].
      apply (lor_range 32); [lia | | exact IH].
      apply BIT_range. apply Z.ltb_lt in E. lia.
    + exact IH.
Qed.

Lemma mux_mask_loop (link_id_max : Z) (children : list device_node) :
  link_id_max <= 32 ->
  forall mask,
    0 <= mask < 2 ^ 32 ->
    fold_left (mux_mask_child link_id_max) children mask
    = Z.lor mask (mask_of_children link_id_max children).
Proof.
  intros Hmax.
  induction children as [| n l IH]; intros mask Hmask; simpl fold_left.
  - unfold mask_of_children. simpl. now rewrite Z.lor_0_r.
  - rewrite mux_mask_child_spec. unfold mask_of_children. simpl filter.
    destruct (available n && (child_id n <? link_id_max)) eqn:E.
    + apply andb_true_iff in E. destruct E as [_ E].
      apply Z.ltb_lt in E.
      assert (Hb : 0 <= BIT (child_id n) < 2 ^ 32) by (apply BIT_range; lia).
      assert (Hr : 0 <= Z.lor mask (BIT (child_id n)) < 2 ^ 32)
        by (apply (lor_range 32); lia).
      rewrite u32_small by exact Hr.
      rewrite IH by exact Hr.
      simpl fold_right. fold (mask_of_children link_id_max l).
      now rewrite Z.lor_assoc.
    + rewrite IH by exact Hmask. reflexivity.
Qed.

(** C10. Without an "i2c-mux" node [maxim2c_i2c_mux_mask] returns [-EINVAL]
    as a [u32], which is 0xFFFFFFEA; [maxim2c_i2c_mux_init], once the
    functionality check, the allocation and the adapters went through, stores
    that value in [i2c_mux_mask] and returns 0 all the same. With the node,
    the result is the OR of [BIT(id)] over the available children with an id
    below [MAXIM2C_LINK_ID_MAX] (a limit within the 32 bits of the mask; a
    child without a "reg" property counts with id 0). *)
Theorem mux_mask_without_node_and_with (host : host_model)
  (link_id_max : Z) (m : maxim2c_t) (w : world) :
  (of_i2c_mux m = None ->
   maxim2c_i2c_mux_mask link_id_max m = 4294967274)
  /\ (forall w3,
         of_i2c_mux m = None ->
         ret (host w I2cCheckFunctionality) <> 0 ->
         ret (host (I2cCheckFunctionality :: w) (I2cMuxAlloc link_id_max))
         <> 0 ->
         add_adapters host
           (map Z.of_nat (seq 0 (Z.to_nat link_id_max)))
           (I2cMuxAlloc link_id_max :: I2cCheckFunctionality :: w)
         = (0, w3) ->
         fst (fst (maxim2c_i2c_mux_init host link_id_max m w)) = 0
         /\ i2c_mux_mask
              (i2c_mux (snd (fst (maxim2c_i2c_mux_init host link_id_max m w))))
            = 4294967274)
  /\ (forall children,
         of_i2c_mux m = Some children ->
         link_id_max <= 32 ->
         maxim2c_i2c_mux_mask link_id_max m
         = mask_of_children link_id_max children).
Proof.
  split; [| split].
  - intros H. unfold maxim2c_i2c_mux_mask. rewrite H. reflexivity.
  - intros w3 Hnone Hf Ha Hadd.
    unfold maxim2c_i2c_mux_init, bind, call, pure.
    destruct (Z.eqb_spec (ret (host w I2cCheckFunctionality)) 0) as [E | _];
      [contradiction |].
    destruct (Z.eqb_spec
                (ret (host (I2cCheckFunctionality :: w)
                        (I2cMuxAlloc link_id_max))) 0) as [E | _];
      [contradiction |].
    rewrite Hadd. simpl.
    unfold maxim2c_i2c_mux_mask. simpl. rewrite Hnone.
    split; reflexivity.
  - intros children H Hmax. unfold maxim2c_i2c_mux_mask. rewrite H.
    rewrite mux_mask_loop by lia. apply Z.lor_0_l.
Qed.

(** A device tree without the node, and one with three children of which
    only the one with id 1 counts. *)
Lemma mux_mask_without_node_and_with_witness :
  i2c_mux_mask
    (i2c_mux (snd (fst (maxim2c_i2c_mux_init (sim_host None) 2
                          {| client := des;
                             i2c_mux := i2c_mux maxim2c_idle;
                             of_i2c_mux := None |} []))))
  = 4294967274
  /\ maxim2c_i2c_mux_mask 2
       {| client := des;
          i2c_mux := i2c_mux maxim2c_idle;
          of_i2c_mux := Some [ {| reg := Some 1; available := true |};
                               {| reg := Some 0; available := false |};
                               {| reg := Some 5; available := true |} ] |}
     = 2.
Proof.
  split.
  - refine (proj2 (proj1 (proj2 (mux_mask_without_node_and_with
                                   (sim_host None) 2
                                   {| client := des;
                                      i2c_mux := i2c_mux maxim2c_idle;
                                      of_i2c_mux := None |} []))
                     [I2cMuxAddAdapter 1; I2cMuxAddAdapter 0;
                      I2cMuxAlloc 2; I2cCheckFunctionality]
                     eq_refl _ _ eq_refl)); simpl; discriminate.
  - apply (proj2 (proj2 (mux_mask_without_node_and_with (sim_host None) 2
                           {| client := des;
                              i2c_mux := i2c_mux maxim2c_idle;
                              of_i2c_mux :=
                                Some [ {| reg := Some 1; available := true |};
                                       {| reg := Some 0; available := false |};
                                       {| reg := Some 5; available := true |} ]
                           |} []))
             [ {| reg := Some 1; available := true |};
               {| reg := Some 0; available := false |};
               {| reg := Some 5; available := true |} ]).
    + reflexivity.
    + lia.
Defined.

(** * Register arrays *)

Section WriteArray.

Variable host : host_model.
Variable MAXIM2C_REG_NULL : Z.
Variable c : i2c_client.


(** Once an entry failed, the loop stops without looking at the array. *)
Lemma write_array_from_failed e regs w :
  e <> 0 ->
  write_array_from host MAXIM2C_REG_NULL c e regs w = (Some e, w).
Proof.
  intros He. destruct regs; simpl;
    destruct (Z.eqb_spec e 0); try contradiction; reflexivity.
Qed.

(** A live entry is applied and the loop goes on with its code. *)
Lemma write_array_from_live r regs w :
  live_entry MAXIM2C_REG_NULL r ->
  write_array_from host MAXIM2C_REG_NULL c 0 (r :: regs) w
  = (let (e, w1) := write_array_entry host c r w in
     write_array_from host MAXIM2C_REG_NULL c e regs w1).
Proof.
  intros Hr. simpl. unfold bind.
  destruct (Z.eqb_spec (reg_addr r) MAXIM2C_REG_NULL); [contradiction |].
  reflexivity.
Qed.

Lemma write_array_all_succeed pre term rest w w' :
  all_succeed host c pre w w' ->
  Forall (live_entry MAXIM2C_REG_NULL) pre ->
  reg_addr term = MAXIM2C_REG_NULL ->
  write_array_from host MAXIM2C_REG_NULL c 0 (pre ++ term :: rest) w
  = (Some 0, w').
Proof.
  intros Hall Hlive Hterm.
  induction Hall as [w | r tl w w1 w2 Hr _ IH].
  - simpl. rewrite Hterm, Z.eqb_refl. reflexivity.
  - inversion Hlive as [| x l Hx Hl]; subst x l.
    simpl app. rewrite write_array_from_live by assumption.
    rewrite Hr. apply IH. assumption.
Qed.

Lemma write_array_first_failure ok bad later e w w1 w2 :
  all_succeed host c ok w w1 ->
  write_array_entry host c bad w1 = (e, w2) ->
  e <> 0 ->
  Forall (live_entry MAXIM2C_REG_NULL) (ok ++ [bad]) ->
  write_array_from host MAXIM2C_REG_NULL c 0 (ok ++ bad :: later) w
  = (Some e, w2).
Proof.
  intros Hall Hbad He Hlive.
  induction Hall as [w | r tl w w1 w1' Hr _ IH].
  - simpl app in *. inversion Hlive as [| x l Hx Hl]; subst x l.
    rewrite write_array_from_live by assumption.
    rewrite Hbad. apply write_array_from_failed. exact He.
  - simpl app in *. inversion Hlive as [| x l Hx Hl]; subst x l.
    rewrite write_array_from_live by assumption.
    rewrite Hr. apply IH; assumption.
Qed.

(** Either every entry succeeds in turn, or there is a first one that
    fails. *)
Lemma all_succeed_or_first_failure entries :
  forall w,
    (exists w', all_succeed host c entries w w')
    \/ (exists ok bad later e w1 w2,
           entries = ok ++ bad :: later
           /\ all_succeed host c ok w w1
           /\ write_array_entry host c bad w1 = (e, w2)
           /\ e <> 0).
Proof.
  induction entries as [| r tl IH]; intros w.
  - left. exists w. constructor.
  - destruct (write_array_entry host c r w) as [e w1] eqn:Hr.
    destruct (Z.eq_dec e 0) as [-> | He].
    + destruct (IH w1) as [[w' Hall] | (ok & bad & later & e & wa & wb & H)].
      * left. exists w'. econstructor; eassumption.
      * right. destruct H as (Heq & Hall & Hbad & He).
        exists (r :: ok), bad, later, e, wa, wb.
        repeat split; try assumption.
        -- now rewrite Heq.
        -- econstructor; eassumption.
    + right. exists [], r, tl, e, w, w1.
      repeat split; try assumption. constructor.
Qed.

End WriteArray.

(** C5. [maxim2c_i2c_write_array] goes through the list strictly in order.
    For a list whose entries [pre] come before the first entry with
    [reg_addr = MAXIM2C_REG_NULL]: an entry is applied by
    [maxim2c_i2c_update] when its [val_mask] is non-zero and by
    [maxim2c_i2c_write] when it is zero, followed by [usleep_range] when its
    [delay] is non-zero; if every entry of [pre] succeeds in turn the result
    is 0 and the world is the one after the last of them; if [bad] is the
    first entry whose operation returns a non-zero [e], the result is [e]
    and the world is the one right after [bad], so that no later entry is
    applied; and one of the two is always the case. *)
Theorem write_array_in_order (host : host_model) (MAXIM2C_REG_NULL : Z)
  (c : i2c_client) (pre : list maxim2c_i2c_regval)
  (term : maxim2c_i2c_regval) (rest : list maxim2c_i2c_regval) (w : world) :
  Forall (live_entry MAXIM2C_REG_NULL) pre ->
  reg_addr term = MAXIM2C_REG_NULL ->
  (forall w',
      all_succeed host c pre w w' ->
      maxim2c_i2c_write_array host MAXIM2C_REG_NULL c (pre ++ term :: rest) w
      = (Some 0, w'))
  /\ (forall ok bad later e w1 w2,
         pre = ok ++ bad :: later ->
         all_succeed host c ok w w1 ->
         write_array_entry host c bad w1 = (e, w2) ->
         e <> 0 ->
         maxim2c_i2c_write_array host MAXIM2C_REG_NULL c
           (pre ++ term :: rest) w
         = (Some e, w2))
  /\ ((exists w', all_succeed host c pre w w')
      \/ (exists ok bad later e w1 w2,
             pre = ok ++ bad :: later
             /\ all_succeed host c ok w w1
             /\ write_array_entry host c bad w1 = (e, w2)
             /\ e <> 0))
  /\ (forall r w0,
         write_array_entry host c r w0
         = (let (e, w1) :=
              (if val_mask r =? 0
               then maxim2c_i2c_write host c (reg_addr r) (reg_len r)
                      (val_len r) (reg_val r)
               else maxim2c_i2c_update host c (reg_addr r) (reg_len r)
                      (val_len r) (val_mask r) (reg_val r)) w0 in
            (e, if delay r =? 0 then w1
                else UsleepRange (delay r * 1000) (delay r * 1000 + 100)
                       :: w1))).
Proof.
  intros Hlive Hterm. split; [| split; [| split]].
  - intros w' Hall. unfold maxim2c_i2c_write_array.
    eapply write_array_all_succeed; eassumption.
  - intros ok bad later e w1 w2 Heq Hall Hbad He.
    unfold maxim2c_i2c_write_array. subst pre.
    rewrite <- app_assoc. simpl app.
    eapply write_array_first_failure; try eassumption.
    apply Forall_app in Hlive. destruct Hlive as [Hok Hrest].
    apply Forall_app. split; [exact Hok |].
    inversion Hrest as [| x l Hx Hl]. repeat constructor. assumption.
  - apply all_succeed_or_first_failure.
  - intros r w0. unfold write_array_entry, bind, call, pure.
    destruct (val_mask r =? 0); simpl;
      match goal with
      | |- context [let (_, _) := ?m in _] => destruct m as [e w1]
      end;
      destruct (delay r =? 0); reflexivity.
Qed.

(** Four settings on a bus that rejects messages starting with byte 9: the
    third one fails and the fourth is never sent. *)
Lemma write_array_in_order_witness :
  maxim2c_i2c_write_array (sim_host (Some 9)) 65535 des
    ([regval8 787 96 0 0; regval8 16 5 15 2; regval8 2305 1 0 0;
      regval8 788 7 0 0] ++ [regval8 65535 0 0 0]) []
  = (Some (-5),
     [I2cMasterSend 72 [Some 9; Some 1; Some 1];
      UsleepRange 2000 2100;
      I2cMasterSend 72 [Some 0; Some 16; Some 5];
      I2cTransfer 72 [Some 0; Some 16] 1;
      I2cMasterSend 72 [Some 3; Some 19; Some 96]]).
Proof.
  assert (Hlive : Forall (live_entry 65535)
                    [regval8 787 96 0 0; regval8 16 5 15 2;
                     regval8 2305 1 0 0; regval8 788 7 0 0]).
  { repeat constructor; discriminate. }
  destruct (write_array_in_order (sim_host (Some 9)) 65535 des
              [regval8 787 96 0 0; regval8 16 5 15 2; regval8 2305 1 0 0;
               regval8 788 7 0 0]
              (regval8 65535 0 0 0) [] [] Hlive eq_refl)
    as [_ [Hfail _]].
  apply (Hfail [regval8 787 96 0 0; regval8 16 5 15 2]
           (regval8 2305 1 0 0) [regval8 788 7 0 0] (-5)
           [UsleepRange 2000 2100;
            I2cMasterSend 72 [Some 0; Some 16; Some 5];
            I2cTransfer 72 [Some 0; Some 16] 1;
            I2cMasterSend 72 [Some 3; Some 19; Some 96]]).
  - reflexivity.
  - apply (all_succeed_cons _ _ _ _ _
             [I2cMasterSend 72 [Some 3; Some 19; Some 96]]);
      [reflexivity |].
    apply (all_succeed_cons _ _ _ _ _
             [UsleepRange 2000 2100;
              I2cMasterSend 72 [Some 0; Some 16; Some 5];
              I2cTransfer 72 [Some 0; Some 16] 1;
              I2cMasterSend 72 [Some 3; Some 19; Some 96]]);
      [reflexivity |].
    apply all_succeed_nil.
  - reflexivity.
  - discriminate.
Defined.


(** * The init-sequence decoder *)

(** C3. The size check of [maxim2c_i2c_parse_init_seq] computes
    [reg_len + val_len * 2 + 1] in [u32], so it lets through a header whose
    sum passed [2 ^ 32]. With [seq_item_size = 3], [reg_len = 2] and
    [val_len = 0x80000000] the sum is [2 ^ 32 + 3], which differs from 3,
    yet the decoder does not fail with [-EINVAL]: it makes both
    allocations, writes [reg_seq_size] and [reg_init_seq] and returns 0.
    With [seq_item_size = 2], [reg_len = 0xFFFFFFFF] and [val_len = 1] the
    sum is [2 ^ 32 + 2], the header is let through as well, and the loop,
    which reads three bytes a turn, leaves the two-byte copy of the data. *)
Theorem parse_init_seq_size_check_wraps :
  seq_item_size (init_seq_header 3 2 2147483648)
  <> seq_reg_len (init_seq_header 3 2 2147483648)
     + seq_val_len (init_seq_header 3 2 2147483648) * 2 + 1
  /\ maxim2c_i2c_parse_init_seq (sim_host None) 65535 (Some [3; 19; 96]) 3
       (Some (init_seq_header 3 2 2147483648)) []
     = (Some (0,
              Some {| reg_init_seq :=
                        Some [ {| reg_len := 2; reg_addr := 787;
                                  val_len := 2147483648; reg_val := 0;
                                  val_mask := 0; delay := 96 |};
                               end_entry 2 65535 ];
                      reg_seq_size := 2; seq_item_size := 3;
                      seq_reg_len := 2; seq_val_len := 2147483648 |}),
        [DevmKcalloc 2; DevmKmemdup 3])
  /\ seq_item_size (init_seq_header 2 4294967295 1)
     <> seq_reg_len (init_seq_header 2 4294967295 1)
        + seq_val_len (init_seq_header 2 4294967295 1) * 2 + 1
  /\ maxim2c_i2c_parse_init_seq (sim_host None) 65535 (Some [10; 20]) 2
       (Some (init_seq_header 2 4294967295 1)) []
     = (None, [DevmKcalloc 2; DevmKmemdup 2]).
Proof.
  split; [| split; [| split]].
  - discriminate.
  - vm_compute. reflexivity.
  - discriminate.
  - vm_compute. reflexivity.
Qed.

(** ** Decoding the items *)

Lemma deref_inside data d8 :
  0 <= d8 < Z.of_nat (length data) ->
  deref data d8 = Some (nth (Z.to_nat d8) data 0).
Proof.
  intros H. unfold deref.
  destruct (Z.ltb_spec d8 0); [lia |].
  apply nth_error_nth'. lia.
Qed.

Lemma deref_outside data d8 :
  Z.of_nat (length data) <= d8 -> deref data d8 = None.
Proof.
  intros H. unfold deref.
  destruct (Z.ltb_spec d8 0); [reflexivity |].
  apply nth_error_None. lia.
Qed.

Lemma nth_is_byte data k : Forall is_byte data -> is_byte (nth k data 0).
Proof.
  intros H.
  destruct (Nat.lt_ge_cases k (length data)) as [L | L].
  - rewrite Forall_forall in H. apply H. now apply nth_In.
  - rewrite nth_overflow by exact L. unfold is_byte. lia.
Qed.

Lemma nth_u8 data k : Forall is_byte data -> nth k data 0 = u8 (nth k data 0).
Proof. intros H. symmetry. apply u8_small. now apply nth_is_byte. Qed.

Lemma or_bytes_u32 (x0 x1 x2 x3 : Z) :
  u32 (Z.lor (u32 (Z.lor (u32 (Z.lor (u32 (Z.lor 0 (Z.shiftl (u8 x0) 24)))
                                 (Z.shiftl (u8 x1) 16)))
                 (Z.shiftl (u8 x2) 8)))
         (Z.shiftl (u8 x3) 0))
  = be_value [u8 x0; u8 x1; u8 x2; u8 x3].
Proof. unfold be_value, be_value_from, u32, u8. bits. Qed.

(** A [switch] on a length that matches no label reads nothing. *)
Lemma switch_len_no_label wrap data len d8 :
  bytes_read len = 0 -> switch_len wrap data len d8 = Some (0, d8).
Proof.
  unfold bytes_read. intros H.
  assert (N : len <> 1 /\ len <> 2 /\ len <> 3 /\ len <> 4).
  { destruct (Z.leb_spec 1 len); destruct (Z.leb_spec len 4); simpl in H;
      lia. }
  unfold switch_len.
  destruct len as [| p | p]; [reflexivity | | reflexivity].
  destruct p as [[[? | ? |] | [? | ? |] |] | [[? | ? |] | [? | ? |] |] |];
    try reflexivity; lia.
Qed.

Lemma bytes_read_cases len :
  bytes_read len = 0
  \/ (bytes_read len = len /\ (len = 1 \/ len = 2 \/ len = 3 \/ len = 4)).
Proof.
  unfold bytes_read.
  destruct (Z.leb_spec 1 len); destruct (Z.leb_spec len 4); simpl;
    try (now left).
  right. lia.
Qed.

Lemma bytes_read_range len : 0 <= bytes_read len <= 4.
Proof. destruct (bytes_read_cases len) as [-> | [-> H]]; lia. Qed.

Lemma bytes_read_le len : 0 <= len -> bytes_read len <= len.
Proof. intros H. destruct (bytes_read_cases len) as [-> | [-> _]]; lia. Qed.

(** One read of the chain of a [switch]: inside the buffer it gives the
    byte, outside it ends the decoding. *)
Ltac read_byte data :=
  match goal with
  | |- context [deref data ?k] =>
      destruct (Z.lt_ge_cases k (Z.of_nat (length data)));
        [ rewrite (deref_inside data k) by lia; cbv beta iota
        | rewrite (deref_outside data k) by lia; try reflexivity ]
  end.

Ltac unfold_switch :=
  unfold switch_len, case_4, case_3, case_2, case_1, or_byte;
  cbv beta iota.

(** A [switch] reads [bytes_read len] bytes when they lie inside the buffer,
    and leaves the buffer otherwise. *)
Lemma switch_len_inside wrap data len d8 :
  0 <= d8 -> d8 + bytes_read len <= Z.of_nat (length data) ->
  exists v, switch_len wrap data len d8 = Some (v, d8 + bytes_read len).
Proof.
  intros H0 H.
  destruct (bytes_read_cases len) as [E | [E Hc]].
  - rewrite E, Z.add_0_r. eexists. now apply switch_len_no_label.
  - rewrite E in *.
    destruct Hc as [-> | [-> | [-> | ->]]]; unfold_switch;
      repeat (rewrite deref_inside by lia; cbv beta iota);
      eexists; f_equal; f_equal; lia.
Qed.

Lemma switch_len_outside wrap data len d8 :
  0 <= d8 -> 0 < bytes_read len ->
  Z.of_nat (length data) < d8 + bytes_read len ->
  switch_len wrap data len d8 = None.
Proof.
  intros H0 Hp H.
  destruct (bytes_read_cases len) as [E | [E Hc]]; [lia |].
  rewrite E in *.
  destruct Hc as [-> | [-> | [-> | ->]]]; unfold_switch;
    repeat read_byte data; exfalso; lia.
Qed.

Lemma switch_len_u32 data len d8 :
  Forall is_byte data -> 1 <= len <= 4 ->
  0 <= d8 -> d8 + len <= Z.of_nat (length data) ->
  switch_len u32 data len d8
  = Some (be_value (bytes_at data d8 len), d8 + len).
Proof.
  intros Hb Hl H0 H.
  assert (Hc : len = 1 \/ len = 2 \/ len = 3 \/ len = 4) by lia.
  destruct Hc as [-> | [-> | [-> | ->]]]; unfold_switch;
    repeat (rewrite deref_inside by lia; cbv beta iota);
    unfold bytes_at; simpl map;
    rewrite ?Z.add_0_r, <- ?Z.add_assoc; simpl (1 + _);
    f_equal; f_equal;
    repeat match goal with
      | |- context [nth ?k data 0] =>
          let b := fresh "b" in
          rewrite (nth_u8 data k Hb); generalize (nth k data 0); intros b
      end.
  all: unfold be_value, be_value_from, u32, u16, u8; bits.
Qed.

Lemma switch_len_u16 data len d8 :
  Forall is_byte data -> 1 <= len <= 4 ->
  0 <= d8 -> d8 + len <= Z.of_nat (length data) ->
  switch_len u16 data len d8
  = Some (u16 (be_value (bytes_at data d8 len)), d8 + len).
Proof.
  intros Hb Hl H0 H.
  assert (Hc : len = 1 \/ len = 2 \/ len = 3 \/ len = 4) by lia.
  destruct Hc as [-> | [-> | [-> | ->]]]; unfold_switch;
    repeat (rewrite deref_inside by lia; cbv beta iota);
    unfold bytes_at; simpl map;
    rewrite ?Z.add_0_r, <- ?Z.add_assoc; simpl (1 + _);
    f_equal; f_equal;
    repeat match goal with
      | |- context [nth ?k data 0] =>
          let b := fresh "b" in
          rewrite (nth_u8 data k Hb); generalize (nth k data 0); intros b
      end.
  all: unfold be_value, be_value_from, u32, u16, u8; bits.
Qed.

(** One turn of the loop reads [item_bytes_read] bytes: it succeeds when
    they lie inside the buffer and leaves the buffer otherwise. *)
Lemma parse_item_inside s data d8 :
  0 <= d8 -> d8 + item_bytes_read s <= Z.of_nat (length data) ->
  exists e, parse_item s data d8 = Some (e, d8 + item_bytes_read s).
Proof.
  unfold item_bytes_read. intros H0 H.
  pose proof (bytes_read_range (seq_reg_len s)) as Hr.
  pose proof (bytes_read_range (seq_val_len s)) as Hv.
  unfold parse_item.
  destruct (switch_len_inside u16 data (seq_reg_len s) d8) as [a ->];
    [lia | lia |].
  destruct (switch_len_inside u32 data (seq_val_len s)
              (d8 + bytes_read (seq_reg_len s))) as [v ->]; [lia | lia |].
  destruct (switch_len_inside u32 data (seq_val_len s)
              (d8 + bytes_read (seq_reg_len s) + bytes_read (seq_val_len s)))
    as [m ->]; [lia | lia |].
  rewrite deref_inside by lia.
  eexists. f_equal. f_equal. lia.
Qed.

Lemma parse_item_outside s data d8 :
  0 <= d8 <= Z.of_nat (length data) ->
  Z.of_nat (length data) < d8 + item_bytes_read s ->
  parse_item s data d8 = None.
Proof.
  unfold item_bytes_read. intros H0 H.
  pose proof (bytes_read_range (seq_reg_len s)) as Hr.
  pose proof (bytes_read_range (seq_val_len s)) as Hv.
  unfold parse_item.
  destruct (Z.le_gt_cases (d8 + bytes_read (seq_reg_len s))
              (Z.of_nat (length data))) as [L1 | L1].
  2: { rewrite switch_len_outside by lia. reflexivity. }
  destruct (switch_len_inside u16 data (seq_reg_len s) d8) as [a ->];
    [lia | lia |].
  destruct (Z.le_gt_cases
              (d8 + bytes_read (seq_reg_len s) + bytes_read (seq_val_len s))
              (Z.of_nat (length data))) as [L2 | L2].
  2: { rewrite switch_len_outside by lia. reflexivity. }
  destruct (switch_len_inside u32 data (seq_val_len s)
              (d8 + bytes_read (seq_reg_len s))) as [v ->]; [lia | lia |].
  destruct (Z.le_gt_cases
              (d8 + bytes_read (seq_reg_len s) + bytes_read (seq_val_len s)
               + bytes_read (seq_val_len s))
              (Z.of_nat (length data))) as [L3 | L3].
  2: { rewrite switch_len_outside by lia. reflexivity. }
  destruct (switch_len_inside u32 data (seq_val_len s)
              (d8 + bytes_read (seq_reg_len s) + bytes_read (seq_val_len s)))
    as [m ->]; [lia | lia |].
  rewrite deref_outside by lia. reflexivity.
Qed.

Lemma parse_item_spec s data d8 :
  Forall is_byte data ->
  1 <= seq_reg_len s <= 4 -> 1 <= seq_val_len s <= 4 ->
  0 <= d8 ->
  d8 + (seq_reg_len s + seq_val_len s * 2 + 1) <= Z.of_nat (length data) ->
  parse_item s data d8
  = Some (entry_at s data d8,
          d8 + (seq_reg_len s + seq_val_len s * 2 + 1)).
Proof.
  intros Hb Hr Hv H0 H. unfold parse_item.
  rewrite switch_len_u16 by (assumption || lia).
  rewrite switch_len_u32 by (assumption || lia).
  rewrite switch_len_u32 by (assumption || lia).
  rewrite deref_inside by lia.
  unfold entry_at. f_equal. f_equal. lia.
Qed.

(** ** The array of entries *)

Lemma array_set_app {A : Type} (l1 l2 : list A) (x y : A) :
  array_set (l1 ++ x :: l2) (length l1) y = Some (l1 ++ y :: l2).
Proof. induction l1 as [| a l1 IH]; simpl; [reflexivity | now rewrite IH]. Qed.

(** A write into the array succeeds exactly below its length, and changes
    the entry written alone. *)
Lemma array_set_inside {A : Type} (a : list A) (i : nat) (x : A) :
  (i < length a)%nat -> exists a', array_set a i x = Some a'.
Proof.
  revert i. induction a as [| y a IH]; intros [| i] H; simpl in *;
    try lia.
  - eexists. reflexivity.
  - destruct (IH i) as [a' ->]; [lia |]. eexists. reflexivity.
Qed.

Lemma array_set_some {A : Type} (a a' : list A) (i : nat) (x d : A) :
  array_set a i x = Some a' ->
  (i < length a)%nat /\ length a' = length a /\ nth i a' d = x.
Proof.
  revert i a'. induction a as [| y a IH]; intros [| i] a' H; simpl in *;
    try discriminate.
  - inversion H; subst. simpl. repeat split. lia.
  - destruct (array_set a i x) as [tl |] eqn:E; [| discriminate].
    inversion H; subst. destruct (IH i tl E) as (H1 & H2 & H3).
    simpl. repeat split; [lia | lia | exact H3].
Qed.

(** ** The decoding loop *)

Lemma parse_loop_spec s data k :
  Forall is_byte data ->
  1 <= seq_reg_len s <= 4 -> 1 <= seq_val_len s <= 4 ->
  forall n done,
    (Z.of_nat (length done) + Z.of_nat n)
    * (seq_reg_len s + seq_val_len s * 2 + 1) <= Z.of_nat (length data) ->
    parse_loop n s data (length done)
      (Z.of_nat (length done) * (seq_reg_len s + seq_val_len s * 2 + 1))
      (done ++ repeat regval_zero (n + k))
    = Some (done
            ++ map (fun j =>
                      entry_at s data
                        (Z.of_nat j
                         * (seq_reg_len s + seq_val_len s * 2 + 1)))
                 (seq (length done) n)
            ++ repeat regval_zero k).
Proof.
  intros Hb Hr Hv.
  set (size := seq_reg_len s + seq_val_len s * 2 + 1).
  assert (Hsize : 0 < size) by (unfold size; lia).
  induction n as [| n IH]; intros done Hin.
  - reflexivity.
  - simpl parse_loop.
    rewrite parse_item_spec by (assumption || fold size; nia).
    simpl repeat. rewrite array_set_app.
    fold size.
    replace (done ++ entry_at s data (Z.of_nat (length done) * size)
                  :: repeat regval_zero (n + k))
      with ((done ++ [entry_at s data (Z.of_nat (length done) * size)])
            ++ repeat regval_zero (n + k))
      by (now rewrite <- app_assoc).
    replace (S (length done))
      with (length (done ++ [entry_at s data
                               (Z.of_nat (length done) * size)]))
      by (rewrite length_app; simpl; lia).
    replace (Z.of_nat (length done) * size + size)
      with (Z.of_nat (length (done ++ [entry_at s data
                               (Z.of_nat (length done) * size)]))
            * size)
      by (rewrite length_app; simpl length; lia).
    rewrite IH by (rewrite length_app; simpl length; lia).
    rewrite <- app_assoc. simpl app.
    rewrite length_app. simpl length.
    replace (length done + 1)%nat with (S (length done)) by lia.
    reflexivity.
Qed.

(** The loop keeps the length of the array. *)
Lemma length_parse_loop n s data :
  forall i d8 a a',
    parse_loop n s data i d8 a = Some a' -> length a' = length a.
Proof.
  induction n as [| n IH]; intros i d8 a a' H; simpl in H.
  - now inversion H.
  - destruct (parse_item s data d8) as [[e d8'] |]; [| discriminate].
    destruct (array_set a i e) as [a1 |] eqn:E; [| discriminate].
    apply (array_set_some _ _ _ _ e) in E. destruct E as (_ & E & _).
    rewrite (IH _ _ _ _ H). exact E.
Qed.

(** [n] turns read [n * item_bytes_read] bytes from [d8] on: the loop
    succeeds when they lie inside the copy and the entries inside the
    array. *)
Lemma parse_loop_inside n s data :
  forall i d8 a,
    0 <= d8 ->
    d8 + Z.of_nat n * item_bytes_read s <= Z.of_nat (length data) ->
    (i + n <= length a)%nat ->
    exists a', parse_loop n s data i d8 a = Some a'.
Proof.
  assert (Hc : 1 <= item_bytes_read s).
  { unfold item_bytes_read.
    pose proof (bytes_read_range (seq_reg_len s)).
    pose proof (bytes_read_range (seq_val_len s)). lia. }
  induction n as [| n IH]; intros i d8 a H0 H Ha; simpl.
  - eexists. reflexivity.
  - destruct (parse_item_inside s data d8) as [e ->]; [lia | nia |].
    destruct (array_set_inside a i e) as [a1 E]; [lia |].
    rewrite E.
    apply IH; [lia | nia |].
    apply (array_set_some _ _ _ _ e) in E. lia.
Qed.

(** When they do not lie inside the copy, the loop leaves it. *)
Lemma parse_loop_outside n s data :
  forall i d8 a,
    0 <= d8 <= Z.of_nat (length data) ->
    Z.of_nat (length data) < d8 + Z.of_nat n * item_bytes_read s ->
    parse_loop n s data i d8 a = None.
Proof.
  induction n as [| n IH]; intros i d8 a H0 H; simpl.
  - lia.
  - destruct (Z.le_gt_cases (d8 + item_bytes_read s)
                (Z.of_nat (length data))) as [L | L].
    + destruct (parse_item_inside s data d8) as [e ->]; [lia | lia |].
      destruct (array_set a i e) as [a1 |]; [| reflexivity].
      apply IH; [| lia].
      unfold item_bytes_read in *.
      pose proof (bytes_read_range (seq_reg_len s)).
      pose proof (bytes_read_range (seq_val_len s)). lia.
    + now rewrite parse_item_outside by lia.
Qed.

(** The loop reads the two lengths of the header and nothing else of it. *)
Lemma parse_loop_lengths s1 s2 data :
  seq_reg_len s1 = seq_reg_len s2 -> seq_val_len s1 = seq_val_len s2 ->
  forall n i d8 a,
    parse_loop n s1 data i d8 a = parse_loop n s2 data i d8 a.
Proof.
  intros Hr Hv.
  induction n as [| n IH]; intros i d8 a; simpl; [reflexivity |].
  unfold parse_item. rewrite Hr, Hv.
  destruct (switch_len u16 data (seq_reg_len s2) d8) as [[x d1] |];
    [| reflexivity].
  destruct (switch_len u32 data (seq_val_len s2) d1) as [[v d2] |];
    [| reflexivity].
  destruct (switch_len u32 data (seq_val_len s2) d2) as [[m d3] |];
    [| reflexivity].
  destruct (deref data d3) as [d |]; [| reflexivity].
  destruct (array_set a i _) as [a1 |]; [| reflexivity].
  apply IH.
Qed.

(** ** Items and entries *)

Lemma bytes_at_firstn_skipn data off len :
  0 <= off -> 0 <= len -> off + len <= Z.of_nat (length data) ->
  bytes_at data off len
  = firstn (Z.to_nat len) (skipn (Z.to_nat off) data).
Proof.
  intros Ho Hl Hle. unfold bytes_at.
  apply (nth_ext _ _ 0 0).
  - rewrite length_map, length_seq, length_firstn, length_skipn. lia.
  - intros n Hn. rewrite length_map, length_seq in Hn.
    rewrite (nth_indep _ 0 (nth (Z.to_nat (off + Z.of_nat 0)) data 0))
      by (rewrite length_map, length_seq; exact Hn).
    rewrite (map_nth (fun k => nth (Z.to_nat (off + Z.of_nat k)) data 0)).
    rewrite seq_nth by exact Hn.
    rewrite nth_firstn.
    destruct (Nat.ltb_spec n (Z.to_nat len)); [| lia].
    rewrite nth_skipn. f_equal. lia.
Qed.

Lemma bytes_at_item data size i a len :
  0 <= a -> 0 <= len -> a + len <= size ->
  (Z.of_nat i + 1) * size <= Z.of_nat (length data) ->
  bytes_at data (Z.of_nat i * size + a) len
  = firstn (Z.to_nat len) (skipn (Z.to_nat a) (item size data i)).
Proof.
  intros Ha Hl Hs Hd.
  rewrite bytes_at_firstn_skipn by nia.
  unfold item.
  rewrite skipn_firstn_comm, skipn_skipn, firstn_firstn.
  f_equal; [lia |]. f_equal. nia.
Qed.

Lemma nth_item data size i a :
  0 <= a < size ->
  (Z.of_nat i + 1) * size <= Z.of_nat (length data) ->
  nth (Z.to_nat (Z.of_nat i * size + a)) data 0
  = nth (Z.to_nat a) (item size data i) 0.
Proof.
  intros Ha Hd. unfold item.
  rewrite nth_firstn.
  destruct (Nat.ltb_spec (Z.to_nat a) (Z.to_nat size)); [| lia].
  rewrite nth_skipn. f_equal. nia.
Qed.

Lemma entry_at_item s data i :
  1 <= seq_reg_len s <= 4 -> 1 <= seq_val_len s <= 4 ->
  (Z.of_nat i + 1) * (seq_reg_len s + seq_val_len s * 2 + 1)
  <= Z.of_nat (length data) ->
  entry_at s data (Z.of_nat i * (seq_reg_len s + seq_val_len s * 2 + 1))
  = decoded_entry (seq_reg_len s) (seq_val_len s)
      (item (seq_reg_len s + seq_val_len s * 2 + 1) data i).
Proof.
  intros Hr Hv Hd. unfold entry_at, decoded_entry.
  set (size := seq_reg_len s + seq_val_len s * 2 + 1) in *.
  f_equal.
  - apply u16_small. lia.
  - f_equal.
    rewrite <- (Z.add_0_r (Z.of_nat i * size)).
    rewrite (bytes_at_item data size i 0) by (subst size; lia).
    reflexivity.
  - rewrite (bytes_at_item data size i (seq_reg_len s)) by (subst size; lia).
    reflexivity.
  - rewrite <- Z.add_assoc.
    rewrite (bytes_at_item data size i (seq_reg_len s + seq_val_len s))
      by (subst size; lia).
    reflexivity.
  - rewrite <- !Z.add_assoc.
    rewrite (nth_item data size i) by (subst size; lia).
    f_equal. lia.
Qed.

(** A branch of the decoder that returns an error code. *)
Ltac failed_code :=
  eexists _, _; split;
  [ reflexivity
  | let Hf := fresh "Hf" in
    intros Hf; unfold EINVAL, ENOMEM in Hf; exfalso; lia ].

(** At most two bytes make a 16-bit number. *)
Lemma be_value_short (bs : list Z) :
  Forall is_byte bs -> (length bs <= 2)%nat -> u16 (be_value bs) = be_value bs.
Proof.
  intros Hb Hl. apply u16_small. unfold be_value.
  pose proof (be_value_from_range bs 0 0 (Z.le_refl 0)) as H.
  assert (H0 : 0 <= 0 < 2 ^ 0) by (simpl; lia).
  specialize (H H0 Hb).
  assert (2 ^ (0 + 8 * Z.of_nat (length bs)) <= 2 ^ 16)
    by (apply Z.pow_le_mono_r; lia).
  lia.
Qed.

(** C4, amended. On a sequence of [n] items of [seq_item_size] bytes with
    address and value lengths of 1 to 4 bytes, [maxim2c_i2c_parse_init_seq]
    stays inside its buffers, and when it returns 0 [*init_seq] holds
    exactly [n + 1] entries: entry [i < n] is item
    [i] read as [reg_len] bytes of big-endian register address, [val_len]
    bytes of big-endian value, [val_len] bytes of big-endian mask and one
    byte of delay, with [reg_len] and [val_len] copied from the header, the
    address being kept in the 16 bits of [reg_addr] (so it is the value of
    the address bytes when there are at most two); the last entry has
    [reg_addr = MAXIM2C_REG_NULL] (a 16-bit address). *)
Theorem parse_init_seq_decodes (host : host_model) (MAXIM2C_REG_NULL : Z)
  (data : list Z) (data_len : Z) (s : maxim2c_i2c_init_seq) (n : nat)
  (w : world) :
  Forall is_byte data ->
  data_len = Z.of_nat (length data) ->
  data_len = Z.of_nat n * seq_item_size s ->
  data_len < 2 ^ 31 ->
  1 <= seq_reg_len s <= 4 ->
  1 <= seq_val_len s <= 4 ->
  0 <= MAXIM2C_REG_NULL < 2 ^ 16 ->
  (exists code s',
      fst (maxim2c_i2c_parse_init_seq host MAXIM2C_REG_NULL (Some data)
             data_len (Some s) w) = Some (code, s')
      /\ (code = 0 ->
          s' = Some {| reg_init_seq :=
                         Some (map (fun i =>
                                      decoded_entry (seq_reg_len s)
                                        (seq_val_len s)
                                        (item (seq_item_size s) data i))
                                 (seq 0 n)
                               ++ [end_entry (seq_reg_len s)
                                     MAXIM2C_REG_NULL]);
                       reg_seq_size := Z.of_nat n + 1;
                       seq_item_size := seq_item_size s;
                       seq_reg_len := seq_reg_len s;
                       seq_val_len := seq_val_len s |}))
  /\ length (map (fun i =>
                    decoded_entry (seq_reg_len s) (seq_val_len s)
                      (item (seq_item_size s) data i))
               (seq 0 n)
             ++ [end_entry (seq_reg_len s) MAXIM2C_REG_NULL])
     = (n + 1)%nat
  /\ (seq_reg_len s <= 2 ->
      forall i,
        reg_addr (decoded_entry (seq_reg_len s) (seq_val_len s)
                    (item (seq_item_size s) data i))
        = be_value (firstn (Z.to_nat (seq_reg_len s))
                      (item (seq_item_size s) data i))).
Proof.
  intros Hb Hlen Hn Hint Hr Hv Hnull.
  split; [| split].
  2: { rewrite length_app, length_map, length_seq. reflexivity. }
  2: { intros Hr2 i. unfold decoded_entry. simpl reg_addr.
       apply be_value_short.
       - apply Forall_firstn. unfold item.
         apply Forall_firstn, Forall_skipn. exact Hb.
       - rewrite length_firstn. lia. }
  unfold maxim2c_i2c_parse_init_seq, bind, call, pure.
  assert (H0 : 0 <= data_len) by lia.
  rewrite (u32_small data_len) by lia.
  destruct ((seq_item_size s =? 0) || (data_len =? 0)
            || (seq_reg_len s =? 0) || (seq_val_len s =? 0)) eqn:Ez;
    [failed_code |].
  destruct (negb (data_len mod seq_item_size s =? 0)); [failed_code |].
  rewrite (u32_small (seq_reg_len s + seq_val_len s * 2 + 1)) by lia.
  destruct (Z.eqb_spec (seq_item_size s)
              (seq_reg_len s + seq_val_len s * 2 + 1)) as [Hs |];
    [| failed_code].
  cbv beta iota zeta.
  cbn [reg_seq_size set_reg_seq_size seq_item_size seq_reg_len seq_val_len
       negb fst snd].
  destruct (ret (host w (DevmKmemdup data_len)) =? 0); [failed_code |].
  assert (Hdiv : data_len / seq_item_size s = Z.of_nat n).
  { rewrite Hn. apply Z.div_mul. lia. }
  rewrite Hdiv.
  assert (Hn_small : Z.of_nat n < 2 ^ 31).
  { assert (Z.of_nat n * 1 <= Z.of_nat n * seq_item_size s)
      by (apply Z.mul_le_mono_nonneg_l; lia).
    lia. }
  rewrite (u32_small (Z.of_nat n + 1)) by lia.
  destruct (ret (host _ (DevmKcalloc (Z.of_nat n + 1))) =? 0);
    [failed_code |].
  replace (Z.of_nat n + 1 - 1) with (Z.of_nat n) by lia.
  rewrite (u32_small (Z.of_nat n)) by lia.
  rewrite Nat2Z.id.
  replace (Z.to_nat (Z.of_nat n + 1)) with (n + 1)%nat by lia.
  rewrite firstn_all2 by lia.
  set (s' := set_reg_seq_size (set_reg_seq_size s (Z.of_nat n))
               (Z.of_nat n + 1)).
  assert (Hin : (Z.of_nat (length (@nil maxim2c_i2c_regval)) + Z.of_nat n)
                * (seq_reg_len s' + seq_val_len s' * 2 + 1)
                <= Z.of_nat (length data)).
  { cbn [seq_reg_len seq_val_len s' set_reg_seq_size length].
    rewrite <- Hlen, Hn, Hs. lia. }
  pose proof (parse_loop_spec s' data 1 Hb Hr Hv n [] Hin) as Hloop.
  simpl app in Hloop. simpl length in Hloop.
  change (Z.of_nat 0 * (seq_reg_len s' + seq_val_len s' * 2 + 1)) with 0
    in Hloop.
  rewrite Hloop. clear Hloop.
  set (entries := map _ (seq 0 n)).
  assert (Hl : length entries = n)
    by (unfold entries; now rewrite length_map, length_seq).
  simpl repeat.
  pose proof (nth_middle entries [] regval_zero regval_zero) as Hmid.
  rewrite Hl in Hmid. rewrite Hmid. clear Hmid.
  pose proof (array_set_app entries [] regval_zero
                (end_setting MAXIM2C_REG_NULL s' regval_zero)) as Hend.
  rewrite Hl in Hend. rewrite Hend. clear Hend.
  eexists _, _. split; [reflexivity |]. intros _.
  unfold set_reg_init_seq.
  cbn [reg_seq_size set_reg_seq_size seq_item_size seq_reg_len seq_val_len
       reg_init_seq s'].
  f_equal. f_equal. f_equal. f_equal.
  - unfold entries. apply map_ext_in. intros j Hj. apply in_seq in Hj.
    rewrite Hs.
    apply (entry_at_item s' data j Hr Hv).
    cbn [seq_reg_len seq_val_len s' set_reg_seq_size].
    rewrite <- Hlen, Hn, Hs.
    apply Z.mul_le_mono_nonneg_r; lia.
  - unfold end_setting, end_entry, regval_zero.
    cbn [reg_len reg_addr val_len reg_val val_mask delay].
    change (seq_reg_len s') with (seq_reg_len s).
    rewrite (u16_small (seq_reg_len s)) by lia.
    now rewrite (u16_small MAXIM2C_REG_NULL) by lia.
Qed.

(** C4, as stated, fails on lengths the validation lets through. With a
    3-byte address the entry keeps the low 16 bits only: the item
    [1 2 3 | 4 | 5 | 6] decodes to [reg_addr = 0x0203], not [0x010203]. With
    a 5-byte address no label of the [switch] matches, so no address byte is
    read and the value, mask and delay are taken from the first bytes of
    the data: two items of 8 bytes are accepted, two entries and the end
    entry come out, but neither entry is its item. *)
Lemma parse_init_seq_address_width_counterexample :
  maxim2c_i2c_parse_init_seq (sim_host None) 65535
    (Some [1; 2; 3; 4; 5; 6]) 6 (Some (init_seq_header 6 3 1)) []
  = (Some (0,
           Some {| reg_init_seq :=
                     Some [ {| reg_len := 3; reg_addr := 515; val_len := 1;
                               reg_val := 4; val_mask := 5; delay := 6 |};
                            end_entry 3 65535 ];
                   reg_seq_size := 2; seq_item_size := 6; seq_reg_len := 3;
                   seq_val_len := 1 |}),
     [DevmKcalloc 2; DevmKmemdup 6])
  /\ be_value [1; 2; 3] = 66051
  /\ maxim2c_i2c_parse_init_seq (sim_host None) 65535
       (Some [0; 0; 0; 3; 19; 96; 15; 2; 0; 0; 0; 3; 20; 7; 0; 0]) 16
       (Some (init_seq_header 8 5 1)) []
     = (Some (0,
              Some {| reg_init_seq :=
                        Some [ {| reg_len := 5; reg_addr := 0; val_len := 1;
                                  reg_val := 0; val_mask := 0; delay := 0 |};
                               {| reg_len := 5; reg_addr := 0; val_len := 1;
                                  reg_val := 3; val_mask := 19;
                                  delay := 96 |};
                               end_entry 5 65535 ];
                      reg_seq_size := 3; seq_item_size := 8;
                      seq_reg_len := 5; seq_val_len := 1 |}),
        [DevmKcalloc 3; DevmKmemdup 16])
  /\ be_value [0; 0; 0; 3; 19] = 787.
Proof.
  split; [| split; [| split]]; vm_compute; reflexivity.
Qed.

(** Two items of 5 bytes: a 2-byte address, a value, a mask and a delay. *)
Lemma parse_init_seq_decodes_witness :
  fst (maxim2c_i2c_parse_init_seq (sim_host None) 65535
         (Some [3; 19; 96; 15; 2; 0; 16; 5; 0; 0]) 10
         (Some (init_seq_header 5 2 1)) [])
  = Some (0,
          Some {| reg_init_seq :=
                    Some [regval8 787 96 15 2; regval8 16 5 0 0;
                          end_entry 2 65535];
                  reg_seq_size := 3; seq_item_size := 5; seq_reg_len := 2;
                  seq_val_len := 1 |}).
Proof.
  assert (Hb : Forall is_byte [3; 19; 96; 15; 2; 0; 16; 5; 0; 0])
    by (repeat constructor; unfold is_byte; lia).
  destruct (proj1 (parse_init_seq_decodes (sim_host None) 65535
                     [3; 19; 96; 15; 2; 0; 16; 5; 0; 0] 10
                     (init_seq_header 5 2 1) 2 [] Hb eq_refl eq_refl eq_refl
                     ltac:(simpl; lia) ltac:(simpl; lia) ltac:(lia)))
    as (code & s' & E & H).
  pose proof E as E'. vm_compute in E'. injection E' as Hc _.
  rewrite E, (H (eq_sym Hc)), <- Hc. reflexivity.
Defined.

(** * Further properties of the register I/O, the sequences and the mux *)

(** X1. Reading decodes what writing encodes. When the device answers a
    read of [val_len] bytes (1 to 4, address of at most 2 bytes) with the
    value bytes [maxim2c_i2c_write] puts on the wire for [reg_val],
    [maxim2c_i2c_read] returns [reg_val] reduced to its low [val_len]
    bytes. *)
Theorem read_decodes_what_write_encodes (host : host_model) (c : i2c_client)
  (reg_addr reg_len val_len reg_val : Z) (w : world) :
  0 <= reg_len <= 2 ->
  1 <= val_len <= 4 ->
  ret (host w (I2cTransfer (addr c)
                 (map Some (last_bytes reg_len (cpu_to_be16 reg_addr)))
                 val_len)) = 2 ->
  data (host w (I2cTransfer (addr c)
                  (map Some (last_bytes reg_len (cpu_to_be16 reg_addr)))
                  val_len))
  = last_bytes val_len (cpu_to_be32 reg_val) ->
  fst (maxim2c_i2c_read host c reg_addr reg_len val_len w)
  = Ok (reg_val mod 2 ^ (8 * val_len)).
Proof.
  intros Hr Hv Hret Hdata.
  rewrite maxim2c_i2c_read_message by assumption.
  cbv zeta. cbn [fst]. rewrite Hret, Hdata. simpl (2 =? 2).
  rewrite fill_bytes_data_be.
  - now rewrite last_bytes_be32_value by lia.
  - lia.
  - apply last_bytes_be32_length. lia.
  - apply last_bytes_be32_is_byte.
Qed.

(** Writing 0x012345 as two bytes sends 0x23 0x45; reading them back gives
    0x2345. *)
Lemma read_decodes_what_write_encodes_witness :
  snd (maxim2c_i2c_write (sim_host None) des 787 2 2 74565 [])
  = [I2cMasterSend 72 [Some 3; Some 19; Some 35; Some 69]]
  /\ fst (maxim2c_i2c_read (sim_host None) des 787 2 2
            [I2cMasterSend 72 [Some 3; Some 19; Some 35; Some 69]])
     = Ok 9029.
Proof.
  split; [reflexivity |].
  apply (read_decodes_what_write_encodes (sim_host None) des 787 2 2 74565
           [I2cMasterSend 72 [Some 3; Some 19; Some 35; Some 69]]).
  - lia.
  - lia.
  - reflexivity.
  - reflexivity.
Defined.

(** X2. A successful [maxim2c_i2c_read] was asked for 1 to 4 bytes, returns a
    number that fits in [val_len] bytes (the bytes of [data_be] it did not
    ask for stay 0) and made exactly one transfer. *)
Theorem read_value_fits_val_len (host : host_model) (c : i2c_client)
  (reg_addr reg_len val_len : Z) (w : world) (v : Z) (w1 : world) :
  0 <= val_len ->
  maxim2c_i2c_read host c reg_addr reg_len val_len w = (Ok v, w1) ->
  1 <= val_len <= 4
  /\ 0 <= v < 2 ^ (8 * val_len)
  /\ exists reg_bytes, w1 = I2cTransfer (addr c) reg_bytes val_len :: w.
Proof.
  intros H0 H.
  destruct (maxim2c_i2c_read_ok_inv host c reg_addr reg_len val_len w v w1
              H0 H) as (Hv & Hw & Hval).
  split; [exact Hv | split].
  - rewrite Hval. apply fill_bytes_fits. exact Hv.
  - eexists. exact Hw.
Qed.

(** The two bytes read back make a number below 2 ^ 16. *)
Lemma read_value_fits_val_len_witness :
  0 <= 9029 < 2 ^ (8 * 2).
Proof.
  apply (read_value_fits_val_len (sim_host None) des 787 2 2
           [I2cMasterSend 72 [Some 3; Some 19; Some 35; Some 69]] 9029
           [I2cTransfer 72 [Some 3; Some 19] 2;
            I2cMasterSend 72 [Some 3; Some 19; Some 35; Some 69]]).
  - lia.
  - reflexivity.
Defined.

(** X3. [maxim2c_i2c_read_reg] takes the first byte in memory of the [u32]
    that [maxim2c_i2c_read] filled. For a one-byte value, on a little-endian
    CPU that is the byte read from the register; on a big-endian CPU it is 0
    whatever the register holds. When the read fails the code is returned
    and the byte stored is 0. *)
Theorem read_reg_depends_on_cpu_byte_order (host : host_model) (A16 : Z)
  (c : i2c_client) (reg_addr : Z) (w : world) :
  (forall v w1,
      maxim2c_i2c_read host c reg_addr A16 1 w = (Ok v, w1) ->
      maxim2c_i2c_read_reg host A16 1 false c reg_addr w = ((0, v), w1)
      /\ maxim2c_i2c_read_reg host A16 1 true c reg_addr w = ((0, 0), w1))
  /\ (forall e w1 big_endian,
         maxim2c_i2c_read host c reg_addr A16 1 w = (Err e, w1) ->
         maxim2c_i2c_read_reg host A16 1 big_endian c reg_addr w
         = ((e, 0), w1)).
Proof.
  split.
  - intros v w1 H.
    assert (Hv : 0 <= v < 2 ^ (8 * 1)).
    { eapply maxim2c_i2c_read_fits; [| exact H]. lia. }
    change (2 ^ (8 * 1)) with 256 in Hv.
    unfold maxim2c_i2c_read_reg, bind, pure. rewrite H.
    unfold u32_in_memory, cpu_to_be32. cbn [rev app hd].
    split.
    + now rewrite u8_small by exact Hv.
    + replace (Z.shiftr v 24) with 0; [reflexivity |].
      symmetry. apply Z.shiftr_eq_0; [lia |].
      destruct (Z.eq_dec v 0) as [-> | Hn]; [simpl; lia |].
      apply Z.log2_lt_pow2; lia.
  - intros e w1 be H.
    unfold maxim2c_i2c_read_reg, bind, pure. rewrite H.
    destruct be; reflexivity.
Qed.

(** Register 0x0313 holds 0x3C: read as 0x3C on a little-endian CPU, as 0 on
    a big-endian one. *)
Lemma read_reg_depends_on_cpu_byte_order_witness :
  maxim2c_i2c_read_reg (sim_host None) 2 1 false des 787
    [I2cMasterSend 72 [Some 3; Some 19; Some 60]]
  = ((0, 60),
     [I2cTransfer 72 [Some 3; Some 19] 1;
      I2cMasterSend 72 [Some 3; Some 19; Some 60]])
  /\ maxim2c_i2c_read_reg (sim_host None) 2 1 true des 787
       [I2cMasterSend 72 [Some 3; Some 19; Some 60]]
     = ((0, 0),
        [I2cTransfer 72 [Some 3; Some 19] 1;
         I2cMasterSend 72 [Some 3; Some 19; Some 60]]).
Proof.
  apply (proj1 (read_reg_depends_on_cpu_byte_order (sim_host None) 2 des 787
                  [I2cMasterSend 72 [Some 3; Some 19; Some 60]])).
  reflexivity.
Defined.

(** X4. On a little-endian CPU [maxim2c_i2c_update_reg] does on the bus, and
    returns, exactly what [maxim2c_i2c_update] does with a one-byte value
    length, for every mask and value. *)
Theorem update_reg_is_one_byte_update (host : host_model) (A16 : Z)
  (c : i2c_client) (reg_addr val_mask reg_val : Z) (w : world) :
  maxim2c_i2c_update_reg host A16 1 false c reg_addr val_mask reg_val w
  = maxim2c_i2c_update host c reg_addr A16 1 val_mask reg_val w.
Proof.
  unfold maxim2c_i2c_update_reg, maxim2c_i2c_update, maxim2c_i2c_read_reg,
    maxim2c_i2c_write_reg, bind, pure.
  destruct (maxim2c_i2c_read host c reg_addr A16 1 w) as [[v | e] w1] eqn:H.
  - assert (Hv : 0 <= v < 2 ^ (8 * 1)).
    { eapply maxim2c_i2c_read_fits; [| exact H]. lia. }
    change (2 ^ (8 * 1)) with 256 in Hv.
    unfold u32_in_memory, cpu_to_be32. cbn [rev app hd].
    rewrite (u8_small v) by exact Hv.
    simpl (negb (0 =? 0)). cbv iota.
    rewrite merge_u8.
    rewrite merge_u32 by lia.
    unfold u8. change 8 with (8 * 1) at 1.
    apply maxim2c_i2c_write_low_bytes. lia.
  - destruct (maxim2c_i2c_read_err_inv host c reg_addr A16 1 w e w1 H)
      as [-> | ->]; reflexivity.
Qed.

(** X5. [maxim2c_i2c_write] only looks at the low [val_len] bytes of
    [reg_val]: reducing [reg_val] to them changes neither the message nor
    the result, whatever the address length. *)
Theorem write_sends_low_bytes_only (host : host_model) (c : i2c_client)
  (reg_addr reg_len val_len reg_val : Z) (w : world) :
  0 <= val_len <= 4 ->
  maxim2c_i2c_write host c reg_addr reg_len val_len
    (reg_val mod 2 ^ (8 * val_len)) w
  = maxim2c_i2c_write host c reg_addr reg_len val_len reg_val w.
Proof. apply maxim2c_i2c_write_low_bytes. Qed.

(** Two value bytes of 0x012345 and of 0x2345. *)
Lemma write_sends_low_bytes_only_witness :
  maxim2c_i2c_write (sim_host None) des 787 2 2 (74565 mod 2 ^ (8 * 2)) []
  = maxim2c_i2c_write (sim_host None) des 787 2 2 74565 [].
Proof.
  apply (write_sends_low_bytes_only (sim_host None) des 787 2 2 74565 []).
  lia.
Defined.

Lemma map_seq_none {A : Type} (f : nat -> option A) (n : nat) :
  forall s, (forall k, (s <= k)%nat -> f k = None) ->
            map f (seq s n) = repeat None n.
Proof.
  induction n as [| n IH]; intros s H; [reflexivity |].
  simpl. rewrite H by lia. f_equal. apply IH. intros k Hk. apply H. lia.
Qed.

(** Past the bytes it was given, a six-byte buffer holds nothing the program
    determined. *)
Lemma byte_at_past (buf : list (option Z)) (filled : nat) :
  length buf = 6%nat ->
  (forall k, (filled <= k < 6)%nat -> nth_error buf k = Some None) ->
  forall k, (filled <= k)%nat -> byte_at buf (0 + Z.of_nat k) = None.
Proof.
  intros Hl Hn k Hk. unfold byte_at.
  destruct (Z.ltb_spec (0 + Z.of_nat k) 0); [lia |].
  replace (Z.to_nat (0 + Z.of_nat k)) with k by lia.
  destruct (Nat.lt_ge_cases k 6) as [L | L].
  - now rewrite Hn by lia.
  - assert (E : nth_error buf k = None) by (apply nth_error_None; lia).
    now rewrite E.
Qed.

(** X6. [maxim2c_i2c_write] does not check the address length. With
    [reg_len] of 3 or more it fills one address byte and the value bytes but
    hands [val_len + reg_len] bytes over: the [reg_len - 1] last ones were
    never written (or lie past the 6-byte buffer). With [reg_len = 0] it
    hands over the first [val_len] bytes of the low address byte followed by
    the value, so the last value byte is dropped. *)
Theorem write_address_length_is_not_checked (host : host_model)
  (c : i2c_client) (reg_addr reg_len val_len reg_val : Z) (w : world) :
  0 <= val_len <= 4 ->
  (3 <= reg_len < 2 ^ 16 ->
   snd (maxim2c_i2c_write host c reg_addr reg_len val_len reg_val w)
   = I2cMasterSend (addr c)
       (map Some (u8 reg_addr :: last_bytes val_len (cpu_to_be32 reg_val))
        ++ repeat None (Z.to_nat (reg_len - 1))) :: w)
  /\ (reg_len = 0 ->
      snd (maxim2c_i2c_write host c reg_addr reg_len val_len reg_val w)
      = I2cMasterSend (addr c)
          (map Some
             (firstn (Z.to_nat val_len)
                (u8 reg_addr :: last_bytes val_len (cpu_to_be32 reg_val))))
          :: w).
Proof.
  intros Hv.
  assert (Hc : val_len = 0 \/ val_len = 1 \/ val_len = 2
               \/ val_len = 3 \/ val_len = 4) by lia.
  split.
  - intros Hr.
    unfold maxim2c_i2c_write, bind, call, pure.
    destruct (Z.ltb_spec 4 val_len); [lia |].
    destruct (Z.eqb_spec reg_len 2); [lia |].
    rewrite (u32_small (val_len + reg_len)) by lia.
    rewrite u8_land_255.
    destruct Hc as [-> | [-> | [-> | [-> | ->]]]];
      unfold copy_value, cpu_to_be32, last_bytes; eval_to_nat;
      cbn [length skipn Nat.sub fold_left fst snd store repeat];
      cbv beta iota zeta; cbn [fst snd];
      unfold mem_slice;
      match goal with
      | |- context [Z.to_nat (?v + reg_len)] =>
          replace (Z.to_nat (v + reg_len))
            with (Z.to_nat (1 + v) + Z.to_nat (reg_len - 1))%nat by lia
      end;
      rewrite seq_app, map_app; eval_to_nat;
      match goal with
      | |- context [map ?f (seq ?s ?n) ++ map ?f (seq ?s' ?n')] =>
          rewrite (map_seq_none f n' s');
          [ cbn [seq map Nat.add]; unfold byte_at; simpl;
            match goal with
            | |- context [if ?b then _ else _] => destruct b
            end; reflexivity
          | apply byte_at_past; [reflexivity |];
            intros k Hk;
            do 6 (destruct k as [| k]; [first [lia | reflexivity] |]); lia ]
      end.
  - intros ->.
    unfold maxim2c_i2c_write, bind, call, pure, mem_slice, copy_value,
      last_bytes.
    destruct Hc as [-> | [-> | [-> | [-> | ->]]]];
      simpl; unfold byte_at; simpl; rewrite ?u8_land_255;
      match goal with
      | |- context [if ?b then _ else _] => destruct b
      end; reflexivity.
Qed.

(** An address length of 3 sends two undetermined bytes; an address length of
    0 drops the low value byte. *)
Lemma write_address_length_is_not_checked_witness :
  snd (maxim2c_i2c_write (sim_host None) des 787 3 1 60 [])
  = [I2cMasterSend 72 [Some 19; Some 60; None; None]]
  /\ snd (maxim2c_i2c_write (sim_host None) des 787 0 2 4660 [])
     = [I2cMasterSend 72 [Some 19; Some 18]].
Proof.
  split.
  - apply (proj1 (write_address_length_is_not_checked (sim_host None) des
                    787 3 1 60 [] ltac:(lia))).
    lia.
  - apply (proj2 (write_address_length_is_not_checked (sim_host None) des
                    787 0 2 4660 [] ltac:(lia))).
    reflexivity.
Defined.

(** X7. [maxim2c_i2c_update] writes only after a successful read. When the
    read fails, its non-zero code is returned and the world is the one the
    read left: nothing is sent. A value length of 0, which
    [maxim2c_i2c_write] alone would accept, is refused with [-EINVAL] before
    any bus traffic. The result is always 0, [-EINVAL] or [-EIO]. *)
Theorem update_writes_only_after_a_successful_read (host : host_model)
  (c : i2c_client) (reg_addr reg_len val_len val_mask reg_val : Z)
  (w : world) :
  (forall e w1,
      maxim2c_i2c_read host c reg_addr reg_len val_len w = (Err e, w1) ->
      maxim2c_i2c_update host c reg_addr reg_len val_len val_mask reg_val w
      = (e, w1)
      /\ e <> 0)
  /\ (val_len = 0 \/ 4 < val_len ->
      maxim2c_i2c_update host c reg_addr reg_len val_len val_mask reg_val w
      = (- EINVAL, w))
  /\ (fst (maxim2c_i2c_update host c reg_addr reg_len val_len val_mask
             reg_val w) = 0
      \/ fst (maxim2c_i2c_update host c reg_addr reg_len val_len val_mask
                reg_val w) = - EINVAL
      \/ fst (maxim2c_i2c_update host c reg_addr reg_len val_len val_mask
                reg_val w) = - EIO).
Proof.
  split; [| split].
  - intros e w1 H. split.
    + unfold maxim2c_i2c_update, bind. now rewrite H.
    + destruct (maxim2c_i2c_read_err_inv host c reg_addr reg_len val_len
                  w e w1 H) as [-> | ->]; discriminate.
  - intros H. unfold maxim2c_i2c_update, maxim2c_i2c_read, bind.
    assert (E : (4 <? val_len) || (val_len =? 0) = true).
    { apply orb_true_iff. destruct H; [right | left]; lia. }
    now rewrite E.
  - unfold maxim2c_i2c_update, bind.
    destruct (maxim2c_i2c_read host c reg_addr reg_len val_len w)
      as [[v | e] w1] eqn:H.
    + apply maxim2c_i2c_write_codes.
    + destruct (maxim2c_i2c_read_err_inv host c reg_addr reg_len val_len
                  w e w1 H) as [-> | ->]; cbn [fst pure]; tauto.
Qed.

(** A bus that rejects the read, and a value length of 0. *)
Lemma update_writes_only_after_a_successful_read_witness :
  maxim2c_i2c_update (sim_host (Some 3)) des 787 2 1 15 165 []
  = (-5, [I2cTransfer 72 [Some 3; Some 19] 1])
  /\ maxim2c_i2c_update (sim_host None) des 787 2 0 15 165 [] = (-22, []).
Proof.
  pose proof (update_writes_only_after_a_successful_read (sim_host (Some 3))
                des 787 2 1 15 165 []) as [H1 _].
  pose proof (update_writes_only_after_a_successful_read (sim_host None)
                des 787 2 0 15 165 []) as [_ [H2 _]].
  split.
  - apply (H1 (-5) [I2cTransfer 72 [Some 3; Some 19] 1]). reflexivity.
  - apply H2. left. reflexivity.
Defined.

(** X8. A [maxim2c_i2c_update] with a 1- or 2-byte address whose read
    succeeds puts exactly two requests on the bus: the read transfer, then a
    send whose address bytes are those of the transfer and whose value bytes
    encode the merged value. *)
Theorem update_addresses_one_register (host : host_model) (c : i2c_client)
  (reg_addr reg_len val_len val_mask reg_val : Z) (w : world) (v : Z)
  (w1 : world) :
  reg_len = 1 \/ reg_len = 2 ->
  0 <= val_len ->
  maxim2c_i2c_read host c reg_addr reg_len val_len w = (Ok v, w1) ->
  snd (maxim2c_i2c_update host c reg_addr reg_len val_len val_mask reg_val w)
  = [I2cMasterSend (addr c)
       (map Some
          (last_bytes reg_len (cpu_to_be16 reg_addr)
           ++ last_bytes val_len
                (cpu_to_be32
                   (Z.lor (Z.land v (Z.lnot val_mask))
                      (Z.land reg_val val_mask)))));
     I2cTransfer (addr c)
       (map Some (last_bytes reg_len (cpu_to_be16 reg_addr))) val_len]
    ++ w.
Proof.
  intros Hr H0 H.
  destruct (maxim2c_i2c_read_ok_inv host c reg_addr reg_len val_len w v w1
              H0 H) as (Hv & _ & _).
  pose proof (maxim2c_i2c_read_range host c reg_addr reg_len val_len w v w1 H)
    as Hrange.
  unfold maxim2c_i2c_update, bind. rewrite H.
  rewrite merge_u32 by exact Hrange.
  rewrite maxim2c_i2c_write_message by (assumption || lia).
  rewrite maxim2c_i2c_read_message in H by lia.
  cbv zeta in *. inversion H; subst. reflexivity.
Qed.

(** The two requests of an update of register 0x0313. *)
Lemma update_addresses_one_register_witness :
  snd (maxim2c_i2c_update (sim_host None) des 787 2 1 15 165
         [I2cMasterSend 72 [Some 3; Some 19; Some 60]])
  = [I2cMasterSend 72 [Some 3; Some 19; Some 53];
     I2cTransfer 72 [Some 3; Some 19] 1;
     I2cMasterSend 72 [Some 3; Some 19; Some 60]].
Proof.
  apply (update_addresses_one_register (sim_host None) des 787 2 1 15 165
           [I2cMasterSend 72 [Some 3; Some 19; Some 60]] 60
           [I2cTransfer 72 [Some 3; Some 19] 1;
            I2cMasterSend 72 [Some 3; Some 19; Some 60]]).
  - right. reflexivity.
  - lia.
  - reflexivity.
Defined.

Section ArrayBounds.

Variable host : host_model.
Variable MAXIM2C_REG_NULL : Z.
Variable c : i2c_client.

(** A list that holds an end entry is never read past its end. *)
Lemma write_array_from_terminated regs :
  Exists (fun r => reg_addr r = MAXIM2C_REG_NULL) regs ->
  forall e w,
    fst (write_array_from host MAXIM2C_REG_NULL c e regs w) <> None.
Proof.
  induction regs as [| r regs IH]; intros Hex e w.
  - inversion Hex.
  - destruct (Z.eq_dec e 0) as [-> | He].
    + destruct (Z.eq_dec (reg_addr r) MAXIM2C_REG_NULL) as [E | E].
      * simpl. rewrite E, Z.eqb_refl. discriminate.
      * rewrite write_array_from_live by exact E.
        destruct (write_array_entry host c r w) as [e' w'].
        apply IH. inversion Hex as [? ? Hx | ? ? Hx]; subst;
          [contradiction | exact Hx].
    + rewrite write_array_from_failed by exact He. discriminate.
Qed.

(** Without an end entry, a list whose entries all succeed is read past its
    end. *)
Lemma write_array_from_unterminated regs :
  forall w w',
    Forall (live_entry MAXIM2C_REG_NULL) regs ->
    all_succeed host c regs w w' ->
    write_array_from host MAXIM2C_REG_NULL c 0 regs w = (None, w').
Proof.
  induction regs as [| r regs IH]; intros w w' Hl Hall.
  - inversion Hall; subst. reflexivity.
  - inversion Hl as [| x l Hx Hl']; subst x l.
    inversion Hall as [| x l wa wb wc Hr Hrest]; subst.
    rewrite write_array_from_live by exact Hx.
    rewrite Hr. apply IH; assumption.
Qed.

End ArrayBounds.

Section ParseFacts.

Variable host : host_model.
Variable MAXIM2C_REG_NULL : Z.

(** The five ways the decoder ends: one of its four returns, or a turn of
    the loop that leaves the buffers, which only happens once both
    allocations are made. *)
Lemma maxim2c_i2c_parse_init_seq_cases seq_data data_len init_seq w :
  maxim2c_i2c_parse_init_seq host MAXIM2C_REG_NULL seq_data data_len
    init_seq w
  = (Some (- EINVAL, init_seq), w)
  \/ (exists s,
         init_seq = Some s
         /\ maxim2c_i2c_parse_init_seq host MAXIM2C_REG_NULL seq_data
              data_len init_seq w
            = (Some (- ENOMEM, Some s), [DevmKmemdup data_len] ++ w))
  \/ (exists s,
         init_seq = Some s
         /\ maxim2c_i2c_parse_init_seq host MAXIM2C_REG_NULL seq_data
              data_len init_seq w
            = (Some (- ENOMEM,
                     Some {| reg_init_seq := None;
                             reg_seq_size :=
                               u32 (u32 data_len / seq_item_size s + 1);
                             seq_item_size := seq_item_size s;
                             seq_reg_len := seq_reg_len s;
                             seq_val_len := seq_val_len s |}),
               [DevmKcalloc (u32 (u32 data_len / seq_item_size s + 1));
                DevmKmemdup data_len] ++ w))
  \/ (exists s a,
         init_seq = Some s
         /\ maxim2c_i2c_parse_init_seq host MAXIM2C_REG_NULL seq_data
              data_len init_seq w
            = (Some (0,
                     Some {| reg_init_seq := Some a;
                             reg_seq_size :=
                               u32 (u32 data_len / seq_item_size s + 1);
                             seq_item_size := seq_item_size s;
                             seq_reg_len := seq_reg_len s;
                             seq_val_len := seq_val_len s |}),
               [DevmKcalloc (u32 (u32 data_len / seq_item_size s + 1));
                DevmKmemdup data_len] ++ w))
  \/ (exists s,
         init_seq = Some s
         /\ maxim2c_i2c_parse_init_seq host MAXIM2C_REG_NULL seq_data
              data_len init_seq w
            = (None,
               [DevmKcalloc (u32 (u32 data_len / seq_item_size s + 1));
                DevmKmemdup data_len] ++ w)).
Proof.
  unfold maxim2c_i2c_parse_init_seq, bind, call, pure.
  destruct seq_data as [data |]; [| now left].
  destruct init_seq as [s |]; [| now left].
  destruct ((seq_item_size s =? 0) || (data_len =? 0)
            || (seq_reg_len s =? 0) || (seq_val_len s =? 0)); [now left |].
  destruct (negb (u32 data_len mod seq_item_size s =? 0)); [now left |].
  destruct (negb (seq_item_size s
                  =? u32 (seq_reg_len s + seq_val_len s * 2 + 1)));
    [now left |].
  cbv beta iota zeta.
  cbn [reg_seq_size set_reg_seq_size seq_item_size seq_reg_len seq_val_len
       fst snd].
  destruct (ret (host w (DevmKmemdup data_len)) =? 0).
  { right. left. exists s. split; reflexivity. }
  match goal with
  | |- context [if ?b then _ else _] => destruct b
  end.
  { right. right. left. exists s. split; reflexivity. }
  match goal with
  | |- context [parse_loop ?n ?s' ?d ?i ?p ?a] =>
      destruct (parse_loop n s' d i p a) as [a1 |]
  end.
  2: { do 4 right. exists s. split; reflexivity. }
  match goal with
  | |- context [array_set ?a ?n ?e] =>
      destruct (array_set a n e) as [a2 |]
  end.
  - right. right. right. left. eexists s, _. split; reflexivity.
  - do 4 right. exists s. split; reflexivity.
Qed.


(** The decoder step by step, for a data length that is an [int] and not
    negative: what its validation rejects, what it lets through, the two
    allocations, and the loop. *)
Lemma maxim2c_i2c_parse_init_seq_unfold data data_len s w :
  0 <= data_len < 2 ^ 31 ->
  ((seq_item_size s = 0 \/ data_len = 0 \/ seq_reg_len s = 0
    \/ seq_val_len s = 0 \/ data_len mod seq_item_size s <> 0
    \/ seq_item_size s <> u32 (seq_reg_len s + seq_val_len s * 2 + 1))
   /\ maxim2c_i2c_parse_init_seq host MAXIM2C_REG_NULL (Some data) data_len
        (Some s) w
      = (Some (- EINVAL, Some s), w))
  \/ ((0 < seq_item_size s
       /\ seq_reg_len s <> 0 /\ seq_val_len s <> 0
       /\ seq_item_size s = u32 (seq_reg_len s + seq_val_len s * 2 + 1)
       /\ 0 < data_len / seq_item_size s
       /\ data_len / seq_item_size s * seq_item_size s = data_len)
      /\ ((ret (host w (DevmKmemdup data_len)) = 0
           /\ maxim2c_i2c_parse_init_seq host MAXIM2C_REG_NULL (Some data)
                data_len (Some s) w
              = (Some (- ENOMEM, Some s), [DevmKmemdup data_len] ++ w))
          \/ (ret (host w (DevmKmemdup data_len)) <> 0
              /\ ret (host (DevmKmemdup data_len :: w)
                        (DevmKcalloc (data_len / seq_item_size s + 1))) = 0
              /\ maxim2c_i2c_parse_init_seq host MAXIM2C_REG_NULL
                   (Some data) data_len (Some s) w
                 = (Some (- ENOMEM,
                          Some {| reg_init_seq := None;
                                  reg_seq_size :=
                                    data_len / seq_item_size s + 1;
                                  seq_item_size := seq_item_size s;
                                  seq_reg_len := seq_reg_len s;
                                  seq_val_len := seq_val_len s |}),
                    [DevmKcalloc (data_len / seq_item_size s + 1);
                     DevmKmemdup data_len] ++ w))
          \/ (ret (host w (DevmKmemdup data_len)) <> 0
              /\ ret (host (DevmKmemdup data_len :: w)
                        (DevmKcalloc (data_len / seq_item_size s + 1)))
                 <> 0
              /\ maxim2c_i2c_parse_init_seq host MAXIM2C_REG_NULL
                   (Some data) data_len (Some s) w
                 = (match
                      parse_loop (Z.to_nat (data_len / seq_item_size s)) s
                        (firstn (Z.to_nat data_len) data) 0 0
                        (repeat regval_zero
                           (Z.to_nat (data_len / seq_item_size s + 1)))
                    with
                    | None => None
                    | Some a =>
                        match
                          array_set a
                            (Z.to_nat (data_len / seq_item_size s))
                            (end_setting MAXIM2C_REG_NULL s
                               (nth (Z.to_nat (data_len / seq_item_size s))
                                  a regval_zero))
                        with
                        | None => None
                        | Some a =>
                            Some (0,
                                  Some {| reg_init_seq := Some a;
                                          reg_seq_size :=
                                            data_len / seq_item_size s + 1;
                                          seq_item_size := seq_item_size s;
                                          seq_reg_len := seq_reg_len s;
                                          seq_val_len := seq_val_len s |})
                        end
                    end,
                    [DevmKcalloc (data_len / seq_item_size s + 1);
                     DevmKmemdup data_len] ++ w)))).
Proof.
  intros Hlen.
  unfold maxim2c_i2c_parse_init_seq, bind, call, pure.
  rewrite (u32_small data_len) by lia.
  destruct (Z.eqb_spec (seq_item_size s) 0) as [| Hsz];
    [cbn [orb]; left; split; [tauto | reflexivity] |].
  destruct (Z.eqb_spec data_len 0) as [| Hd];
    [cbn [orb]; left; split; [tauto | reflexivity] |].
  destruct (Z.eqb_spec (seq_reg_len s) 0) as [| Hrl];
    [cbn [orb]; left; split; [tauto | reflexivity] |].
  destruct (Z.eqb_spec (seq_val_len s) 0) as [| Hvl];
    [cbn [orb]; left; split; [tauto | reflexivity] |].
  cbn [orb].
  destruct (Z.eqb_spec (data_len mod seq_item_size s) 0) as [Hm |];
    [| left; split; [tauto | reflexivity]].
  destruct (Z.eqb_spec (seq_item_size s)
              (u32 (seq_reg_len s + seq_val_len s * 2 + 1))) as [Hs |];
    [| left; split; [tauto | reflexivity]].
  cbn [negb].
  assert (Hpos : 0 < seq_item_size s).
  { pose proof (u32_range (seq_reg_len s + seq_val_len s * 2 + 1)). lia. }
  set (q := data_len / seq_item_size s).
  assert (Hq : q * seq_item_size s = data_len).
  { unfold q.
    pose proof (Z.div_mod data_len (seq_item_size s) ltac:(lia)). lia. }
  assert (Hq0 : 0 < q) by nia.
  assert (Hq1 : q <= data_len) by nia.
  right. split; [repeat split; assumption |].
  cbv beta iota zeta.
  cbn [reg_seq_size set_reg_seq_size seq_item_size seq_reg_len seq_val_len
       fst snd].
  fold q.
  destruct (Z.eqb_spec (ret (host w (DevmKmemdup data_len))) 0) as [E1 | E1];
    [left; split; [exact E1 | reflexivity] |].
  rewrite (u32_small (q + 1)) by lia.
  destruct (Z.eqb_spec
              (ret (host (DevmKmemdup data_len :: w) (DevmKcalloc (q + 1))))
              0) as [E2 | E2];
    [right; left; split; [exact E1 | split; [exact E2 | reflexivity]] |].
  right. right. split; [exact E1 | split; [exact E2 |]].
  replace (q + 1 - 1) with q by lia.
  rewrite (u32_small q) by lia.
  rewrite (parse_loop_lengths
             (set_reg_seq_size (set_reg_seq_size s q) (q + 1)) s)
    by reflexivity.
  destruct (parse_loop _ s _ _ _ _) as [a1 |]; [| reflexivity].
  unfold end_setting. cbn [seq_reg_len set_reg_seq_size].
  destruct (array_set a1 _ _) as [a2 |]; reflexivity.
Qed.

(** When a turn of the loop reads no more than an item, the decoder stays
    inside the copy of the data and the array, and what it leaves on
    success ends with the end entry. *)
Lemma maxim2c_i2c_parse_init_seq_inside data data_len s w :
  0 <= data_len < 2 ^ 31 ->
  data_len <= Z.of_nat (length data) ->
  (seq_item_size s = u32 (seq_reg_len s + seq_val_len s * 2 + 1) ->
   item_bytes_read s <= seq_item_size s) ->
  (exists code,
      code <> 0
      /\ (maxim2c_i2c_parse_init_seq host MAXIM2C_REG_NULL (Some data)
            data_len (Some s) w
          = (Some (code, Some s), w)
          \/ maxim2c_i2c_parse_init_seq host MAXIM2C_REG_NULL (Some data)
               data_len (Some s) w
             = (Some (code, Some s), [DevmKmemdup data_len] ++ w)
          \/ maxim2c_i2c_parse_init_seq host MAXIM2C_REG_NULL (Some data)
               data_len (Some s) w
             = (Some (code,
                      Some {| reg_init_seq := None;
                              reg_seq_size := data_len / seq_item_size s + 1;
                              seq_item_size := seq_item_size s;
                              seq_reg_len := seq_reg_len s;
                              seq_val_len := seq_val_len s |}),
                [DevmKcalloc (data_len / seq_item_size s + 1);
                 DevmKmemdup data_len] ++ w)))
  \/ (exists a,
         maxim2c_i2c_parse_init_seq host MAXIM2C_REG_NULL (Some data)
           data_len (Some s) w
         = (Some (0,
                  Some {| reg_init_seq := Some a;
                          reg_seq_size := data_len / seq_item_size s + 1;
                          seq_item_size := seq_item_size s;
                          seq_reg_len := seq_reg_len s;
                          seq_val_len := seq_val_len s |}),
            [DevmKcalloc (data_len / seq_item_size s + 1);
             DevmKmemdup data_len] ++ w)
         /\ length a = Z.to_nat (data_len / seq_item_size s + 1)
         /\ 0 <= data_len / seq_item_size s
         /\ reg_addr (nth (Z.to_nat (data_len / seq_item_size s)) a
                        regval_zero)
            = u16 MAXIM2C_REG_NULL).
Proof.
  intros Hlen Hdata Hread.
  destruct (maxim2c_i2c_parse_init_seq_unfold data data_len s w Hlen)
    as [[_ E] | [(Hpos & _ & _ & Hs & Hq0 & Hq) [[_ E] | [(_ & _ & E)
                                                        | (_ & _ & E)]]]].
  - left. exists (- EINVAL). split; [discriminate | left; exact E].
  - left. exists (- ENOMEM). split; [discriminate | right; left; exact E].
  - left. exists (- ENOMEM). split; [discriminate | right; right; exact E].
  - right. specialize (Hread Hs).
    set (q := data_len / seq_item_size s) in *.
    assert (Hbuf : length (firstn (Z.to_nat data_len) data)
                   = Z.to_nat data_len)
      by (rewrite length_firstn; lia).
    destruct (parse_loop_inside (Z.to_nat q) s
                (firstn (Z.to_nat data_len) data) 0 0
                (repeat regval_zero (Z.to_nat (q + 1))))
      as [a1 E1].
    { lia. }
    { rewrite Hbuf. nia. }
    { rewrite repeat_length. lia. }
    rewrite E1 in E.
    pose proof (length_parse_loop _ _ _ _ _ _ _ E1) as L1.
    rewrite repeat_length in L1.
    destruct (array_set_inside a1 (Z.to_nat q)
                (end_setting MAXIM2C_REG_NULL s
                   (nth (Z.to_nat q) a1 regval_zero)))
      as [a2 E2]; [lia |].
    rewrite E2 in E.
    destruct (array_set_some _ _ _ _ regval_zero E2) as (_ & L2 & N2).
    exists a2. split; [exact E |].
    split; [lia |]. split; [lia |].
    rewrite N2. reflexivity.
Qed.

(** When a turn of the loop reads more than an item, which takes a sum
    [reg_len + val_len * 2 + 1] that wrapped, and the validation and both
    allocations went through, the loop leaves the copy of the data. *)
Lemma maxim2c_i2c_parse_init_seq_outside data data_len s w :
  0 <= data_len < 2 ^ 31 ->
  seq_item_size s <> 0 -> data_len <> 0 ->
  seq_reg_len s <> 0 -> seq_val_len s <> 0 ->
  data_len mod seq_item_size s = 0 ->
  seq_item_size s = u32 (seq_reg_len s + seq_val_len s * 2 + 1) ->
  ret (host w (DevmKmemdup data_len)) <> 0 ->
  ret (host (DevmKmemdup data_len :: w)
         (DevmKcalloc (data_len / seq_item_size s + 1))) <> 0 ->
  seq_item_size s < item_bytes_read s ->
  maxim2c_i2c_parse_init_seq host MAXIM2C_REG_NULL (Some data) data_len
    (Some s) w
  = (None,
     [DevmKcalloc (data_len / seq_item_size s + 1); DevmKmemdup data_len]
     ++ w).
Proof.
  intros Hlen V1 V2 V3 V4 V5 V6 A1 A2 Hread.
  destruct (maxim2c_i2c_parse_init_seq_unfold data data_len s w Hlen)
    as [[N _] | [(Hpos & _ & _ & Hs & Hq0 & Hq) [[N _] | [(_ & N & _)
                                                        | (_ & _ & E)]]]];
    try tauto.
  rewrite E.
  rewrite parse_loop_outside; [reflexivity | |].
  - rewrite length_firstn. lia.
  - rewrite length_firstn.
    set (q := data_len / seq_item_size s) in *. nia.
Qed.

End ParseFacts.

(** X9. [maxim2c_i2c_write_array] stays inside a list that holds an entry
    with [reg_addr = MAXIM2C_REG_NULL] somewhere, whatever the bus does; a
    list without one whose entries all succeed (the empty list included) is
    read past its end. *)
Theorem write_array_needs_an_end_entry (host : host_model)
  (MAXIM2C_REG_NULL : Z) (c : i2c_client)
  (regs : list maxim2c_i2c_regval) (w : world) :
  (Exists (fun r => reg_addr r = MAXIM2C_REG_NULL) regs ->
   fst (maxim2c_i2c_write_array host MAXIM2C_REG_NULL c regs w) <> None)
  /\ (forall w',
         Forall (live_entry MAXIM2C_REG_NULL) regs ->
         all_succeed host c regs w w' ->
         maxim2c_i2c_write_array host MAXIM2C_REG_NULL c regs w
         = (None, w')).
Proof.
  split.
  - intros H. now apply write_array_from_terminated.
  - intros w' Hl Hall. now apply write_array_from_unterminated.
Qed.

(** One setting with and without the end entry. *)
Lemma write_array_needs_an_end_entry_witness :
  fst (maxim2c_i2c_write_array (sim_host None) 65535 des
         [regval8 787 96 0 0; regval8 65535 0 0 0] []) <> None
  /\ maxim2c_i2c_write_array (sim_host None) 65535 des
       [regval8 787 96 0 0] []
     = (None, [I2cMasterSend 72 [Some 3; Some 19; Some 96]]).
Proof.
  split.
  - apply (proj1 (write_array_needs_an_end_entry (sim_host None) 65535 des
                    [regval8 787 96 0 0; regval8 65535 0 0 0] [])).
    apply Exists_cons_tl. apply Exists_cons_hd. reflexivity.
  - apply (proj2 (write_array_needs_an_end_entry (sim_host None) 65535 des
                    [regval8 787 96 0 0] [])).
    + apply Forall_cons; [discriminate | apply Forall_nil].
    + apply (all_succeed_cons _ _ _ _ _
               [I2cMasterSend 72 [Some 3; Some 19; Some 96]]);
        [reflexivity | apply all_succeed_nil].
Defined.

Lemma nth_Exists {A : Type} (P : A -> Prop) (l : list A) (i : nat) (d : A) :
  (i < length l)%nat -> P (nth i l d) -> Exists P l.
Proof.
  intros Hi Hp. apply Exists_exists. exists (nth i l d).
  split; [now apply nth_In | exact Hp].
Qed.

(** X10. A turn of the decoding loop reads [item_bytes_read] bytes: a
    length of 1 to 4 counts, a length that matches no label of the [switch]
    reads nothing. When that is at most [seq_item_size], which is so
    whenever [reg_len + val_len * 2 + 1] stays below [2 ^ 32],
    [maxim2c_i2c_parse_init_seq] stays inside its buffers, and whenever it
    returns 0 the array it leaves has
    [reg_seq_size = data_len / seq_item_size + 1] entries, its last entry
    has [reg_addr = MAXIM2C_REG_NULL], exactly two allocations were made
    ([devm_kmemdup] then [devm_kcalloc]), and [maxim2c_i2c_run_init_seq] on
    the result never reads past the array. When a turn reads more than
    [seq_item_size], which takes a sum that wrapped, and the validation and
    both allocations go through, the loop reads outside the copy of the
    data. *)
Theorem parse_init_seq_always_ends_the_array (host : host_model)
  (MAXIM2C_REG_NULL : Z) (data : list Z) (data_len : Z)
  (s : maxim2c_i2c_init_seq) (w : world) :
  0 <= data_len < 2 ^ 31 ->
  data_len <= Z.of_nat (length data) ->
  0 <= MAXIM2C_REG_NULL < 2 ^ 16 ->
  (item_bytes_read s <= seq_item_size s
   \/ (0 <= seq_reg_len s /\ 0 <= seq_val_len s
       /\ seq_reg_len s + seq_val_len s * 2 + 1 < 2 ^ 32) ->
   exists code s',
     fst (maxim2c_i2c_parse_init_seq host MAXIM2C_REG_NULL (Some data)
            data_len (Some s) w) = Some (code, Some s')
     /\ (code = 0 ->
         exists a,
           reg_init_seq s' = Some a
           /\ reg_seq_size s' = data_len / seq_item_size s + 1
           /\ Z.of_nat (length a) = reg_seq_size s'
           /\ reg_addr (nth (length a - 1) a regval_zero) = MAXIM2C_REG_NULL
           /\ snd (maxim2c_i2c_parse_init_seq host MAXIM2C_REG_NULL
                     (Some data) data_len (Some s) w)
              = [DevmKcalloc (reg_seq_size s'); DevmKmemdup data_len] ++ w
           /\ forall host' c w',
                fst (maxim2c_i2c_run_init_seq host' MAXIM2C_REG_NULL c
                       (Some s') w')
                <> None))
  /\ (seq_item_size s < item_bytes_read s ->
      seq_item_size s <> 0 -> data_len <> 0 ->
      seq_reg_len s <> 0 -> seq_val_len s <> 0 ->
      data_len mod seq_item_size s = 0 ->
      seq_item_size s = u32 (seq_reg_len s + seq_val_len s * 2 + 1) ->
      ret (host w (DevmKmemdup data_len)) <> 0 ->
      ret (host (DevmKmemdup data_len :: w)
             (DevmKcalloc (data_len / seq_item_size s + 1))) <> 0 ->
      maxim2c_i2c_parse_init_seq host MAXIM2C_REG_NULL (Some data) data_len
        (Some s) w
      = (None,
         [DevmKcalloc (data_len / seq_item_size s + 1);
          DevmKmemdup data_len] ++ w)).
Proof.
  intros Hlen Hdata Hnull. split.
  - intros Hread.
    assert (Hin : seq_item_size s
                  = u32 (seq_reg_len s + seq_val_len s * 2 + 1) ->
                  item_bytes_read s <= seq_item_size s).
    { destruct Hread as [H | (Hr & Hv & Hsum)]; [intros _; exact H |].
      rewrite u32_small by lia. intros ->. unfold item_bytes_read.
      pose proof (bytes_read_le (seq_reg_len s) Hr).
      pose proof (bytes_read_le (seq_val_len s) Hv). lia. }
    destruct (maxim2c_i2c_parse_init_seq_inside host MAXIM2C_REG_NULL data
                data_len s w Hlen Hdata Hin)
      as [(code & Hc & [E | [E | E]]) | (a & E & Hl & Hq & Hterm)];
      rewrite E; cbn [fst snd].
    + eexists _, _. split; [reflexivity | intros H; contradiction].
    + eexists _, _. split; [reflexivity | intros H; contradiction].
    + eexists _, _. split; [reflexivity | intros H; contradiction].
    + rewrite u16_small in Hterm by exact Hnull.
      eexists _, _. split; [reflexivity |]. intros _.
      exists a. cbn [reg_init_seq reg_seq_size].
      assert (Hidx : (length a - 1)%nat
                     = Z.to_nat (data_len / seq_item_size s)) by lia.
      split; [reflexivity |]. split; [reflexivity |].
      split; [lia |]. split; [now rewrite Hidx |].
      split; [reflexivity |].
      intros host' c w'. unfold maxim2c_i2c_run_init_seq.
      cbn [reg_init_seq]. unfold maxim2c_i2c_write_array.
      apply write_array_from_terminated.
      apply (nth_Exists _ a (Z.to_nat (data_len / seq_item_size s))
               regval_zero); [lia | exact Hterm].
  - intros Hread V1 V2 V3 V4 V5 V6 A1 A2.
    now apply maxim2c_i2c_parse_init_seq_outside.
Qed.

(** Two items of 8 bytes with a 5-byte address: three bytes are read a
    turn, and the array ends with the end entry. A two-byte item with
    [reg_len = 0xFFFFFFFF] and [val_len = 1]: the sum wraps to 2, three
    bytes are read, and the loop leaves the two-byte copy. *)
Lemma parse_init_seq_always_ends_the_array_witness :
  (exists code s',
     fst (maxim2c_i2c_parse_init_seq (sim_host None) 65535
            (Some [0; 0; 0; 3; 19; 96; 15; 2; 0; 0; 0; 3; 20; 7; 0; 0])
            16 (Some (init_seq_header 8 5 1)) []) = Some (code, Some s')
     /\ (code = 0 ->
         exists a,
           reg_init_seq s' = Some a
           /\ reg_seq_size s' = 16 / seq_item_size (init_seq_header 8 5 1) + 1
           /\ Z.of_nat (length a) = reg_seq_size s'
           /\ reg_addr (nth (length a - 1) a regval_zero) = 65535
           /\ snd (maxim2c_i2c_parse_init_seq (sim_host None) 65535
                     (Some [0; 0; 0; 3; 19; 96; 15; 2;
                            0; 0; 0; 3; 20; 7; 0; 0])
                     16 (Some (init_seq_header 8 5 1)) [])
              = [DevmKcalloc (reg_seq_size s'); DevmKmemdup 16] ++ []
           /\ forall host' c w',
                fst (maxim2c_i2c_run_init_seq host' 65535 c (Some s') w')
                <> None))
  /\ maxim2c_i2c_parse_init_seq (sim_host None) 65535 (Some [10; 20]) 2
       (Some (init_seq_header 2 4294967295 1)) []
     = (None, [DevmKcalloc 2; DevmKmemdup 2]).
Proof.
  split.
  - apply (proj1 (parse_init_seq_always_ends_the_array (sim_host None) 65535
                    [0; 0; 0; 3; 19; 96; 15; 2; 0; 0; 0; 3; 20; 7; 0; 0] 16
                    (init_seq_header 8 5 1) []
                    ltac:(lia) ltac:(simpl; lia) ltac:(lia))).
    left. vm_compute. discriminate.
  - apply (proj2 (parse_init_seq_always_ends_the_array (sim_host None) 65535
                    [10; 20] 2 (init_seq_header 2 4294967295 1) []
                    ltac:(lia) ltac:(simpl; lia) ltac:(lia))).
    + vm_compute. reflexivity.
    + discriminate.
    + discriminate.
    + discriminate.
    + discriminate.
    + reflexivity.
    + vm_compute. reflexivity.
    + discriminate.
    + discriminate.
Defined.

(** X11. When it returns, [maxim2c_i2c_parse_init_seq] returns 0,
    [-EINVAL] or [-ENOMEM]. [-EINVAL] means nothing was allocated and the
    structure is untouched. [-ENOMEM] means either [devm_kmemdup] failed,
    with the structure untouched, or [devm_kcalloc] failed, and then
    [reg_seq_size] already holds the new size while [reg_init_seq] is NULL.
    It leaves its buffers only in the loop, after both allocations. *)
Theorem parse_init_seq_failure_modes (host : host_model)
  (MAXIM2C_REG_NULL : Z) (seq_data : option (list Z)) (data_len : Z)
  (init_seq : option maxim2c_i2c_init_seq) (w : world) :
  (forall code s',
      fst (maxim2c_i2c_parse_init_seq host MAXIM2C_REG_NULL seq_data
             data_len init_seq w) = Some (code, s') ->
      (code = 0 \/ code = - EINVAL \/ code = - ENOMEM)
      /\ (code = - EINVAL ->
          s' = init_seq
          /\ snd (maxim2c_i2c_parse_init_seq host MAXIM2C_REG_NULL seq_data
                    data_len init_seq w) = w)
      /\ (code = - ENOMEM ->
          (s' = init_seq
           /\ snd (maxim2c_i2c_parse_init_seq host MAXIM2C_REG_NULL seq_data
                     data_len init_seq w)
              = [DevmKmemdup data_len] ++ w)
          \/ (exists s s'',
                 init_seq = Some s
                 /\ s' = Some s''
                 /\ reg_init_seq s'' = None
                 /\ reg_seq_size s''
                    = u32 (u32 data_len / seq_item_size s + 1)
                 /\ snd (maxim2c_i2c_parse_init_seq host MAXIM2C_REG_NULL
                           seq_data data_len init_seq w)
                    = [DevmKcalloc (reg_seq_size s''); DevmKmemdup data_len]
                      ++ w)))
  /\ (fst (maxim2c_i2c_parse_init_seq host MAXIM2C_REG_NULL seq_data
             data_len init_seq w) = None ->
      exists s,
        init_seq = Some s
        /\ snd (maxim2c_i2c_parse_init_seq host MAXIM2C_REG_NULL seq_data
                  data_len init_seq w)
           = [DevmKcalloc (u32 (u32 data_len / seq_item_size s + 1));
              DevmKmemdup data_len] ++ w).
Proof.
  destruct (maxim2c_i2c_parse_init_seq_cases host MAXIM2C_REG_NULL seq_data
              data_len init_seq w)
    as [E | [(s & Hs & E) | [(s & Hs & E) | [(s & a & Hs & E)
                                            | (s & Hs & E)]]]];
    rewrite E; cbn [fst snd]; (split; [intros code s' H | intros H]);
    try discriminate;
    try (inversion H; subst code s'; clear H; split; [| split]).
  - tauto.
  - intros _. split; reflexivity.
  - intros H. unfold EINVAL, ENOMEM in H. lia.
  - tauto.
  - intros H. unfold EINVAL, ENOMEM in H. lia.
  - intros _. left. rewrite Hs. split; reflexivity.
  - tauto.
  - intros H. unfold EINVAL, ENOMEM in H. lia.
  - intros _. right. eexists s, _. repeat split. exact Hs.
  - tauto.
  - intros H. unfold EINVAL in H. lia.
  - intros H. unfold ENOMEM in H. lia.
  - exists s. split; [exact Hs | reflexivity].
Qed.

(** X12. For a node that is not available [maxim2c_i2c_load_init_seq]
    returns 0 without allocating, after dropping whatever sequence the
    structure held ([reg_init_seq] NULL, [reg_seq_size] 0) and without
    reading the size properties; running the result does nothing and
    returns 0. *)
Theorem load_init_seq_skips_a_disabled_node (host : host_model)
  (MAXIM2C_REG_NULL : Z) (node : init_seq_node)
  (s : maxim2c_i2c_init_seq) (w : world) :
  node_available node = false ->
  maxim2c_i2c_load_init_seq host MAXIM2C_REG_NULL (Some node) (Some s) w
  = (Some (0, Some {| reg_init_seq := None; reg_seq_size := 0;
                      seq_item_size := seq_item_size s;
                      seq_reg_len := seq_reg_len s;
                      seq_val_len := seq_val_len s |}), w)
  /\ forall code s',
       fst (maxim2c_i2c_load_init_seq host MAXIM2C_REG_NULL (Some node)
              (Some s) w) = Some (code, s') ->
       forall host' c w',
         maxim2c_i2c_run_init_seq host' MAXIM2C_REG_NULL c s' w'
         = (Some 0, w').
Proof.
  intros H. unfold maxim2c_i2c_load_init_seq. rewrite H.
  split; [reflexivity |].
  intros code s' E. inversion E; subst. reflexivity.
Qed.

(** X13. On an available node, a missing or empty "init-sequence", or a
    missing "seq-item-size", "reg-addr-len" or "reg-val-len", makes
    [maxim2c_i2c_load_init_seq] return [-EINVAL] without allocating, with
    [reg_init_seq] NULL and [reg_seq_size] 0. *)
Theorem load_init_seq_requires_every_property (host : host_model)
  (MAXIM2C_REG_NULL : Z) (node : init_seq_node)
  (s : maxim2c_i2c_init_seq) (w : world) :
  node_available node = true ->
  init_sequence node = None
  \/ init_sequence node = Some []
  \/ prop_seq_item_size node = None
  \/ prop_reg_addr_len node = None
  \/ prop_reg_val_len node = None ->
  exists s',
    maxim2c_i2c_load_init_seq host MAXIM2C_REG_NULL (Some node) (Some s) w
    = (Some (- EINVAL, Some s'), w)
    /\ reg_init_seq s' = None
    /\ reg_seq_size s' = 0.
Proof.
  intros Ha H. unfold maxim2c_i2c_load_init_seq. rewrite Ha. cbn [negb].
  destruct (init_sequence node) as [data |] eqn:Ed;
    [| eexists; repeat split].
  destruct data as [| b data]; [eexists; repeat split |].
  destruct (Z.eqb_spec (Z.of_nat (length (b :: data))) 0) as [E | _];
    [simpl length in E; lia |].
  destruct (prop_seq_item_size node) as [v1 |];
    [| eexists; repeat split].
  destruct (prop_reg_addr_len node) as [v2 |];
    [| eexists; repeat split].
  destruct (prop_reg_val_len node) as [v3 |];
    [| eexists; repeat split].
  destruct H as [H | [H | [H | [H | H]]]]; discriminate.
Qed.

(** X14. For a node whose "reg-addr-len" and "reg-val-len" keep
    [reg_len + val_len * 2 + 1] below [2 ^ 32],
    [maxim2c_i2c_load_init_seq] stays inside its buffers whatever else the
    node holds, and whatever it returns the structure afterwards either has
    no array (always so when the code is non-zero) or an array that ends
    with the end entry: [maxim2c_i2c_run_init_seq] on it never reads past
    the array. *)
Theorem load_then_run_stays_in_bounds (host : host_model)
  (MAXIM2C_REG_NULL : Z) (node : init_seq_node)
  (s : maxim2c_i2c_init_seq) (w : world) :
  0 <= MAXIM2C_REG_NULL < 2 ^ 16 ->
  (forall data,
      init_sequence node = Some data -> Z.of_nat (length data) < 2 ^ 31) ->
  (forall rl vl,
      prop_reg_addr_len node = Some rl -> prop_reg_val_len node = Some vl ->
      0 <= rl /\ 0 <= vl /\ rl + vl * 2 + 1 < 2 ^ 32) ->
  exists code s',
    fst (maxim2c_i2c_load_init_seq host MAXIM2C_REG_NULL (Some node)
           (Some s) w) = Some (code, Some s')
    /\ (code <> 0 -> reg_init_seq s' = None)
    /\ forall host' c w',
         fst (maxim2c_i2c_run_init_seq host' MAXIM2C_REG_NULL c (Some s') w')
         <> None.
Proof.
  intros Hnull Hlen Hsum.
  assert (Hnone : forall s0 : maxim2c_i2c_init_seq,
             reg_init_seq s0 = None ->
             forall host' c w',
               fst (maxim2c_i2c_run_init_seq host' MAXIM2C_REG_NULL c
                      (Some s0) w') <> None).
  { intros s0 E host' c w'. unfold maxim2c_i2c_run_init_seq. rewrite E.
    discriminate. }
  unfold maxim2c_i2c_load_init_seq.
  destruct (node_available node); cbn [negb];
    [| eexists _, _; split; [reflexivity | split; [reflexivity |]];
       now apply Hnone].
  destruct (init_sequence node) as [data |] eqn:Ed;
    [| eexists _, _; split; [reflexivity | split; [reflexivity |]];
       now apply Hnone].
  specialize (Hlen data eq_refl).
  destruct (Z.of_nat (length data) =? 0);
    [eexists _, _; split; [reflexivity | split; [reflexivity |]];
     now apply Hnone |].
  destruct (prop_seq_item_size node) as [v1 |];
    [| eexists _, _; split; [reflexivity | split; [reflexivity |]];
       now apply Hnone].
  destruct (prop_reg_addr_len node) as [v2 |];
    [| eexists _, _; split; [reflexivity | split; [reflexivity |]];
       now apply Hnone].
  destruct (prop_reg_val_len node) as [v3 |];
    [| eexists _, _; split; [reflexivity | split; [reflexivity |]];
       now apply Hnone].
  destruct (Hsum v2 v3 eq_refl eq_refl) as (Hr & Hv & Hs).
  set (s3 := set_seq_val_len _ v3).
  assert (Es3 : reg_init_seq s3 = None) by reflexivity.
  assert (Hin : seq_item_size s3
                = u32 (seq_reg_len s3 + seq_val_len s3 * 2 + 1) ->
                item_bytes_read s3 <= seq_item_size s3).
  { unfold item_bytes_read.
    change (seq_reg_len s3) with v2. change (seq_val_len s3) with v3.
    change (seq_item_size s3) with v1.
    rewrite u32_small by lia. intros E.
    pose proof (bytes_read_le v2 Hr). pose proof (bytes_read_le v3 Hv).
    lia. }
  destruct (maxim2c_i2c_parse_init_seq_inside host MAXIM2C_REG_NULL data
              (Z.of_nat (length data)) s3 w ltac:(lia) ltac:(lia) Hin)
    as [(code & Hc & [E | [E | E]]) | (a & E & Hl & Hq & Hterm)];
    rewrite E; cbn [fst snd].
  - eexists _, _. split; [reflexivity | split; [intros _; exact Es3 |]].
    now apply Hnone.
  - eexists _, _. split; [reflexivity | split; [intros _; exact Es3 |]].
    now apply Hnone.
  - eexists _, _. split; [reflexivity | split; [intros _; reflexivity |]].
    now apply Hnone.
  - eexists _, _.
    split; [reflexivity | split; [intros Hne; contradiction |]].
    intros host' c w'. unfold maxim2c_i2c_run_init_seq.
    cbn [reg_init_seq]. unfold maxim2c_i2c_write_array.
    apply write_array_from_terminated.
    rewrite u16_small in Hterm by exact Hnull.
    apply (nth_Exists _ a
             (Z.to_nat (Z.of_nat (length data) / seq_item_size s3))
             regval_zero); [lia | exact Hterm].
Qed.

(** X23. For a data length that is not negative and a header whose
    [reg_len + val_len * 2 + 1] stays below [2 ^ 32], the validation of
    [maxim2c_i2c_parse_init_seq] is the one its comments describe: the
    decoder fails with [-EINVAL], without calling the allocator and
    without writing to [*init_seq], exactly when [seq_data] or [init_seq]
    is NULL, or one of [seq_item_size], [data_len], [reg_len], [val_len]
    is zero, or [data_len] is not a multiple of [seq_item_size], or
    [seq_item_size] differs from [reg_len + val_len * 2 + 1]. *)
Theorem parse_init_seq_rejects (host : host_model) (MAXIM2C_REG_NULL : Z)
  (seq_data : option (list Z)) (data_len : Z)
  (init_seq : option maxim2c_i2c_init_seq) (w : world) :
  0 <= data_len < 2 ^ 31 ->
  (forall s,
      init_seq = Some s ->
      0 <= seq_reg_len s /\ 0 <= seq_val_len s
      /\ seq_reg_len s + seq_val_len s * 2 + 1 < 2 ^ 32) ->
  (seq_data = None
   \/ init_seq = None
   \/ (exists s,
          init_seq = Some s
          /\ (seq_item_size s = 0
              \/ data_len = 0
              \/ seq_reg_len s = 0
              \/ seq_val_len s = 0
              \/ data_len mod seq_item_size s <> 0
              \/ seq_item_size s
                 <> seq_reg_len s + seq_val_len s * 2 + 1)))
  <-> maxim2c_i2c_parse_init_seq host MAXIM2C_REG_NULL seq_data data_len
        init_seq w
      = (Some (- EINVAL, init_seq), w).
Proof.
  intros Hlen Hsum.
  destruct seq_data as [data |]; [| split; [reflexivity | tauto]].
  destruct init_seq as [s |]; [| split; [reflexivity | tauto]].
  destruct (Hsum s eq_refl) as (Hr & Hv & Hs).
  pose proof (maxim2c_i2c_parse_init_seq_unfold host MAXIM2C_REG_NULL data
                data_len s w Hlen) as U.
  rewrite (u32_small (seq_reg_len s + seq_val_len s * 2 + 1)) in U by lia.
  split.
  - intros [H | [H | (s' & Es & H)]]; try discriminate.
    inversion Es; subst s'; clear Es.
    destruct U as [[_ E] | [(Hpos & V3 & V4 & V6 & Hq0 & Hq) _]];
      [exact E |].
    exfalso.
    assert (data_len mod seq_item_size s = 0).
    { rewrite <- Hq. apply Z.mod_mul. lia. }
    assert (data_len <> 0) by nia.
    destruct H as [H | [H | [H | [H | [H | H]]]]]; lia.
  - intros E. right. right. exists s. split; [reflexivity |].
    destruct U as [[H _] | [_ [[_ E'] | [(_ & _ & E') | (_ & _ & E')]]]];
      [exact H | | |]; rewrite E' in E; exfalso.
    + inversion E.
    + inversion E.
    + destruct (parse_loop _ _ _ _ _ _) as [a1 |]; [| discriminate].
      destruct (array_set _ _ _) as [a2 |]; discriminate.
Qed.

(** X15. The select callback records the channel before it calls the link
    layer. When that call fails, the error is returned, but a later select
    of the same channel finds it recorded, returns 0 and calls nothing. *)
Theorem failed_select_is_not_retried (host : host_model) (m : maxim2c_t)
  (chan : Z) (w : world) :
  mux_disable (i2c_mux m) = false ->
  mux_channel (i2c_mux m) <> chan ->
  ret (host w (LinkSelectRemoteControl (BIT chan))) <> 0 ->
  fst (fst (maxim2c_i2c_mux_select host m chan w))
  = ret (host w (LinkSelectRemoteControl (BIT chan)))
  /\ forall host' w',
       maxim2c_i2c_mux_select host'
         (snd (fst (maxim2c_i2c_mux_select host m chan w))) chan w'
       = ((0, snd (fst (maxim2c_i2c_mux_select host m chan w))), w').
Proof.
  intros Hen Hne Hfail.
  unfold maxim2c_i2c_mux_select at 1 3 4. rewrite Hen.
  destruct (Z.eqb_spec (mux_channel (i2c_mux m)) chan) as [| _];
    [contradiction |].
  unfold bind, call, pure. cbn [fst snd].
  split; [reflexivity |].
  intros host' w'. unfold maxim2c_i2c_mux_select.
  cbn [i2c_mux set_i2c_mux mux_disable set_mux_channel mux_channel].
  rewrite Hen, Z.eqb_refl. reflexivity.
Qed.

(** X16. [maxim2c_i2c_mux_enable] calls the link layer once with
    [def_mask]. When that fails the device state is unchanged. When it
    succeeds the recorded channel is forgotten: the next select of any
    channel calls the link layer with [BIT(chan)]. *)
Theorem enable_forgets_the_selected_channel (host : host_model)
  (m : maxim2c_t) (def_mask : Z) (w : world) :
  snd (maxim2c_i2c_mux_enable host m def_mask w)
  = LinkSelectRemoteControl def_mask :: w
  /\ (fst (fst (maxim2c_i2c_mux_enable host m def_mask w)) <> 0 ->
      snd (fst (maxim2c_i2c_mux_enable host m def_mask w)) = m)
  /\ (fst (fst (maxim2c_i2c_mux_enable host m def_mask w)) = 0 ->
      forall host' chan w',
        0 <= chan < 2 ^ 32 - 1 ->
        maxim2c_i2c_mux_select host'
          (snd (fst (maxim2c_i2c_mux_enable host m def_mask w))) chan w'
        = ((ret (host' w' (LinkSelectRemoteControl (BIT chan))),
            set_i2c_mux m
              {| muxc := muxc (i2c_mux m);
                 i2c_mux_mask := i2c_mux_mask (i2c_mux m);
                 mux_channel := chan;
                 mux_disable := false |}),
           LinkSelectRemoteControl (BIT chan) :: w')).
Proof.
  unfold maxim2c_i2c_mux_enable, bind, call, pure.
  destruct (Z.eqb_spec (ret (host w (LinkSelectRemoteControl def_mask))) 0)
    as [E | E]; cbn [negb fst snd].
  - split; [reflexivity | split; [intros H; contradiction |]].
    intros _ host' chan w' Hc.
    unfold maxim2c_i2c_mux_select.
    cbn [i2c_mux set_i2c_mux mux_disable set_mux_channel set_mux_disable
         mux_channel].
    destruct (Z.eqb_spec (u32 (-1)) chan) as [Eq | _].
    + change (u32 (-1)) with 4294967295 in Eq. lia.
    + reflexivity.
  - split; [reflexivity | split; [reflexivity |]].
    intros H. contradiction.
Qed.

(** X17. [maxim2c_i2c_mux_disable] calls the link layer once with 0xff.
    When that fails the device state is unchanged. When it succeeds the
    recorded channel is kept and, from then on, select and deselect return 0
    without calling the link layer. *)
Theorem disable_silences_the_callbacks (host : host_model) (m : maxim2c_t)
  (w : world) :
  snd (maxim2c_i2c_mux_disable host m w) = LinkSelectRemoteControl 255 :: w
  /\ (fst (fst (maxim2c_i2c_mux_disable host m w)) <> 0 ->
      snd (fst (maxim2c_i2c_mux_disable host m w)) = m)
  /\ (fst (fst (maxim2c_i2c_mux_disable host m w)) = 0 ->
      mux_channel (i2c_mux (snd (fst (maxim2c_i2c_mux_disable host m w))))
      = mux_channel (i2c_mux m)
      /\ forall host' chan w',
           maxim2c_i2c_mux_select host'
             (snd (fst (maxim2c_i2c_mux_disable host m w))) chan w'
           = ((0, snd (fst (maxim2c_i2c_mux_disable host m w))), w')
           /\ maxim2c_i2c_mux_deselect host'
                (snd (fst (maxim2c_i2c_mux_disable host m w))) chan w'
              = ((0, snd (fst (maxim2c_i2c_mux_disable host m w))), w')).
Proof.
  unfold maxim2c_i2c_mux_disable, bind, call, pure.
  destruct (Z.eqb_spec (ret (host w (LinkSelectRemoteControl 255))) 0)
    as [E | E]; cbn [negb fst snd].
  - split; [reflexivity | split; [intros H; contradiction |]].
    intros _. split; [reflexivity |].
    intros host' chan w'. split; reflexivity.
  - split; [reflexivity | split; [reflexivity |]].
    intros H. contradiction.
Qed.

Section Adapters.

Variable host : host_model.

(** The world after the adapters of the first [k] channels were added. *)
Lemma add_adapters_all chans :
  forall w,
    (forall k,
        (k < length chans)%nat ->
        ret (host (rev (map I2cMuxAddAdapter (firstn k chans)) ++ w)
               (I2cMuxAddAdapter (nth k chans 0))) = 0) ->
    add_adapters host chans w
    = (0, rev (map I2cMuxAddAdapter chans) ++ w).
Proof.
  induction chans as [| i chans IH]; intros w H; [reflexivity |].
  simpl add_adapters. unfold bind, call.
  pose proof (H 0%nat ltac:(simpl; lia)) as H0. simpl in H0.
  rewrite H0. simpl (negb (0 =? 0)). cbv iota.
  rewrite IH.
  - simpl. now rewrite <- app_assoc.
  - intros k Hk. specialize (H (S k) ltac:(simpl; lia)).
    simpl in H. rewrite <- app_assoc in H. exact H.
Qed.

Lemma add_adapters_first_failure chans :
  forall w k e,
    (k < length chans)%nat ->
    (forall j,
        (j < k)%nat ->
        ret (host (rev (map I2cMuxAddAdapter (firstn j chans)) ++ w)
               (I2cMuxAddAdapter (nth j chans 0))) = 0) ->
    ret (host (rev (map I2cMuxAddAdapter (firstn k chans)) ++ w)
           (I2cMuxAddAdapter (nth k chans 0))) = e ->
    e <> 0 ->
    add_adapters host chans w
    = (e, rev (map I2cMuxAddAdapter (firstn (S k) chans)) ++ w).
Proof.
  induction chans as [| i chans IH]; intros w k e Hk Hok Hbad He;
    [simpl in Hk; lia |].
  simpl add_adapters. unfold bind, call.
  destruct k as [| k].
  - simpl in Hbad. rewrite Hbad.
    destruct (Z.eqb_spec e 0); [contradiction |]. reflexivity.
  - pose proof (Hok 0%nat ltac:(lia)) as H0. simpl in H0.
    rewrite H0. simpl (negb (0 =? 0)). cbv iota.
    rewrite (IH _ k e).
    + simpl. now rewrite <- !app_assoc.
    + simpl in Hk. lia.
    + intros j Hj. specialize (Hok (S j) ltac:(lia)).
      simpl in Hok. rewrite <- app_assoc in Hok. exact Hok.
    + simpl in Hbad. rewrite <- app_assoc in Hbad. exact Hbad.
    + exact He.
Qed.

End Adapters.

(** X18. The adapter loop of [maxim2c_i2c_mux_init] adds the channels in
    order: when every [i2c_mux_add_adapter] returns 0 it returns 0 after one
    call per channel; otherwise it returns the code of the first call that
    fails and makes no call after it. *)
Theorem add_adapters_goes_in_channel_order (host : host_model)
  (chans : list Z) (w : world) :
  ((forall k,
       (k < length chans)%nat ->
       ret (host (rev (map I2cMuxAddAdapter (firstn k chans)) ++ w)
              (I2cMuxAddAdapter (nth k chans 0))) = 0) ->
   add_adapters host chans w
   = (0, rev (map I2cMuxAddAdapter chans) ++ w))
  /\ (forall k e,
         (k < length chans)%nat ->
         (forall j,
             (j < k)%nat ->
             ret (host (rev (map I2cMuxAddAdapter (firstn j chans)) ++ w)
                    (I2cMuxAddAdapter (nth j chans 0))) = 0) ->
         ret (host (rev (map I2cMuxAddAdapter (firstn k chans)) ++ w)
                (I2cMuxAddAdapter (nth k chans 0))) = e ->
         e <> 0 ->
         add_adapters host chans w
         = (e, rev (map I2cMuxAddAdapter (firstn (S k) chans)) ++ w)).
Proof.
  split.
  - apply add_adapters_all.
  - intros k e. apply add_adapters_first_failure.
Qed.

(** X19. How [maxim2c_i2c_mux_init] fails: [-ENODEV] right after the
    functionality check, with the device untouched; [-ENOMEM] when
    [i2c_mux_alloc] returns NULL, which is stored in [muxc]; the code of the
    failing [i2c_mux_add_adapter] after [i2c_mux_del_adapters] was called.
    In every failure [i2c_mux_mask] keeps its value. *)
Theorem mux_init_failure_paths (host : host_model) (link_id_max : Z)
  (m : maxim2c_t) (w : world) :
  (ret (host w I2cCheckFunctionality) = 0 ->
   maxim2c_i2c_mux_init host link_id_max m w
   = ((- ENODEV, m), [I2cCheckFunctionality] ++ w))
  /\ (ret (host w I2cCheckFunctionality) <> 0 ->
      ret (host (I2cCheckFunctionality :: w) (I2cMuxAlloc link_id_max)) = 0 ->
      maxim2c_i2c_mux_init host link_id_max m w
      = ((- ENOMEM, set_i2c_mux m (set_muxc (i2c_mux m) 0)),
         [I2cMuxAlloc link_id_max; I2cCheckFunctionality] ++ w))
  /\ (forall e w3,
         ret (host w I2cCheckFunctionality) <> 0 ->
         ret (host (I2cCheckFunctionality :: w) (I2cMuxAlloc link_id_max))
         <> 0 ->
         add_adapters host
           (map Z.of_nat (seq 0 (Z.to_nat link_id_max)))
           (I2cMuxAlloc link_id_max :: I2cCheckFunctionality :: w)
         = (e, w3) ->
         e <> 0 ->
         maxim2c_i2c_mux_init host link_id_max m w
         = ((e,
             set_i2c_mux m
               (set_muxc (i2c_mux m)
                  (ret (host (I2cCheckFunctionality :: w)
                          (I2cMuxAlloc link_id_max))))),
            I2cMuxDelAdapters :: w3))
  /\ (fst (fst (maxim2c_i2c_mux_init host link_id_max m w)) <> 0 ->
      i2c_mux_mask
        (i2c_mux (snd (fst (maxim2c_i2c_mux_init host link_id_max m w))))
      = i2c_mux_mask (i2c_mux m)).
Proof.
  unfold maxim2c_i2c_mux_init, bind, call, pure.
  destruct (Z.eqb_spec (ret (host w I2cCheckFunctionality)) 0) as [E1 | E1].
  { repeat split; try (intros; contradiction). }
  destruct (Z.eqb_spec
              (ret (host (I2cCheckFunctionality :: w)
                      (I2cMuxAlloc link_id_max))) 0) as [E2 | E2].
  { split; [intros; contradiction |].
    split; [intros _ _; now rewrite E2 |].
    split; [intros; contradiction | reflexivity]. }
  destruct (add_adapters host _ _) as [e0 w0].
  split; [intros; contradiction |].
  split; [intros; contradiction |].
  split.
  - intros e w3 _ _ H He. inversion H; subst.
    destruct (Z.eqb_spec e 0); [contradiction |]. reflexivity.
  - destruct (Z.eqb_spec e0 0); cbn [negb fst snd].
    + intros H. contradiction.
    + reflexivity.
Qed.

(** X20. [maxim2c_i2c_mux_deinit] calls [i2c_mux_del_adapters] exactly when
    [muxc] is not NULL, and leaves [muxc] as it is (a second call deletes
    again). Afterwards the next select of any channel calls the link layer:
    the mux is enabled with no channel recorded. *)
Theorem mux_deinit_releases_what_was_allocated (host : host_model)
  (m : maxim2c_t) (w : world) :
  (muxc (i2c_mux m) <> 0 ->
   snd (maxim2c_i2c_mux_deinit host m w) = I2cMuxDelAdapters :: w)
  /\ (muxc (i2c_mux m) = 0 -> snd (maxim2c_i2c_mux_deinit host m w) = w)
  /\ muxc (i2c_mux (snd (fst (maxim2c_i2c_mux_deinit host m w))))
     = muxc (i2c_mux m)
  /\ forall host' chan w',
       0 <= chan < 2 ^ 32 - 1 ->
       snd (maxim2c_i2c_mux_select host'
              (snd (fst (maxim2c_i2c_mux_deinit host m w))) chan w')
       = LinkSelectRemoteControl (BIT chan) :: w'.
Proof.
  unfold maxim2c_i2c_mux_deinit, bind, call, pure.
  destruct (Z.eqb_spec (muxc (i2c_mux m)) 0) as [E | E]; cbn [negb fst snd];
    (split; [intros H; try contradiction; reflexivity |]);
    (split; [intros H; try contradiction; reflexivity |]);
    (split; [reflexivity |]);
    intros host' chan w' Hc; unfold maxim2c_i2c_mux_select;
    cbn [i2c_mux set_i2c_mux mux_disable set_mux_channel set_mux_disable
         set_i2c_mux_mask mux_channel];
    (destruct (Z.eqb_spec (u32 (-1)) chan) as [Eq | _];
     [change (u32 (-1)) with 4294967295 in Eq; lia | reflexivity]).
Qed.

Lemma testbit_BIT (id i : Z) :
  0 <= id -> Z.testbit (BIT id) i = (id =? i).
Proof.
  intros H. unfold BIT. rewrite Z.shiftl_1_l.
  now apply Z.pow2_bits_eqb.
Qed.

Lemma mask_of_children_bits (link_id_max : Z) (children : list device_node) :
  Forall (fun node => 0 <= child_id node) children ->
  forall i,
    Z.testbit (mask_of_children link_id_max children) i
    = existsb (fun node =>
                 available node && (child_id node <? link_id_max)
                 && (child_id node =? i)) children.
Proof.
  intros Hids i. unfold mask_of_children.
  induction children as [| n l IH]; simpl.
  - apply Z.bits_0.
  - inversion Hids as [| ? ? Hn Hl]; subst.
    destruct (available n && (child_id n <? link_id_max)); simpl.
    + rewrite Z.lor_spec, testbit_BIT by exact Hn. now rewrite IH.
    + now apply IH.
Qed.

(** X21. With an "i2c-mux" node, bit [i] of the mask
    [maxim2c_i2c_mux_mask] returns is set exactly when some child is
    available and has id [i] below [MAXIM2C_LINK_ID_MAX] (at most 32; ids are
    [u32]); in particular no bit at or above the limit is set. *)
Theorem mux_mask_has_one_bit_per_link (link_id_max : Z) (m : maxim2c_t)
  (children : list device_node) :
  of_i2c_mux m = Some children ->
  link_id_max <= 32 ->
  Forall (fun node => 0 <= child_id node) children ->
  forall i,
    Z.testbit (maxim2c_i2c_mux_mask link_id_max m) i
    = existsb (fun node =>
                 available node && (child_id node <? link_id_max)
                 && (child_id node =? i)) children.
Proof.
  intros Hm Hmax Hids i. unfold maxim2c_i2c_mux_mask. rewrite Hm.
  rewrite mux_mask_loop by lia. rewrite Z.lor_0_l.
  now apply mask_of_children_bits.
Qed.

(** X22. When the functionality check, the allocation and every
    [i2c_mux_add_adapter] succeed, [maxim2c_i2c_mux_init] returns 0 after
    adding the adapters of channels 0 to [MAXIM2C_LINK_ID_MAX - 1] in order;
    it stores the handle in [muxc] and the device-tree mask in
    [i2c_mux_mask], and leaves [mux_channel] and [mux_disable] as they
    were. *)
Theorem mux_init_registers_every_link (host : host_model) (link_id_max : Z)
  (m : maxim2c_t) (w : world) :
  ret (host w I2cCheckFunctionality) <> 0 ->
  ret (host (I2cCheckFunctionality :: w) (I2cMuxAlloc link_id_max)) <> 0 ->
  (forall k,
      (k < Z.to_nat link_id_max)%nat ->
      ret (host (rev (map I2cMuxAddAdapter
                        (firstn k (map Z.of_nat
                                     (seq 0 (Z.to_nat link_id_max)))))
                 ++ I2cMuxAlloc link_id_max :: I2cCheckFunctionality :: w)
             (I2cMuxAddAdapter (Z.of_nat k))) = 0) ->
  maxim2c_i2c_mux_init host link_id_max m w
  = ((0,
      set_i2c_mux m
        {| muxc := ret (host (I2cCheckFunctionality :: w)
                          (I2cMuxAlloc link_id_max));
           i2c_mux_mask := maxim2c_i2c_mux_mask link_id_max m;
           mux_channel := mux_channel (i2c_mux m);
           mux_disable := mux_disable (i2c_mux m) |}),
     rev (map I2cMuxAddAdapter
            (map Z.of_nat (seq 0 (Z.to_nat link_id_max))))
     ++ I2cMuxAlloc link_id_max :: I2cCheckFunctionality :: w).
Proof.
  intros Hc Ha Hadd.
  unfold maxim2c_i2c_mux_init, bind, call, pure.
  destruct (Z.eqb_spec (ret (host w I2cCheckFunctionality)) 0);
    [contradiction |].
  destruct (Z.eqb_spec
              (ret (host (I2cCheckFunctionality :: w)
                      (I2cMuxAlloc link_id_max))) 0); [contradiction |].
  rewrite add_adapters_all.
  - reflexivity.
  - intros k Hk. rewrite length_map, length_seq in Hk.
    specialize (Hadd k Hk).
    replace (nth k (map Z.of_nat (seq 0 (Z.to_nat link_id_max))) 0)
      with (Z.of_nat k); [exact Hadd |].
    rewrite (nth_indep _ 0 (Z.of_nat 0))
      by (rewrite length_map, length_seq; exact Hk).
    rewrite map_nth, seq_nth by exact Hk. reflexivity.
Qed.

(** Seven bytes of 5-byte items are refused before any allocation; ten
    bytes are refused with [-ENOMEM] when [devm_kmemdup] fails, the
    structure untouched, and when [devm_kcalloc] fails, [reg_seq_size]
    being 3 by then. *)
Lemma parse_init_seq_failure_modes_witness :
  snd (maxim2c_i2c_parse_init_seq (sim_host None) 65535
         (Some [3; 19; 96; 15; 2; 0; 16]) 7
         (Some (init_seq_header 5 2 1)) []) = []
  /\ snd (maxim2c_i2c_parse_init_seq (faulty_host kmemdup_fails) 65535
            (Some [3; 19; 96; 15; 2; 0; 16; 5; 0; 0]) 10
            (Some (init_seq_header 5 2 1)) []) = [DevmKmemdup 10]
  /\ exists s'',
       fst (maxim2c_i2c_parse_init_seq (faulty_host kcalloc_fails) 65535
              (Some [3; 19; 96; 15; 2; 0; 16; 5; 0; 0]) 10
              (Some (init_seq_header 5 2 1)) [])
       = Some (-12, Some s'')
       /\ reg_init_seq s'' = None
       /\ reg_seq_size s'' = 3
       /\ snd (maxim2c_i2c_parse_init_seq (faulty_host kcalloc_fails) 65535
                 (Some [3; 19; 96; 15; 2; 0; 16; 5; 0; 0]) 10
                 (Some (init_seq_header 5 2 1)) [])
          = [DevmKcalloc 3; DevmKmemdup 10].
Proof.
  split; [| split].
  - destruct (proj1 (parse_init_seq_failure_modes (sim_host None) 65535
                       (Some [3; 19; 96; 15; 2; 0; 16]) 7
                       (Some (init_seq_header 5 2 1)) [])
                (-22) (Some (init_seq_header 5 2 1)) eq_refl)
      as (_ & H & _).
    exact (proj2 (H eq_refl)).
  - destruct (proj1 (parse_init_seq_failure_modes
                       (faulty_host kmemdup_fails) 65535
                       (Some [3; 19; 96; 15; 2; 0; 16; 5; 0; 0]) 10
                       (Some (init_seq_header 5 2 1)) [])
                (-12) (Some (init_seq_header 5 2 1)) eq_refl)
      as (_ & _ & H).
    destruct (H eq_refl) as [[_ Hw] | (s & s'' & _ & _ & _ & _ & Hw)].
    + exact Hw.
    + vm_compute in Hw. discriminate.
  - destruct (proj1 (parse_init_seq_failure_modes
                       (faulty_host kcalloc_fails) 65535
                       (Some [3; 19; 96; 15; 2; 0; 16; 5; 0; 0]) 10
                       (Some (init_seq_header 5 2 1)) [])
                (-12)
                (Some {| reg_init_seq := None; reg_seq_size := 3;
                         seq_item_size := 5; seq_reg_len := 2;
                         seq_val_len := 1 |}) eq_refl)
      as (_ & _ & H).
    destruct (H eq_refl) as [[_ Hw] | (s & s'' & Hs & Es & Hn & Hz & Hw)].
    + vm_compute in Hw. discriminate.
    + exists s''. inversion Hs; subst s. inversion Es; subst s''.
      split; [reflexivity |]. split; [reflexivity |].
      split; [reflexivity |]. exact Hw.
Defined.

(** Seven bytes are not a whole number of 5-byte items. *)
Lemma parse_init_seq_rejects_witness :
  maxim2c_i2c_parse_init_seq (sim_host None) 65535
    (Some [3; 19; 96; 0; 0; 3; 20]) 7 (Some (init_seq_header 5 2 1)) []
  = (Some (-22, Some (init_seq_header 5 2 1)), []).
Proof.
  apply (proj1 (parse_init_seq_rejects (sim_host None) 65535
                  (Some [3; 19; 96; 0; 0; 3; 20]) 7
                  (Some (init_seq_header 5 2 1)) [] ltac:(lia)
                  ltac:(intros s H; inversion H; simpl; lia))).
  right. right. exists (init_seq_header 5 2 1).
  split; [reflexivity |].
  do 4 right. left. discriminate.
Defined.

(** A disabled node drops the sequence the structure held. *)
Lemma load_init_seq_skips_a_disabled_node_witness :
  maxim2c_i2c_load_init_seq (sim_host None) 65535
    (Some (init_seq_node_5 false (Some [3; 19; 96; 15; 2])))
    (Some {| reg_init_seq := Some [regval8 787 96 0 0]; reg_seq_size := 1;
             seq_item_size := 0; seq_reg_len := 0; seq_val_len := 0 |}) []
  = (Some (0, Some (init_seq_header 0 0 0)), []).
Proof.
  apply (proj1 (load_init_seq_skips_a_disabled_node (sim_host None) 65535
                  (init_seq_node_5 false (Some [3; 19; 96; 15; 2]))
                  {| reg_init_seq := Some [regval8 787 96 0 0];
                     reg_seq_size := 1; seq_item_size := 0;
                     seq_reg_len := 0; seq_val_len := 0 |} [] eq_refl)).
Defined.

(** A node without the "init-sequence" property. *)
Lemma load_init_seq_requires_every_property_witness :
  exists s',
    maxim2c_i2c_load_init_seq (sim_host None) 65535
      (Some (init_seq_node_5 true None)) (Some (init_seq_header 0 0 0)) []
    = (Some (-22, Some s'), [])
    /\ reg_init_seq s' = None
    /\ reg_seq_size s' = 0.
Proof.
  apply (load_init_seq_requires_every_property (sim_host None) 65535
           (init_seq_node_5 true None) (init_seq_header 0 0 0) []).
  - reflexivity.
  - left. reflexivity.
Defined.

(** A node with two five-byte items. *)
Lemma load_then_run_stays_in_bounds_witness :
  exists code s',
    fst (maxim2c_i2c_load_init_seq (sim_host None) 65535
           (Some (init_seq_node_5 true
                    (Some [3; 19; 96; 15; 2; 0; 16; 5; 0; 0])))
           (Some (init_seq_header 0 0 0)) []) = Some (code, Some s')
    /\ (code <> 0 -> reg_init_seq s' = None)
    /\ forall host' c w',
         fst (maxim2c_i2c_run_init_seq host' 65535 c (Some s') w') <> None.
Proof.
  apply (load_then_run_stays_in_bounds (sim_host None) 65535
           (init_seq_node_5 true (Some [3; 19; 96; 15; 2; 0; 16; 5; 0; 0]))
           (init_seq_header 0 0 0) []).
  - lia.
  - intros data H. inversion H. simpl. lia.
  - intros rl vl Hr Hv. inversion Hr. inversion Hv. lia.
Defined.

(** The link layer fails on the select of channel 1; the next select of
    channel 1 does nothing. *)
Lemma failed_select_is_not_retried_witness :
  fst (fst (maxim2c_i2c_mux_select (faulty_host link_fails) maxim2c_idle 1
              [])) = -5
  /\ maxim2c_i2c_mux_select (sim_host None) maxim2c_on_1 1
       [LinkSelectRemoteControl 2]
     = ((0, maxim2c_on_1), [LinkSelectRemoteControl 2]).
Proof.
  destruct (failed_select_is_not_retried (faulty_host link_fails)
              maxim2c_idle 1 [] eq_refl) as [H1 H2].
  - discriminate.
  - discriminate.
  - split; [exact H1 |].
    exact (H2 (sim_host None) [LinkSelectRemoteControl 2]).
Defined.

(** Channel 1 is selected again after an enable. *)
Lemma enable_forgets_the_selected_channel_witness :
  maxim2c_i2c_mux_select (sim_host None)
    (snd (fst (maxim2c_i2c_mux_enable (sim_host None) maxim2c_on_1 3 [])))
    1 [LinkSelectRemoteControl 3]
  = ((0, maxim2c_on_1),
     [LinkSelectRemoteControl 2; LinkSelectRemoteControl 3]).
Proof.
  apply (proj2 (proj2 (enable_forgets_the_selected_channel (sim_host None)
                         maxim2c_on_1 3 [])) eq_refl (sim_host None) 1
           [LinkSelectRemoteControl 3]).
  lia.
Defined.

(** A select after a disable. *)
Lemma disable_silences_the_callbacks_witness :
  maxim2c_i2c_mux_select (sim_host None)
    (snd (fst (maxim2c_i2c_mux_disable (sim_host None) maxim2c_idle [])))
    1 [LinkSelectRemoteControl 255]
  = ((0, snd (fst (maxim2c_i2c_mux_disable (sim_host None) maxim2c_idle []))),
     [LinkSelectRemoteControl 255]).
Proof.
  apply (proj2 (proj2 (proj2 (disable_silences_the_callbacks (sim_host None)
                                maxim2c_idle [])) eq_refl)
           (sim_host None) 1 [LinkSelectRemoteControl 255]).
Defined.

(** The adapter of channel 1 fails: channel 2 is never tried. *)
Lemma add_adapters_goes_in_channel_order_witness :
  add_adapters (faulty_host (adapter_fails 1)) [0; 1; 2] []
  = (-16, [I2cMuxAddAdapter 1; I2cMuxAddAdapter 0]).
Proof.
  apply (proj2 (add_adapters_goes_in_channel_order
                  (faulty_host (adapter_fails 1)) [0; 1; 2] [])
           1%nat (-16)).
  - simpl. lia.
  - intros j Hj. assert (j = 0%nat) as -> by lia. reflexivity.
  - reflexivity.
  - discriminate.
Defined.

(** The adapter of channel 1 fails during the init of the probed device. *)
Lemma mux_init_failure_paths_witness :
  maxim2c_i2c_mux_init (faulty_host (adapter_fails 1)) 2 maxim2c_idle []
  = ((-16, maxim2c_idle),
     [I2cMuxDelAdapters; I2cMuxAddAdapter 1; I2cMuxAddAdapter 0;
      I2cMuxAlloc 2; I2cCheckFunctionality]).
Proof.
  apply (proj1 (proj2 (proj2 (mux_init_failure_paths
                                (faulty_host (adapter_fails 1)) 2
                                maxim2c_idle []))) (-16)
           [I2cMuxAddAdapter 1; I2cMuxAddAdapter 0;
            I2cMuxAlloc 2; I2cCheckFunctionality]).
  - discriminate.
  - discriminate.
  - reflexivity.
  - discriminate.
Defined.

(** The deinit of a device with a mux core. *)
Lemma mux_deinit_releases_what_was_allocated_witness :
  snd (maxim2c_i2c_mux_deinit (sim_host None) maxim2c_on_1 [])
  = [I2cMuxDelAdapters].
Proof.
  apply (proj1 (mux_deinit_releases_what_was_allocated (sim_host None)
                  maxim2c_on_1 [])).
  discriminate.
Defined.

(** Bit 1 of the mask of the probed device. *)
Lemma mux_mask_has_one_bit_per_link_witness :
  Z.testbit (maxim2c_i2c_mux_mask 2 maxim2c_idle) 1 = true.
Proof.
  apply (mux_mask_has_one_bit_per_link 2 maxim2c_idle
           [ {| reg := Some 0; available := true |};
             {| reg := Some 1; available := true |} ] eq_refl).
  - lia.
  - repeat apply Forall_cons; try apply Forall_nil;
      unfold child_id, of_property_read_u32_reg; simpl; lia.
Defined.

(** The init of a device with two links. *)
Lemma mux_init_registers_every_link_witness :
  maxim2c_i2c_mux_init (sim_host None) 2
    {| client := des;
       i2c_mux := {| muxc := 0; i2c_mux_mask := 0; mux_channel := 0;
                     mux_disable := false |};
       of_i2c_mux := of_i2c_mux maxim2c_idle |} []
  = ((0, {| client := des;
            i2c_mux := {| muxc := 1; i2c_mux_mask := 3; mux_channel := 0;
                          mux_disable := false |};
            of_i2c_mux := of_i2c_mux maxim2c_idle |}),
     [I2cMuxAddAdapter 1; I2cMuxAddAdapter 0; I2cMuxAlloc 2;
      I2cCheckFunctionality]).
Proof.
  apply (mux_init_registers_every_link (sim_host None) 2
           {| client := des;
              i2c_mux := {| muxc := 0; i2c_mux_mask := 0; mux_channel := 0;
                            mux_disable := false |};
              of_i2c_mux := of_i2c_mux maxim2c_idle |} []).
  - discriminate.
  - discriminate.
  - intros k Hk. reflexivity.
Defined.
